(** * Phobos LRS device worker: a shallow embedding of [src/lrs/lrs_device.c]

    The development follows the C file function by function.  The device
    thread is sequential code that talks to the outside (DSS, library
    adapter, filesystem adapter, I/O adapter, response and scheduler queues,
    the clock) through calls whose results the code cannot predict.  Those
    calls are modelled as an oracle: the world carries an environment that
    answers each external call, and every call is appended to a trace
    together with its answer.  Writes to [ld_op_status] are recorded in the
    same trace so that the state machine can be read off a run.

    Conventions.
    - C integers are [Z]; signed overflow is undefined behaviour in C and is
      not modelled, [size_t] arithmetic wraps modulo 2^64 where the code
      adds or subtracts.
    - Logging ([pho_error], [pho_info], [dss_emit_log], ...) has no effect
      on the state the claims talk about and is left out.
    - Mutex lock/unlock pairs are left out: the model is one thread.
    - A pointer to a request container is a key in a finite map; a NULL
      pointer is [None]. *)

From Stdlib Require Import ZArith List String Bool Lia.
From stdpp Require Import base decidable option list gmap.

Local Open Scope Z_scope.

(** ** Errno values (Linux [errno.h]) *)

Definition ENOMEM : Z := 12.
Definition EBUSY : Z := 16.
Definition EINVAL : Z := 22.
Definition ENOSPC : Z := 28.

(** ** Time *)

Record timespec := Timespec { tv_sec : Z; tv_nsec : Z }.

Definition ts_zero : timespec := Timespec 0 0.

(** A timespec is normalised when its nanosecond field is in [0, 10^9). *)
Definition ts_norm (t : timespec) : Prop := 0 <= tv_nsec t < 1000000000.

(** Total number of nanoseconds, used to state properties only. *)
Definition ts_ns (t : timespec) : Z := tv_sec t * 1000000000 + tv_nsec t.

(** Modelled from the spec: [cmp_timespec] is declared in [pho_common.h]
    (its body is not part of the sources at hand); the declaration says it
    returns 0 iff a == b, -1 iff a < b and 1 iff a > b. *)
Definition cmp_timespec (a b : timespec) : Z :=
  if tv_sec a <? tv_sec b then -1
  else if tv_sec b <? tv_sec a then 1
  else if tv_nsec a <? tv_nsec b then -1
  else if tv_nsec b <? tv_nsec a then 1
  else 0.

(** Modelled from the spec: [add_timespec] is declared in [pho_common.h]:
    the sum of [a] and [b], with the nanoseconds of the result brought back
    under 10^9 by one carry. *)
Definition add_timespec (a b : timespec) : timespec :=
  let s := tv_sec a + tv_sec b in
  let n := tv_nsec a + tv_nsec b in
  if 1000000000 <=? n then Timespec (s + 1) (n - 1000000000) else Timespec s n.

(** Modelled from the spec: [diff_timespec] is declared in [pho_common.h]:
    [a - b], with one borrow when the nanoseconds go negative.  The
    declaration assumes [a >= b]; for [a < b] the seconds come out
    negative. *)
Definition diff_timespec (a b : timespec) : timespec :=
  let s := tv_sec a - tv_sec b in
  let n := tv_nsec a - tv_nsec b in
  if n <? 0 then Timespec (s - 1) (n + 1000000000) else Timespec s n.

(** [MINSLEEP]: 10 ms. *)
Definition MINSLEEP : timespec := Timespec 0 10000000.

(** [is_older_or_equal]: true if [a] is older or equal to [b]. *)
Definition is_older_or_equal (a b : timespec) : bool :=
  if (tv_sec b <? tv_sec a)
     || ((tv_sec a =? tv_sec b) && (tv_nsec b <? tv_nsec a))
  then false else true.

(** The later of two instants, used to state properties only. *)
Definition ts_max (a b : timespec) : timespec :=
  if is_older_or_equal a b then b else a.

(** ** Enumerations *)

Inductive dev_op_status :=
| PHO_DEV_OP_ST_FAILED
| PHO_DEV_OP_ST_EMPTY
| PHO_DEV_OP_ST_LOADED
| PHO_DEV_OP_ST_MOUNTED.

Inductive rsc_adm_status :=
| PHO_RSC_ADM_ST_LOCKED
| PHO_RSC_ADM_ST_UNLOCKED
| PHO_RSC_ADM_ST_FAILED.

Inductive fs_status :=
| PHO_FS_STATUS_BLANK
| PHO_FS_STATUS_EMPTY
| PHO_FS_STATUS_USED
| PHO_FS_STATUS_FULL.

Inductive fs_type := PHO_FS_POSIX | PHO_FS_LTFS | PHO_FS_RADOS.

Inductive rsc_family := PHO_RSC_DIR | PHO_RSC_TAPE | PHO_RSC_RADOS_POOL.

Inductive lib_type := PHO_LIB_DUMMY | PHO_LIB_SCSI | PHO_LIB_RADOS.

Inductive med_location :=
| MED_LOC_UNKNOWN
| MED_LOC_DRIVE
| MED_LOC_SLOT
| MED_LOC_ARM
| MED_LOC_IMPEXP.

Inductive sub_request_status :=
| SUB_REQUEST_TODO
| SUB_REQUEST_DONE
| SUB_REQUEST_ERROR
| SUB_REQUEST_CANCEL.

Inductive thread_state := THREAD_RUNNING | THREAD_STOPPING | THREAD_STOPPED.

Inductive req_kind := REQ_FORMAT | REQ_READ | REQ_WRITE | REQ_RELEASE | REQ_OTHER.

(** Bits of the [fields] mask handed to [dss_media_set]. *)
Inductive dss_field :=
| ADM_STATUS
| FS_STATUS
| FS_LABEL
| NB_OBJ
| NB_OBJ_ADD
| LOGC_SPC_USED
| LOGC_SPC_USED_ADD
| PHYS_SPC_USED
| PHYS_SPC_FREE.

#[global] Instance dev_op_status_eq_dec : EqDecision dev_op_status.
Proof. solve_decision. Defined.
#[global] Instance rsc_adm_status_eq_dec : EqDecision rsc_adm_status.
Proof. solve_decision. Defined.
#[global] Instance fs_status_eq_dec : EqDecision fs_status.
Proof. solve_decision. Defined.
#[global] Instance fs_type_eq_dec : EqDecision fs_type.
Proof. solve_decision. Defined.
#[global] Instance rsc_family_eq_dec : EqDecision rsc_family.
Proof. solve_decision. Defined.
#[global] Instance med_location_eq_dec : EqDecision med_location.
Proof. solve_decision. Defined.
#[global] Instance sub_request_status_eq_dec : EqDecision sub_request_status.
Proof. solve_decision. Defined.
#[global] Instance thread_state_eq_dec : EqDecision thread_state.
Proof. solve_decision. Defined.
#[global] Instance req_kind_eq_dec : EqDecision req_kind.
Proof. solve_decision. Defined.
#[global] Instance dss_field_eq_dec : EqDecision dss_field.
Proof. solve_decision. Defined.

(** ** Data model

    The records keep the fields of the C structures that the device worker
    reads or writes. *)

(** [struct media_info]: [rsc.id.name], [rsc.adm_status], [fs.type],
    [fs.status], [fs.label], [stats.*] and whether [lock] names an owner. *)
Record media_info := MediaInfo {
  m_name : string;
  m_adm_status : rsc_adm_status;
  m_fs_type : fs_type;
  m_fs_status : fs_status;
  m_fs_label : string;
  m_nb_obj : Z;
  m_logc_spc_used : Z;
  m_phys_spc_used : Z;
  m_phys_spc_free : Z;
  m_lock : bool
}.

(** [struct dev_info]. *)
Record dev_info := DevInfo {
  d_name : string;
  d_family : rsc_family;
  d_adm_status : rsc_adm_status;
  d_lock : bool
}.

(** [struct ldm_fs_space]. *)
Record ldm_fs_space := FsSpace {
  spc_used : Z;
  spc_avail : Z;
  spc_flags : Z
}.

(** [PHO_FS_READONLY = (1 << 0)]. *)
Definition PHO_FS_READONLY : Z := Z.shiftl 1 0.

(** [struct tosync_medium] of a release request. *)
Record tosync_medium := TosyncMedium {
  ts_status : sub_request_status;
  ts_name : string;
  written_size : Z;
  client_rc : Z
}.

(** [struct release_params]; [n_tosync_media] is the length of the list. *)
Record release_params := ReleaseParams {
  rel_rc : Z;
  tosync_media : list tosync_medium
}.

(** [struct rwalloc_medium]. *)
Record rwalloc_medium := RwallocMedium {
  rw_status : sub_request_status;
  alloc_medium : option media_info
}.

(** One element of a read or write allocation response. *)
Record resp_elt := RespElt {
  re_fs_type : fs_type;
  re_root_path : string;
  re_med_name : string;
  re_avail_size : Z
}.

(** [struct rwalloc_params]; [respc] is NULL once it has been handed to the
    response queue. *)
Record rwalloc_params := RwallocParams {
  rw_rc : Z;
  rw_media : list rwalloc_medium;
  rw_respc : option (list (option resp_elt))
}.

(** [struct format_params] together with the fields of the format request
    the worker reads ([req->format->unlock], [req->format->med_id->name]). *)
Record format_params := FormatParams {
  medium_to_format : option media_info;
  fmt_unlock : bool;
  fmt_med_name : string
}.

(** [struct req_container].  The C structure holds the parameters in a
    union selected by the kind of the request; the record keeps the three
    members side by side and [rc_kind] tells which one is live.
    [n_med_ids] and [n_required] are the counters of a read request. *)
Record req_container := ReqContainer {
  rc_kind : req_kind;
  received_at : timespec;
  p_release : release_params;
  p_rwalloc : rwalloc_params;
  p_format : format_params;
  n_med_ids : Z;
  n_required : Z
}.

(** [struct sub_request]; [reqc] is a pointer into the request store. *)
Record sub_request := SubRequest {
  reqc : option nat;
  medium_index : nat;
  failure_on_medium : bool
}.

(** [struct lrs_dev_hdl]: the sync thresholds. *)
Record lrs_dev_hdl := DevHdl {
  sync_time_ms : timespec;
  sync_nb_req : Z;
  sync_wsize_kb : Z
}.

(** [struct sync_params]. *)
Record sync_params := SyncParams {
  tosync_array : list sub_request;
  oldest_tosync : timespec;
  tosync_size : Z
}.

(** [struct thread_info]: state and exit status of the device thread. *)
Record thread_info := ThreadInfo {
  th_state : thread_state;
  th_status : Z
}.

(** [struct lrs_dev]. *)
Record lrs_dev := LrsDev {
  ld_dss_dev_info : dev_info;
  ld_lib_dev_addr : med_location;
  ld_op_status : dev_op_status;
  ld_dev_path : string;
  ld_dss_media_info : option media_info;
  ld_mnt_path : string;
  ld_sub_request : option sub_request;
  ld_ongoing_io : bool;
  ld_needs_sync : bool;
  ld_device_thread : thread_info;
  ld_sync_params : sync_params;
  ld_handle : lrs_dev_hdl;
  ld_last_client_rc : Z
}.

(** ** External calls, their answers and the trace *)

Inductive queue_id := RESPONSE_QUEUE | SCHED_REQ_QUEUE | SCHED_RETRY_QUEUE.

(** What is pushed on a queue. *)
Inductive queue_item :=
| ItemReleaseResp (req : option nat)
| ItemFormatResp (req : option nat)
| ItemRwallocResp (req : option nat) (payload : list (option resp_elt))
| ItemReqc (req : option nat)
| ItemSubRequest (sr : sub_request).

Inductive ext_call :=
| ClockGettime
| ThreadSignalTimedWait (date : timespec)
| Malloc
| Strdup (s : string)
| SrlResponseAlloc
| GetIoAdapter (t : fs_type)
| IoaMediumSync (fsroot : string)
| GetFsAdapter (t : fs_type)
| LdmFsDf (fsroot : string)
| LdmFsUmount (dev_path mnt_path : string)
| LdmFsMounted (dev_path : string)
| LdmFsMount (dev_path mnt_root label : string)
| LdmFsFormat (dev_path label : string)
| Basename (path : string)
| MountPoint (id : string)
| GetLibAdapter (lt : lib_type)
| CfgGetLibDevice
| LdmLibOpen
| LdmLibMediaLookup (name : string)
| LdmLibMediaMove (src dst : med_location)
| LdmLibClose
| DssMediaSet (m : media_info) (fields : list dss_field)
| DssUnlockMedia (m : media_info)
| DssUnlockDevice (d : dev_info)
| DssDeviceUpdateAdmStatus (d : dev_info)
| QueueErrorResponse (rc : Z) (req : option nat)
| TsqueuePush (q : queue_id) (item : queue_item)
| FormatMediumRemove (m : option media_info)
| SchedReqFree (req : option nat)
| RwallocCancelDoneDevices (req : option nat).

(** The answer to a call: the returned code (0 is success; for calls that
    return a pointer, non-zero stands for NULL), [errno] where the code
    reads it, and the out-parameters. *)
Record ext_result := ExtResult {
  res_rc : Z;
  res_errno : Z;
  res_time : timespec;
  res_addr : med_location;
  res_space : ldm_fs_space;
  res_str : string
}.

Inductive event :=
| EvCall (c : ext_call) (r : ext_result)
| EvOpStatus (old new : dev_op_status).

(** The environment answers a call knowing how many events came before. *)
Definition oracle := nat -> ext_call -> ext_result.

(** The world of one device thread: its device, the request containers it
    can reach, the global [running] flag of the daemon, the environment and
    the trace, newest event first. *)
Record world := World {
  w_dev : lrs_dev;
  w_reqs : gmap nat req_container;
  w_running : bool;
  w_env : oracle;
  w_trace : list event
}.

(** *** Field updates *)

Definition dev_with_op_status (s : dev_op_status) (d : lrs_dev) : lrs_dev :=
  LrsDev (ld_dss_dev_info d) (ld_lib_dev_addr d) s (ld_dev_path d)
    (ld_dss_media_info d) (ld_mnt_path d) (ld_sub_request d) (ld_ongoing_io d)
    (ld_needs_sync d) (ld_device_thread d) (ld_sync_params d) (ld_handle d)
    (ld_last_client_rc d).

Definition dev_with_dev_info (i : dev_info) (d : lrs_dev) : lrs_dev :=
  LrsDev i (ld_lib_dev_addr d) (ld_op_status d) (ld_dev_path d)
    (ld_dss_media_info d) (ld_mnt_path d) (ld_sub_request d) (ld_ongoing_io d)
    (ld_needs_sync d) (ld_device_thread d) (ld_sync_params d) (ld_handle d)
    (ld_last_client_rc d).

Definition dev_with_media_info (m : option media_info) (d : lrs_dev) : lrs_dev :=
  LrsDev (ld_dss_dev_info d) (ld_lib_dev_addr d) (ld_op_status d) (ld_dev_path d)
    m (ld_mnt_path d) (ld_sub_request d) (ld_ongoing_io d)
    (ld_needs_sync d) (ld_device_thread d) (ld_sync_params d) (ld_handle d)
    (ld_last_client_rc d).

Definition dev_with_mnt_path (p : string) (d : lrs_dev) : lrs_dev :=
  LrsDev (ld_dss_dev_info d) (ld_lib_dev_addr d) (ld_op_status d) (ld_dev_path d)
    (ld_dss_media_info d) p (ld_sub_request d) (ld_ongoing_io d)
    (ld_needs_sync d) (ld_device_thread d) (ld_sync_params d) (ld_handle d)
    (ld_last_client_rc d).

Definition dev_with_sub_request (s : option sub_request) (d : lrs_dev) : lrs_dev :=
  LrsDev (ld_dss_dev_info d) (ld_lib_dev_addr d) (ld_op_status d) (ld_dev_path d)
    (ld_dss_media_info d) (ld_mnt_path d) s (ld_ongoing_io d)
    (ld_needs_sync d) (ld_device_thread d) (ld_sync_params d) (ld_handle d)
    (ld_last_client_rc d).

Definition dev_with_ongoing_io (b : bool) (d : lrs_dev) : lrs_dev :=
  LrsDev (ld_dss_dev_info d) (ld_lib_dev_addr d) (ld_op_status d) (ld_dev_path d)
    (ld_dss_media_info d) (ld_mnt_path d) (ld_sub_request d) b
    (ld_needs_sync d) (ld_device_thread d) (ld_sync_params d) (ld_handle d)
    (ld_last_client_rc d).

Definition dev_with_needs_sync (b : bool) (d : lrs_dev) : lrs_dev :=
  LrsDev (ld_dss_dev_info d) (ld_lib_dev_addr d) (ld_op_status d) (ld_dev_path d)
    (ld_dss_media_info d) (ld_mnt_path d) (ld_sub_request d) (ld_ongoing_io d)
    b (ld_device_thread d) (ld_sync_params d) (ld_handle d)
    (ld_last_client_rc d).

Definition dev_with_thread (t : thread_info) (d : lrs_dev) : lrs_dev :=
  LrsDev (ld_dss_dev_info d) (ld_lib_dev_addr d) (ld_op_status d) (ld_dev_path d)
    (ld_dss_media_info d) (ld_mnt_path d) (ld_sub_request d) (ld_ongoing_io d)
    (ld_needs_sync d) t (ld_sync_params d) (ld_handle d)
    (ld_last_client_rc d).

Definition dev_with_sync_params (p : sync_params) (d : lrs_dev) : lrs_dev :=
  LrsDev (ld_dss_dev_info d) (ld_lib_dev_addr d) (ld_op_status d) (ld_dev_path d)
    (ld_dss_media_info d) (ld_mnt_path d) (ld_sub_request d) (ld_ongoing_io d)
    (ld_needs_sync d) (ld_device_thread d) p (ld_handle d)
    (ld_last_client_rc d).

Definition dev_with_last_client_rc (rc : Z) (d : lrs_dev) : lrs_dev :=
  LrsDev (ld_dss_dev_info d) (ld_lib_dev_addr d) (ld_op_status d) (ld_dev_path d)
    (ld_dss_media_info d) (ld_mnt_path d) (ld_sub_request d) (ld_ongoing_io d)
    (ld_needs_sync d) (ld_device_thread d) (ld_sync_params d) (ld_handle d)
    rc.

Definition media_with_adm_status (s : rsc_adm_status) (m : media_info) : media_info :=
  MediaInfo (m_name m) s (m_fs_type m) (m_fs_status m) (m_fs_label m)
    (m_nb_obj m) (m_logc_spc_used m) (m_phys_spc_used m) (m_phys_spc_free m)
    (m_lock m).

Definition media_with_fs_status (s : fs_status) (m : media_info) : media_info :=
  MediaInfo (m_name m) (m_adm_status m) (m_fs_type m) s (m_fs_label m)
    (m_nb_obj m) (m_logc_spc_used m) (m_phys_spc_used m) (m_phys_spc_free m)
    (m_lock m).

Definition media_with_fs_label (l : string) (m : media_info) : media_info :=
  MediaInfo (m_name m) (m_adm_status m) (m_fs_type m) (m_fs_status m) l
    (m_nb_obj m) (m_logc_spc_used m) (m_phys_spc_used m) (m_phys_spc_free m)
    (m_lock m).

Definition media_with_nb_obj (n : Z) (m : media_info) : media_info :=
  MediaInfo (m_name m) (m_adm_status m) (m_fs_type m) (m_fs_status m)
    (m_fs_label m) n (m_logc_spc_used m) (m_phys_spc_used m)
    (m_phys_spc_free m) (m_lock m).

Definition media_with_logc_spc_used (n : Z) (m : media_info) : media_info :=
  MediaInfo (m_name m) (m_adm_status m) (m_fs_type m) (m_fs_status m)
    (m_fs_label m) (m_nb_obj m) n (m_phys_spc_used m)
    (m_phys_spc_free m) (m_lock m).

Definition media_with_phys_spc (used free : Z) (m : media_info) : media_info :=
  MediaInfo (m_name m) (m_adm_status m) (m_fs_type m) (m_fs_status m)
    (m_fs_label m) (m_nb_obj m) (m_logc_spc_used m) used free (m_lock m).

(** [pho_lock_clean]. *)
Definition media_lock_clean (m : media_info) : media_info :=
  MediaInfo (m_name m) (m_adm_status m) (m_fs_type m) (m_fs_status m)
    (m_fs_label m) (m_nb_obj m) (m_logc_spc_used m) (m_phys_spc_used m)
    (m_phys_spc_free m) false.

Definition dev_info_with_adm_status (s : rsc_adm_status) (i : dev_info) : dev_info :=
  DevInfo (d_name i) (d_family i) s (d_lock i).

Definition dev_info_lock_clean (i : dev_info) : dev_info :=
  DevInfo (d_name i) (d_family i) (d_adm_status i) false.

(** The medium read through a NULL [ld_dss_media_info].  The C code
    dereferences the pointer without a test in states where the device is
    LOADED or MOUNTED and a medium is set; elsewhere the read is undefined
    and the model reads this value. *)
Definition no_medium : media_info :=
  MediaInfo EmptyString PHO_RSC_ADM_ST_LOCKED PHO_FS_POSIX PHO_FS_STATUS_BLANK
    EmptyString 0 0 0 0 false.

(** The container read through a pointer that is NULL or not in the store:
    undefined in C, this value in the model. *)
Definition no_reqc : req_container :=
  ReqContainer REQ_OTHER ts_zero (ReleaseParams 0 []) (RwallocParams 0 [] None)
    (FormatParams None false EmptyString) 0 0.

(** ** The state monad of the device thread *)

Definition M (A : Type) : Type := world -> A * world.

Definition ret {A} (a : A) : M A := fun w => (a, w).

Definition bind {A B} (m : M A) (k : A -> M B) : M B :=
  fun w => let '(a, w') := m w in k a w'.

Notation "'let!' x ':=' m 'in' k" := (bind m (fun x => k))
  (at level 10, x pattern, m at level 100, k at level 200).
Notation "m ';;' k" := (bind m (fun _ => k))
  (at level 100, k at level 200, right associativity).

Definition get_dev : M lrs_dev := fun w => (w_dev w, w).

Definition modify_dev (f : lrs_dev -> lrs_dev) : M unit :=
  fun w => (tt, World (f (w_dev w)) (w_reqs w) (w_running w) (w_env w) (w_trace w)).

Definition get_running : M bool := fun w => (w_running w, w).

(** An external call: ask the environment and record call and answer. *)
Definition call (c : ext_call) : M ext_result :=
  fun w =>
    let r := w_env w (length (w_trace w)) c in
    (r, World (w_dev w) (w_reqs w) (w_running w) (w_env w)
              (EvCall c r :: w_trace w)).

(** A call of which only the return code is used. *)
Definition call_rc (c : ext_call) : M Z :=
  let! r := call c in ret (res_rc r).

(** [dev->ld_op_status = s], recorded in the trace with the value it
    replaces. *)
Definition set_op_status (s : dev_op_status) : M unit :=
  fun w =>
    (tt, World (dev_with_op_status s (w_dev w)) (w_reqs w) (w_running w)
               (w_env w) (EvOpStatus (ld_op_status (w_dev w)) s :: w_trace w)).

(** Dereference of a request container pointer. *)
Definition reqc_deref (p : option nat) (w : world) : req_container :=
  match p with
  | Some i => default no_reqc (w_reqs w !! i)
  | None => no_reqc
  end.

Definition get_reqc (p : option nat) : M req_container :=
  fun w => (reqc_deref p w, w).

(** Write through a request container pointer. *)
Definition modify_reqc (p : option nat) (f : req_container -> req_container) : M unit :=
  fun w =>
    match p with
    | Some i => (tt, World (w_dev w) (alter f i (w_reqs w)) (w_running w)
                          (w_env w) (w_trace w))
    | None => (tt, w)
    end.

(** [rc ? : rc2]. *)
Definition elvis (rc rc2 : Z) : Z := if rc =? 0 then rc2 else rc.

(** ** Thread state tests ([lrs_thread.h]) *)

Definition thread_is_running (t : thread_info) : bool :=
  bool_decide (th_state t = THREAD_RUNNING).
Definition thread_is_stopping (t : thread_info) : bool :=
  bool_decide (th_state t = THREAD_STOPPING).
Definition thread_is_stopped (t : thread_info) : bool :=
  bool_decide (th_state t = THREAD_STOPPED).

(** ** Wake-up date *)

(** [clock_gettime(CLOCK_REALTIME, &now)]: the return code, [errno] and the
    time read. *)
Definition clock_gettime : M (Z * Z * timespec) :=
  let! r := call ClockGettime in ret (res_rc r, res_errno r, res_time r).

(** [compute_wakeup_date]: return code and [*date] (left untouched, here
    [ts_zero], when the clock cannot be read). *)
Definition compute_wakeup_date : M (Z * timespec) :=
  let! dev := get_dev in
  let oldest := oldest_tosync (ld_sync_params dev) in
  let! (rc, errno, now) := clock_gettime in
  if negb (rc =? 0) then ret (- errno, ts_zero)
  else if (tv_sec oldest =? 0) && (tv_nsec oldest =? 0) then
    ret (0, add_timespec now (sync_time_ms (ld_handle dev)))
  else
    let date := add_timespec oldest (sync_time_ms (ld_handle dev)) in
    let diff := diff_timespec date now in
    if cmp_timespec diff MINSLEEP =? -1 then ret (0, add_timespec MINSLEEP now)
    else ret (0, date).

(** [dev_wait_for_signal]: the deadline is computed, then the thread blocks
    on its condition variable until a signal or the deadline. *)
Definition dev_wait_for_signal : M Z :=
  let! (rc, time) := compute_wakeup_date in
  if negb (rc =? 0) then ret rc
  else call_rc (ThreadSignalTimedWait time).

(** ** Sync policy *)

(** [is_past]: an unreadable clock counts as past. *)
Definition is_past (t : timespec) : M bool :=
  let! (rc, errno, now) := clock_gettime in
  if negb (rc =? 0) then ret true
  else ret (is_older_or_equal t now).

(** [check_needs_sync].  [&&] and [||] evaluate their right operand only
    when needed, so the clock is read only for a non-empty array below the
    request threshold. *)
Definition check_needs_sync : M unit :=
  let! dev := get_dev in
  let handle := ld_handle dev in
  let sp := ld_sync_params dev in
  let len := Z.of_nat (length (tosync_array sp)) in
  let! running := get_running in
  let! b1 := (if 0 <? len then
           if sync_nb_req handle <=? len then ret true
           else
             let! p := is_past (add_timespec (oldest_tosync sp) (sync_time_ms handle)) in
             if p then ret true
             else ret (sync_wsize_kb handle <=? tosync_size sp)
         else ret false) in
  let b2 := b1 || (negb running && (0 <? len)) in
  let b3 := b2 || (thread_is_stopping (ld_device_thread dev) && (0 <? len)) in
  let b4 := b3 || negb (ld_last_client_rc dev =? 0) in
  modify_dev (dev_with_needs_sync b4).

(** ** Responses and request bookkeeping *)

(** [queue_error_response] lives in the scheduler; from the device worker it
    is a call that may itself fail. *)
Definition queue_error_response (rc : Z) (req : option nat) : M Z :=
  call_rc (QueueErrorResponse rc req).

(** The [strdup_safe] loop of [queue_release_response]: stops at the first
    failure. *)
Fixpoint strdup_all (names : list string) : M Z :=
  match names with
  | [] => ret 0
  | n :: rest =>
      let! rc := call_rc (Strdup n) in
      if negb (rc =? 0) then ret rc else strdup_all rest
  end.

(** [queue_release_response]. *)
Definition queue_release_response (req : option nat) : M Z :=
  let! reqc := get_reqc req in
  let! r1 := call_rc Malloc in
  if negb (r1 =? 0) then queue_error_response (- ENOMEM) req else
  let! r2 := call_rc Malloc in
  if negb (r2 =? 0) then queue_error_response (- ENOMEM) req else
  let! r3 := call_rc SrlResponseAlloc in
  if negb (r3 =? 0) then queue_error_response r3 req else
  let! r4 := strdup_all (map ts_name (tosync_media (p_release reqc))) in
  if negb (r4 =? 0) then queue_error_response r4 req else
  call (TsqueuePush RESPONSE_QUEUE (ItemReleaseResp req)) ;;
  ret 0.

(** [is_request_tosync_ended]: no medium of the release is still TODO. *)
Definition is_request_tosync_ended (reqc : req_container) : bool :=
  forallb (fun t => negb (bool_decide (ts_status t = SUB_REQUEST_TODO)))
          (tosync_media (p_release reqc)).

(** [sub_request_free]: [sched_req_free(sub_req->reqc); free(sub_req)].  The
    container leaves the hands of the worker; the model keeps its content in
    the store and records the call. *)
Definition sub_request_free (sr : option sub_request) : M unit :=
  match sr with
  | None => ret tt
  | Some s => call (SchedReqFree (reqc s)) ;; ret tt
  end.

Definition tosync_with_status (s : sub_request_status) (t : tosync_medium) : tosync_medium :=
  TosyncMedium s (ts_name t) (written_size t) (client_rc t).

Definition release_with_rc (rc : Z) (p : release_params) : release_params :=
  ReleaseParams rc (tosync_media p).

Definition release_with_status (i : nat) (s : sub_request_status)
    (p : release_params) : release_params :=
  ReleaseParams (rel_rc p) (alter (tosync_with_status s) i (tosync_media p)).

Definition reqc_with_release (f : release_params -> release_params)
    (r : req_container) : req_container :=
  ReqContainer (rc_kind r) (received_at r) (f (p_release r)) (p_rwalloc r)
    (p_format r) (n_med_ids r) (n_required r).

Definition reqc_with_rwalloc (f : rwalloc_params -> rwalloc_params)
    (r : req_container) : req_container :=
  ReqContainer (rc_kind r) (received_at r) (p_release r) (f (p_rwalloc r))
    (p_format r) (n_med_ids r) (n_required r).

Definition reqc_with_format (f : format_params -> format_params)
    (r : req_container) : req_container :=
  ReqContainer (rc_kind r) (received_at r) (p_release r) (p_rwalloc r)
    (f (p_format r)) (n_med_ids r) (n_required r).

Definition sync_with_array (a : list sub_request) (p : sync_params) : sync_params :=
  SyncParams a (oldest_tosync p) (tosync_size p).

Definition sync_with_oldest (t : timespec) (p : sync_params) : sync_params :=
  SyncParams (tosync_array p) t (tosync_size p).

Definition sync_with_size (s : Z) (p : sync_params) : sync_params :=
  SyncParams (tosync_array p) (oldest_tosync p) s.

Definition sub_request_with_reqc (r : option nat) (s : sub_request) : sub_request :=
  SubRequest r (medium_index s) (failure_on_medium s).

Definition sub_request_with_fom (b : bool) (s : sub_request) : sub_request :=
  SubRequest (reqc s) (medium_index s) b.

(** One turn of the [while (tosync_array->len)] loop of
    [clean_tosync_array], for the sub-request [req] just removed from the
    end of the array. *)
Definition clean_tosync_step (rc : Z) (req : sub_request) (internal_rc : Z) : M Z :=
  let! before := get_reqc (reqc req) in
  let should_send_error :=
    negb (rc =? 0) && (rel_rc (p_release before) =? 0) in
  (if rc =? 0 then
     modify_reqc (reqc req)
       (reqc_with_release (release_with_status (medium_index req) SUB_REQUEST_DONE))
   else
     (if rel_rc (p_release before) =? 0 then
        modify_reqc (reqc req) (reqc_with_release (release_with_rc rc))
      else ret tt) ;;
     modify_reqc (reqc req)
       (reqc_with_release (release_with_status (medium_index req) SUB_REQUEST_ERROR))) ;;
  let! after := get_reqc (reqc req) in
  let is_tosync_ended := is_request_tosync_ended after in
  let! internal_rc :=
    (if should_send_error then
       let! rc2 := queue_error_response rc (reqc req) in
       ret (if negb (rc2 =? 0) then elvis internal_rc rc2 else internal_rc)
     else ret internal_rc) in
  if is_tosync_ended then
    let! internal_rc :=
      (if rel_rc (p_release after) =? 0 then
         let! rc2 := queue_release_response (reqc req) in
         ret (if negb (rc2 =? 0) then elvis internal_rc rc2 else internal_rc)
       else ret internal_rc) in
    sub_request_free (Some req) ;;
    ret internal_rc
  else
    (* req->reqc = NULL: only the last device frees reqc *)
    sub_request_free (Some (sub_request_with_reqc None req)) ;;
    ret internal_rc.

(** The loop of [clean_tosync_array].  [todo] is the array read from its
    end: the head of [todo] is [pdata[len - 1]]. *)
Fixpoint clean_tosync_loop (rc : Z) (todo : list sub_request) (internal_rc : Z) : M Z :=
  match todo with
  | [] => ret internal_rc
  | req :: rest =>
      modify_dev (fun d =>
        dev_with_sync_params (sync_with_array (rev rest) (ld_sync_params d)) d) ;;
      let! internal_rc := clean_tosync_step rc req internal_rc in
      clean_tosync_loop rc rest internal_rc
  end.

(** [clean_tosync_array]. *)
Definition clean_tosync_array (rc : Z) : M Z :=
  let! dev := get_dev in
  let! internal_rc :=
    clean_tosync_loop rc (rev (tosync_array (ld_sync_params dev))) 0 in
  modify_dev (fun d =>
    dev_with_needs_sync false
      (dev_with_sync_params
         (sync_with_oldest ts_zero (sync_with_size 0 (ld_sync_params d))) d)) ;;
  ret internal_rc.

(** [update_oldest_tosync]. *)
Definition update_oldest_tosync (oldest candidate : timespec) : timespec :=
  if ((tv_sec oldest =? 0) && (tv_nsec oldest =? 0))
     || is_older_or_equal candidate oldest
  then candidate else oldest.

(** [tosync_rc]. *)
Definition tosync_rc (reqc : req_container) (index : nat) : Z :=
  match tosync_media (p_release reqc) !! index with
  | Some t => client_rc t
  | None => 0
  end.

Definition size_t_wrap (z : Z) : Z := z mod 2 ^ 64.

(** [push_new_sync_to_device], run by the scheduler thread under the device
    mutex. *)
Definition push_new_sync_to_device (req : option nat) (index : nat) : M Z :=
  let! r := call_rc Malloc in
  if negb (r =? 0) then ret (- ENOMEM) else
  let! reqc := get_reqc req in
  let ws := match tosync_media (p_release reqc) !! index with
            | Some t => written_size t
            | None => 0
            end in
  modify_dev (fun d =>
    let d1 := if negb (tosync_rc reqc index =? 0)
              then dev_with_last_client_rc (tosync_rc reqc index) d else d in
    let sp := ld_sync_params d1 in
    dev_with_sync_params
      (SyncParams (tosync_array sp ++ [SubRequest req index false])
                  (update_oldest_tosync (oldest_tosync sp) (received_at reqc))
                  (size_t_wrap (tosync_size sp + ws))) d1) ;;
  ret 0.

(** [update_queue_oldest_tosync]: called under the device mutex. *)
Definition update_queue_oldest_tosync : M unit :=
  let! dev := get_dev in
  let arr := tosync_array (ld_sync_params dev) in
  match arr with
  | [] =>
      modify_dev (fun d =>
        dev_with_sync_params (sync_with_oldest ts_zero (ld_sync_params d)) d)
  | _ =>
      fun w =>
        let oldest :=
          fold_left (fun o (r : sub_request) =>
                       update_oldest_tosync o (received_at (reqc_deref (reqc r) w)))
                    arr (oldest_tosync (ld_sync_params dev)) in
        modify_dev (fun d =>
          dev_with_sync_params (sync_with_oldest oldest (ld_sync_params d)) d) w
  end.

(** [g_ptr_array_remove_index_fast]: the last element takes the place of the
    removed one. *)
Definition remove_index_fast {A} (i : nat) (l : list A) : list A :=
  match last l with
  | None => l
  | Some x =>
      if (S i =? length l)%nat then removelast l
      else <[i := x]> (removelast l)
  end.

(** The loop of [remove_canceled_sync], for [i] from [n - 1] down to 0. *)
Fixpoint remove_canceled_loop (n : nat) (need_oldest_update : bool) : M bool :=
  match n with
  | O => ret need_oldest_update
  | S i =>
      let! dev := get_dev in
      match tosync_array (ld_sync_params dev) !! i with
      | None => remove_canceled_loop i need_oldest_update
      | Some req_tosync =>
          let! rq := get_reqc (reqc req_tosync) in
          if negb (rel_rc (p_release rq) =? 0) then
            let ws := match tosync_media (p_release rq) !! medium_index req_tosync with
                      | Some t => written_size t
                      | None => 0
                      end in
            modify_dev (fun d =>
              let sp := ld_sync_params d in
              dev_with_sync_params
                (SyncParams (remove_index_fast i (tosync_array sp))
                            (oldest_tosync sp)
                            (size_t_wrap (tosync_size sp - ws))) d) ;;
            modify_reqc (reqc req_tosync)
              (reqc_with_release
                 (release_with_status (medium_index req_tosync) SUB_REQUEST_CANCEL)) ;;
            let! rq' := get_reqc (reqc req_tosync) in
            (if is_request_tosync_ended rq'
             then sub_request_free (Some req_tosync) else ret tt) ;;
            remove_canceled_loop i true
          else remove_canceled_loop i need_oldest_update
      end
  end.

(** [remove_canceled_sync]: remove from tosync_array when an error occurred
    on another device. *)
Definition remove_canceled_sync : M unit :=
  let! dev := get_dev in
  let! need := remove_canceled_loop (length (tosync_array (ld_sync_params dev))) false in
  if need then update_queue_oldest_tosync else ret tt.

(** [medium_sync]. *)
Definition medium_sync (m : media_info) (fsroot : string) : M Z :=
  let! rc := call_rc (GetIoAdapter (m_fs_type m)) in
  if negb (rc =? 0) then ret rc
  else call_rc (IoaMediumSync fsroot).

(** [lrs_dev_media_update]: the C function updates [*media_info] in place
    and pushes it to the DSS; the model returns the code and the updated
    medium. *)
Definition lrs_dev_media_update (m : media_info) (size_written media_rc : Z)
    (fsroot : string) (nb_new_obj : Z) : M (Z * media_info) :=
  let '(m, fields) :=
    if bool_decide (m_fs_status m = PHO_FS_STATUS_EMPTY) && (media_rc =? 0)
    then (media_with_fs_status PHO_FS_STATUS_USED m, [FS_STATUS])
    else (m, []) in
  let! rc2 := call_rc (GetFsAdapter (m_fs_type m)) in
  let! (rc, m, fields) :=
    (if negb (rc2 =? 0) then
       ret (elvis 0 rc2, media_with_adm_status PHO_RSC_ADM_ST_FAILED m,
            fields ++ [ADM_STATUS])
     else
       let! r := call (LdmFsDf fsroot) in
       if negb (res_rc r =? 0) then
         ret (elvis 0 (res_rc r), media_with_adm_status PHO_RSC_ADM_ST_FAILED m,
              fields ++ [ADM_STATUS])
       else
         let m := media_with_phys_spc (spc_used (res_space r))
                                      (spc_avail (res_space r)) m in
         let fields := fields ++ [PHYS_SPC_USED; PHYS_SPC_FREE] in
         if m_phys_spc_free m =? 0 then
           ret (0, media_with_fs_status PHO_FS_STATUS_FULL m, fields ++ [FS_STATUS])
         else ret (0, m, fields)) in
  let '(m, fields) :=
    if negb (media_rc =? 0) then
      (media_with_adm_status PHO_RSC_ADM_ST_FAILED m, fields ++ [ADM_STATUS])
    else
      let '(m, fields) :=
        if negb (nb_new_obj =? 0)
        then (media_with_nb_obj nb_new_obj m, fields ++ [NB_OBJ_ADD])
        else (m, fields) in
      if negb (size_written =? 0)
      then (media_with_logc_spc_used size_written m, fields ++ [LOGC_SPC_USED_ADD])
      else (m, fields) in
  let! rc2 := call_rc (DssMediaSet m fields) in
  ret (if negb (rc2 =? 0) then elvis rc rc2 else rc, m).

(** Write back through [dev->ld_dss_media_info] (nothing to write through a
    NULL pointer). *)
Definition store_loaded_medium (m : media_info) (d : lrs_dev) : lrs_dev :=
  match ld_dss_media_info d with
  | Some _ => dev_with_media_info (Some m) d
  | None => d
  end.

Definition loaded_medium (d : lrs_dev) : media_info :=
  default no_medium (ld_dss_media_info d).

(** [dev_sync]: sync the medium, update it in the DSS, flush
    [tosync_array]. *)
Definition dev_sync : M Z :=
  let! dev := get_dev in
  let sp := ld_sync_params dev in
  let! rc :=
    (if ld_last_client_rc dev =? 0
     then medium_sync (loaded_medium dev) (ld_mnt_path dev)
     else ret (ld_last_client_rc dev)) in
  let! (rc2, m) :=
    lrs_dev_media_update (loaded_medium dev) (tosync_size sp) rc
      (ld_mnt_path dev) (Z.of_nat (length (tosync_array sp))) in
  modify_dev (fun d => dev_with_last_client_rc 0 (store_loaded_medium m d)) ;;
  let rc := if negb (rc2 =? 0) then elvis rc rc2 else rc in
  let! rc2 := clean_tosync_array rc in
  ret (if negb (rc2 =? 0) then elvis rc rc2 else rc).

(** ** Device operations *)

(** [dev_umount]: umount the medium of the device but let it loaded and
    locked. *)
Definition dev_umount : M Z :=
  let! dev := get_dev in
  let! rc := call_rc (GetFsAdapter (m_fs_type (loaded_medium dev))) in
  if negb (rc =? 0) then
    set_op_status PHO_DEV_OP_ST_FAILED ;; ret rc
  else
    let! rc := call_rc (LdmFsUmount (ld_dev_path dev) (ld_mnt_path dev)) in
    let! rc2 := clean_tosync_array rc in
    if negb (rc =? 0) then
      set_op_status PHO_DEV_OP_ST_FAILED ;; ret rc
    else
      set_op_status PHO_DEV_OP_ST_LOADED ;;
      modify_dev (dev_with_mnt_path EmptyString) ;;
      if negb (rc2 =? 0) then
        set_op_status PHO_DEV_OP_ST_FAILED ;; ret rc2
      else ret 0.

(** [dss_medium_release]: the code and the medium, its lock cleaned on
    success. *)
Definition dss_medium_release (m : media_info) : M (Z * media_info) :=
  let! rc := call_rc (DssUnlockMedia m) in
  if negb (rc =? 0) then ret (rc, m)
  else ret (0, media_lock_clean m).

(** [dss_device_release]. *)
Definition dss_device_release (d : dev_info) : M (Z * dev_info) :=
  let! rc := call_rc (DssUnlockDevice d) in
  if negb (rc =? 0) then ret (rc, d)
  else ret (0, dev_info_lock_clean d).

(** [wrap_lib_open]. *)
Definition wrap_lib_open (dev_type : rsc_family) : M Z :=
  match dev_type with
  | PHO_RSC_DIR => call_rc (GetLibAdapter PHO_LIB_DUMMY)
  | _ =>
      let! rc :=
        (match dev_type with
         | PHO_RSC_TAPE => call_rc (GetLibAdapter PHO_LIB_SCSI)
         | _ => call_rc (GetLibAdapter PHO_LIB_RADOS)
         end) in
      if negb (rc =? 0) then ret rc
      else
        let! lib_dev := call_rc CfgGetLibDevice in
        if negb (lib_dev =? 0) then ret rc
        else call_rc LdmLibOpen
  end.

(** [dev_unload]. *)
Definition dev_unload : M Z :=
  let! dev := get_dev in
  let! rc := wrap_lib_open (d_family (ld_dss_dev_info dev)) in
  if negb (rc =? 0) then
    set_op_status PHO_DEV_OP_ST_FAILED ;; ret rc
  else
    let! rc := call_rc (LdmLibMediaMove (ld_lib_dev_addr dev) MED_LOC_UNKNOWN) in
    let! medium_to_unlock_free :=
      (if rc =? 0 then
         set_op_status PHO_DEV_OP_ST_EMPTY ;;
         modify_dev (dev_with_media_info None) ;;
         ret (ld_dss_media_info dev)
       else ret None) in
    let! rc2 := call_rc LdmLibClose in
    let rc := if negb (rc2 =? 0) then elvis rc rc2 else rc in
    if rc =? 0 then
      let! (rc, _) := dss_medium_release (default no_medium medium_to_unlock_free) in
      ret rc
    else
      set_op_status PHO_DEV_OP_ST_FAILED ;; ret rc.

(** [dev_empty]: if a medium is into dev, umount, unload and release its
    locks. *)
Definition dev_empty : M Z :=
  let! dev := get_dev in
  if bool_decide (ld_op_status dev = PHO_DEV_OP_ST_EMPTY) then ret 0
  else
    let! rc :=
      (if bool_decide (ld_op_status dev = PHO_DEV_OP_ST_MOUNTED)
       then dev_umount else ret 0) in
    if negb (rc =? 0) then ret rc
    else
      let! dev := get_dev in
      if bool_decide (ld_op_status dev = PHO_DEV_OP_ST_LOADED) then dev_unload
      else ret (- EINVAL).

(** [dss_set_medium_to_failed]. *)
Definition dss_set_medium_to_failed (m : media_info) : M (Z * media_info) :=
  let m := media_with_adm_status PHO_RSC_ADM_ST_FAILED m in
  let! rc := call_rc (DssMediaSet m [ADM_STATUS]) in
  ret (rc, m).

(** [fail_release_free_medium]: the value left in [*medium], NULL when the
    medium was freed. *)
Definition fail_release_free_medium (m : media_info) (free_medium : bool)
    : M (option media_info) :=
  let! (rc, m) := dss_set_medium_to_failed m in
  let! m :=
    (if negb (rc =? 0) then
       (* we keep the medium locked because we can't set it to failed *)
       ret m
     else
       let! (_, m) := dss_medium_release m in ret m) in
  if free_medium then ret None else ret (Some m).

(** What [dev_load] hands back: its code, the three out flags and the value
    left in [*medium]. *)
Record load_result := LoadResult {
  lr_rc : Z;
  lr_failure_on_dev : bool;
  lr_failure_on_medium : bool;
  lr_can_retry : bool;
  lr_medium : option media_info
}.

(** The [out_close] tail of [dev_load]. *)
Definition dev_load_out_close (rc : Z) (failure_on_dev failure_on_medium
    can_retry : bool) (medium : option media_info) : M load_result :=
  let! rc2 := call_rc LdmLibClose in
  if negb (rc2 =? 0) then
    set_op_status PHO_DEV_OP_ST_FAILED ;;
    ret (LoadResult (elvis rc rc2) true failure_on_medium can_retry medium)
  else
    ret (LoadResult rc failure_on_dev failure_on_medium can_retry medium).

(** [dev_load]. *)
Definition dev_load (m : media_info) (release_medium_on_dev_only_failure
    free_medium : bool) : M load_result :=
  let! dev := get_dev in
  let! rc := wrap_lib_open (d_family (ld_dss_dev_info dev)) in
  if negb (rc =? 0) then
    set_op_status PHO_DEV_OP_ST_FAILED ;;
    let! m :=
      (if release_medium_on_dev_only_failure then
         let! (_, m) := dss_medium_release m in ret m
       else ret m) in
    ret (LoadResult rc true false false (Some m))
  else
    let! lk := call (LdmLibMediaLookup (m_name m)) in
    if negb (res_rc lk =? 0) then
      let! kept := fail_release_free_medium m free_medium in
      dev_load_out_close (res_rc lk) false true false kept
    else
      let medium_addr := res_addr lk in
      let! rc := call_rc (LdmLibMediaMove medium_addr (ld_lib_dev_addr dev)) in
      if (rc =? - EINVAL)
         && bool_decide (medium_addr = MED_LOC_DRIVE)
         && bool_decide (ld_lib_dev_addr dev = MED_LOC_DRIVE)
      then
        dev_load_out_close (- EBUSY) false false true (Some m)
      else if negb (rc =? 0) then
        set_op_status PHO_DEV_OP_ST_FAILED ;;
        let! kept := fail_release_free_medium m free_medium in
        dev_load_out_close rc true true false kept
      else
        set_op_status PHO_DEV_OP_ST_LOADED ;;
        modify_dev (dev_with_media_info (Some m)) ;;
        dev_load_out_close 0 false false false
          (if free_medium then None else Some m).

(** ** Format requests *)

(** [dev_format]: format the loaded medium and push its new state to the
    DSS. *)
Definition dev_format (unlock : bool) : M Z :=
  let! dev := get_dev in
  let medium := loaded_medium dev in
  let! r := call (LdmFsFormat (ld_dev_path dev) (m_name medium)) in
  if negb (res_rc r =? 0) then ret (res_rc r)
  else
    (* the media ID is used as filesystem label *)
    let m := media_with_fs_label (m_name medium) medium in
    let m := media_with_logc_spc_used 0 (media_with_nb_obj 0 m) in
    let m := media_with_phys_spc (spc_used (res_space r)) (spc_avail (res_space r)) m in
    let m := media_with_fs_status PHO_FS_STATUS_EMPTY m in
    let fields :=
      [FS_LABEL; NB_OBJ; LOGC_SPC_USED; PHYS_SPC_USED; PHYS_SPC_FREE; FS_STATUS] in
    let '(m, fields) :=
      if unlock
      then (media_with_adm_status PHO_RSC_ADM_ST_UNLOCKED m, fields ++ [ADM_STATUS])
      else (m, fields) in
    modify_dev (store_loaded_medium m) ;;
    call_rc (DssMediaSet m fields).

(** [queue_format_response]. *)
Definition queue_format_response (req : option nat) : M Z :=
  let! reqc := get_reqc req in
  let! r1 := call_rc Malloc in
  if negb (r1 =? 0) then queue_error_response (- ENOMEM) req else
  let! r2 := call_rc Malloc in
  if negb (r2 =? 0) then queue_error_response (- ENOMEM) req else
  let! r3 := call_rc SrlResponseAlloc in
  if negb (r3 =? 0) then queue_error_response r3 req else
  let! r4 := call_rc (Strdup (fmt_med_name (p_format reqc))) in
  if negb (r4 =? 0) then queue_error_response r4 req else
  call (TsqueuePush RESPONSE_QUEUE (ItemFormatResp req)) ;;
  ret 0.

(** The sub-request read through a NULL [ld_sub_request] (undefined in C). *)
Definition no_sub_request : sub_request := SubRequest None 0 false.

Definition pending_sub_request (d : lrs_dev) : sub_request :=
  default no_sub_request (ld_sub_request d).

(** Write through [dev->ld_sub_request]. *)
Definition modify_sub_request (f : sub_request -> sub_request) : M unit :=
  modify_dev (fun d => dev_with_sub_request (f <$> ld_sub_request d) d).

Definition format_with_medium (m : option media_info) (p : format_params) : format_params :=
  FormatParams m (fmt_unlock p) (fmt_med_name p).

(** The [out] tail of [dev_handle_format]. *)
Definition dev_handle_format_out (rc : Z) (medium_to_format : option media_info) : M Z :=
  let! dev := get_dev in
  let subreq := ld_sub_request dev in
  modify_dev (dev_with_sub_request None) ;;
  call (FormatMediumRemove medium_to_format) ;;
  sub_request_free subreq ;;
  ret rc.

(** The [out_response] tail of [dev_handle_format]. *)
Definition dev_handle_format_out_response (rc : Z) (req : option nat)
    (medium_to_format : option media_info) : M Z :=
  let! rc :=
    (if negb (rc =? 0) then
       queue_error_response rc req ;; ret rc
     else queue_format_response req) in
  dev_handle_format_out rc medium_to_format.

(** [dev_handle_format]. *)
Definition dev_handle_format : M Z :=
  let! dev := get_dev in
  let req := reqc (pending_sub_request dev) in
  let! rq := get_reqc req in
  let medium_to_format := medium_to_format (p_format rq) in
  if bool_decide (ld_op_status dev = PHO_DEV_OP_ST_LOADED)
     && String.eqb (m_name (loaded_medium dev))
                   (m_name (default no_medium medium_to_format))
  then
    (* medium to format already loaded *)
    let! rc := dev_format (fmt_unlock (p_format rq)) in
    dev_handle_format_out_response rc req medium_to_format
  else
    let! rc := dev_empty in
    if negb (rc =? 0) then
      call (TsqueuePush SCHED_REQ_QUEUE (ItemReqc req)) ;;
      modify_sub_request (sub_request_with_reqc None) ;;
      dev_handle_format_out rc medium_to_format
    else
      let! lr := dev_load (default no_medium medium_to_format) true false in
      modify_sub_request (sub_request_with_fom (lr_failure_on_medium lr)) ;;
      if (lr_rc lr =? - EBUSY) && lr_can_retry lr then
        (* trying to load a busy medium to format, try again later *)
        ret 0
      else
        modify_reqc req (reqc_with_format (format_with_medium None)) ;;
        if negb (lr_rc lr =? 0) then
          if lr_failure_on_dev lr then
            dev_handle_format_out_response (lr_rc lr) req (lr_medium lr)
          else
            let! rc := queue_error_response (lr_rc lr) req in
            dev_handle_format_out rc (lr_medium lr)
        else
          let! rc := dev_format (fmt_unlock (p_format rq)) in
          dev_handle_format_out_response rc req (lr_medium lr).

(** ** Read and write allocations *)

Definition pho_request_is_format (r : req_container) : bool :=
  bool_decide (rc_kind r = REQ_FORMAT).
Definition pho_request_is_read (r : req_container) : bool :=
  bool_decide (rc_kind r = REQ_READ).
Definition pho_request_is_write (r : req_container) : bool :=
  bool_decide (rc_kind r = REQ_WRITE).

(** Modelled from the spec: [is_rwalloc_ended] belongs to the scheduler
    sources, which are not at hand.  The data model of the spec says a
    parent completes only when every sub-request has a terminal status, here
    as its twin [is_request_tosync_ended] tests it: no medium is still
    TODO. *)
Definition is_rwalloc_ended (reqc : req_container) : bool :=
  forallb (fun t => negb (bool_decide (rw_status t = SUB_REQUEST_TODO)))
          (rw_media (p_rwalloc reqc)).

Definition rwalloc_with_rc (rc : Z) (p : rwalloc_params) : rwalloc_params :=
  RwallocParams rc (rw_media p) (rw_respc p).

Definition rwalloc_with_medium (i : nat) (f : rwalloc_medium -> rwalloc_medium)
    (p : rwalloc_params) : rwalloc_params :=
  RwallocParams (rw_rc p) (alter f i (rw_media p)) (rw_respc p).

Definition rwalloc_with_respc (r : option (list (option resp_elt)))
    (p : rwalloc_params) : rwalloc_params :=
  RwallocParams (rw_rc p) (rw_media p) r.

Definition rwmedium_with_status (s : sub_request_status) (m : rwalloc_medium) : rwalloc_medium :=
  RwallocMedium s (alloc_medium m).

Definition rwmedium_with_medium (a : option media_info) (m : rwalloc_medium) : rwalloc_medium :=
  RwallocMedium (rw_status m) a.

(** Modelled from the spec: [rwalloc_cancel_DONE_devices] belongs to the
    scheduler sources, which are not at hand.  The spec says the failing
    worker cancels the sibling sub-requests that are DONE; what it does to
    the sibling devices is outside this thread and is left to the call. *)
Definition rwalloc_cancel_DONE_devices (req : option nat) : M unit :=
  call (RwallocCancelDoneDevices req) ;;
  modify_reqc req
    (reqc_with_rwalloc (fun p =>
       RwallocParams (rw_rc p)
         (map (fun m => if bool_decide (rw_status m = SUB_REQUEST_DONE)
                        then rwmedium_with_status SUB_REQUEST_CANCEL m else m)
              (rw_media p))
         (rw_respc p))).

(** [locked_cancel_rwalloc_on_error]: (canceled, ended). *)
Definition locked_cancel_rwalloc_on_error (sr : sub_request) : M (bool * bool) :=
  let! rq := get_reqc (reqc sr) in
  if rw_rc (p_rwalloc rq) =? 0 then ret (false, false)
  else
    modify_reqc (reqc sr)
      (reqc_with_rwalloc
         (rwalloc_with_medium (medium_index sr)
            (fun m => rwmedium_with_medium None
                        (rwmedium_with_status SUB_REQUEST_CANCEL m)))) ;;
    let! rq' := get_reqc (reqc sr) in
    ret (true, is_rwalloc_ended rq').

(** [cancel_subrequest_on_error], on the sub-request [dev->ld_sub_request]
    points to (both callers pass that pointer). *)
Definition cancel_subrequest_on_error : M bool :=
  let! dev := get_dev in
  let sr := pending_sub_request dev in
  let! rq := get_reqc (reqc sr) in
  if pho_request_is_format rq then ret false
  else
    let! (canceled, ended) := locked_cancel_rwalloc_on_error sr in
    if canceled then
      (if ended then call (SchedReqFree (reqc sr)) ;; ret tt else ret tt) ;;
      modify_sub_request (sub_request_with_reqc None) ;;
      ret true
    else ret false.

(** [fill_rwalloc_resp_container].  A failed [strdup] gives [-errno]; the
    fields the C code had already written in the element are then of no
    use to anyone and the model leaves the element as it was. *)
Definition fill_rwalloc_resp_container (sr : sub_request) : M Z :=
  let! dev := get_dev in
  let! rq := get_reqc (reqc sr) in
  let m := loaded_medium dev in
  let! r1 := call (Strdup (ld_mnt_path dev)) in
  if negb (res_rc r1 =? 0) then ret (- res_errno r1)
  else
    let! r2 := call (Strdup (m_name m)) in
    if negb (res_rc r2 =? 0) then ret (- res_errno r2)
    else
      let elt :=
        RespElt (m_fs_type m) (ld_mnt_path dev) (m_name m)
                (if pho_request_is_read rq then 0 else m_phys_spc_free m) in
      modify_reqc (reqc sr)
        (reqc_with_rwalloc (fun p =>
           rwalloc_with_respc
             ((fun l => <[medium_index sr := Some elt]> l) <$> rw_respc p) p)) ;;
      ret 0.

(** [rwalloc_can_be_requeued]. *)
Definition rwalloc_can_be_requeued (sr : sub_request) (rq : req_container) : bool :=
  if pho_request_is_write rq then true
  else if negb (failure_on_medium sr) then true
  else if n_required rq <? n_med_ids rq then true
  else false.

(** The [out_free] tail of [handle_rwalloc_sub_request_result]. *)
Definition rwalloc_result_out_free (req : option nat) (index : nat)
    (free_medium ended : bool) : M unit :=
  (if free_medium then
     modify_reqc req
       (reqc_with_rwalloc (rwalloc_with_medium index (rwmedium_with_medium None)))
   else ret tt) ;;
  if ended then
    call (SchedReqFree req) ;;
    modify_sub_request (sub_request_with_reqc None)
  else ret tt.

(** The [try_send_response] tail of [handle_rwalloc_sub_request_result]. *)
Definition rwalloc_result_try_send (req : option nat) (index : nat)
    (sub_request_rc : Z) : M unit :=
  let! rq := get_reqc req in
  let ended := is_rwalloc_ended rq in
  (if (sub_request_rc =? 0) && ended then
     call (TsqueuePush RESPONSE_QUEUE
             (ItemRwallocResp req (default [] (rw_respc (p_rwalloc rq))))) ;;
     modify_reqc req (reqc_with_rwalloc (rwalloc_with_respc None))
   else ret tt) ;;
  rwalloc_result_out_free req index true ended.

(** [handle_rwalloc_sub_request_result], on the sub-request
    [dev->ld_sub_request] points to: (rc, sub_request_requeued, canceled). *)
Definition handle_rwalloc_sub_request_result (sub_request_rc : Z)
    : M (Z * bool * bool) :=
  let! dev := get_dev in
  let sr := pending_sub_request dev in
  let req := reqc sr in
  let index := medium_index sr in
  let! (canceled, ended) := locked_cancel_rwalloc_on_error sr in
  if canceled then
    rwalloc_result_out_free req index true ended ;;
    ret (0, false, true)
  else
    let! (rc, sub_request_rc, done) :=
      (if sub_request_rc =? 0 then
         modify_reqc req
           (reqc_with_rwalloc
              (rwalloc_with_medium index (rwmedium_with_status SUB_REQUEST_DONE))) ;;
         let! rc := fill_rwalloc_resp_container sr in
         if rc =? 0 then ret (0, 0, true)
         else
           modify_reqc req
             (reqc_with_rwalloc
                (rwalloc_with_medium index (rwmedium_with_status SUB_REQUEST_TODO))) ;;
           ret (rc, rc, false)
       else ret (0, sub_request_rc, false)) in
    if done then
      rwalloc_result_try_send req index 0 ;;
      ret (rc, false, false)
    else
      let! rq := get_reqc req in
      if rwalloc_can_be_requeued sr rq then
        (* requeue failed request in the scheduler *)
        call (TsqueuePush SCHED_RETRY_QUEUE (ItemSubRequest sr)) ;;
        rwalloc_result_out_free req index (failure_on_medium sr) false ;;
        ret (rc, true, false)
      else
        (* first fatal error on rwalloc *)
        modify_reqc req (reqc_with_rwalloc (rwalloc_with_rc sub_request_rc)) ;;
        modify_reqc req
          (reqc_with_rwalloc
             (rwalloc_with_medium index (rwmedium_with_status SUB_REQUEST_ERROR))) ;;
        let! rc := queue_error_response sub_request_rc req in
        rwalloc_cancel_DONE_devices req ;;
        rwalloc_result_try_send req index sub_request_rc ;;
        ret (rc, false, false).

(** [dev_mount]: mount the loaded medium of the device. *)
Definition dev_mount : M Z :=
  let! dev := get_dev in
  let! rc := call_rc (GetFsAdapter (m_fs_type (loaded_medium dev))) in
  if negb (rc =? 0) then ret rc
  else
    let! r := call (LdmFsMounted (ld_dev_path dev)) in
    if res_rc r =? 0 then
      modify_dev (dev_with_mnt_path (res_str r)) ;;
      set_op_status PHO_DEV_OP_ST_MOUNTED ;;
      ret 0
    else
      let! id := call (Basename (ld_dev_path dev)) in
      if negb (res_rc id =? 0) then ret (- EINVAL)
      else
        let! mnt_root := call (MountPoint (res_str id)) in
        if negb (res_rc mnt_root =? 0) then ret (- ENOMEM)
        else
          let! rc := call_rc (LdmFsMount (ld_dev_path dev) (res_str mnt_root)
                                         (m_fs_label (loaded_medium dev))) in
          if negb (rc =? 0) then ret rc
          else
            set_op_status PHO_DEV_OP_ST_MOUNTED ;;
            modify_dev (dev_with_mnt_path (res_str mnt_root)) ;;
            ret 0.

(** [dev_mount_is_writable].  The function returns [bool]: the error codes
    of its two failure exits are non-zero and read as true. *)
Definition dev_mount_is_writable (fs_root : string) (t : fs_type) : M bool :=
  let! rc := call_rc (GetFsAdapter t) in
  if negb (rc =? 0) then ret true
  else
    let! r := call (LdmFsDf fs_root) in
    if negb (res_rc r =? 0) then ret true
    else ret (Z.land (spc_flags (res_space r)) PHO_FS_READONLY =? 0).

(** The [out_free] tail of [dev_handle_read_write]. *)
Definition dev_handle_read_write_out_free (rc : Z) (io_ended
    sub_request_requeued failure_on_device : bool) : M Z :=
  (if negb io_ended && negb sub_request_requeued
   then modify_dev (dev_with_ongoing_io true) else ret tt) ;;
  let! dev := get_dev in
  let sub_request := ld_sub_request dev in
  modify_dev (dev_with_sub_request None) ;;
  (if negb sub_request_requeued
   then sub_request_free (sub_request_with_reqc None <$> sub_request)
   else ret tt) ;;
  if negb failure_on_device then ret 0 else ret rc.

(** The [alloc_result] tail of [dev_handle_read_write]. *)
Definition dev_handle_read_write_alloc_result (rc : Z) (io_ended
    failure_on_device : bool) : M Z :=
  let! (rc2, sub_request_requeued, cancel) :=
    handle_rwalloc_sub_request_result rc in
  let io_ended := io_ended || cancel in
  let '(failure_on_device, rc) :=
    if negb (rc2 =? 0) && negb failure_on_device then (true, rc2)
    else (failure_on_device, rc) in
  dev_handle_read_write_out_free rc io_ended sub_request_requeued
    failure_on_device.

(** [dev_handle_read_write] once [dev_mount] has succeeded: the read-only
    test for write requests, then the [alloc_result] tail. *)
Definition dev_handle_read_write_mounted : M Z :=
  let! dev := get_dev in
  let! rq := get_reqc (reqc (pending_sub_request dev)) in
  let! read_only :=
    (if pho_request_is_write rq then
       let! writable := dev_mount_is_writable (ld_mnt_path dev)
                          (m_fs_type (loaded_medium dev)) in
       ret (negb writable)
     else ret false) in
  if read_only then
    (* media OK but mounted R/O, marking full and retrying *)
    modify_sub_request (sub_request_with_fom true) ;;
    let m := media_with_fs_status PHO_FS_STATUS_FULL (loaded_medium dev) in
    modify_dev (store_loaded_medium m) ;;
    let! rc2 := call_rc (DssMediaSet m [FS_STATUS]) in
    if negb (rc2 =? 0) then ret rc2
    else dev_handle_read_write_alloc_result (- ENOSPC) true false
  else dev_handle_read_write_alloc_result 0 false false.

(** [dev_handle_read_write] from its [mount] label on. *)
Definition dev_handle_read_write_mount : M Z :=
  let! rc := dev_mount in
  if negb (rc =? 0) then
    set_op_status PHO_DEV_OP_ST_FAILED ;;
    modify_sub_request (sub_request_with_fom true) ;;
    (* set the medium to failed early to be sure to not reuse it by sched *)
    let! dev := get_dev in
    let! kept := fail_release_free_medium (loaded_medium dev) true in
    modify_dev (dev_with_media_info kept) ;;
    dev_handle_read_write_alloc_result rc true true
  else dev_handle_read_write_mounted.

(** [dev_handle_read_write]. *)
Definition dev_handle_read_write : M Z :=
  let! canceled := cancel_subrequest_on_error in
  if canceled then dev_handle_read_write_out_free 0 true false false
  else
    let! dev := get_dev in
    let sr := pending_sub_request dev in
    let! rq := get_reqc (reqc sr) in
    let medium_to_alloc :=
      (rw_media (p_rwalloc rq) !! medium_index sr) ≫= alloc_medium in
    match medium_to_alloc with
    | None =>
        (* using current medium *)
        if bool_decide (ld_op_status dev = PHO_DEV_OP_ST_MOUNTED) then
          dev_handle_read_write_alloc_result 0 false false
        else if bool_decide (ld_op_status dev = PHO_DEV_OP_ST_LOADED) then
          dev_handle_read_write_mount
        else
          modify_sub_request (sub_request_with_fom true) ;;
          dev_handle_read_write_alloc_result (- EINVAL) true false
    | Some m =>
        let! rc := dev_empty in
        if negb (rc =? 0) then
          dev_handle_read_write_alloc_result rc true true
        else
          let! lr := dev_load m false true in
          modify_sub_request (sub_request_with_fom (lr_failure_on_medium lr)) ;;
          if (lr_rc lr =? - EBUSY) && lr_can_retry lr then
            (* trying to load a busy medium, try again later *)
            ret 0
          else
            (if (lr_rc lr =? 0) || lr_failure_on_medium lr then
               modify_reqc (reqc sr)
                 (reqc_with_rwalloc
                    (rwalloc_with_medium (medium_index sr)
                       (rwmedium_with_medium None)))
             else ret tt) ;;
            if negb (lr_rc lr =? 0) then
              dev_handle_read_write_alloc_result (lr_rc lr) true
                (lr_failure_on_dev lr)
            else dev_handle_read_write_mount
    end.

(** ** End of the device thread *)

Definition thread_with_state (s : thread_state) (t : thread_info) : thread_info :=
  ThreadInfo s (th_status t).

Definition thread_with_status (rc : Z) (t : thread_info) : thread_info :=
  ThreadInfo (th_state t) rc.

(** [device->ld_device_thread.status = rc]. *)
Definition set_thread_status (rc : Z) : M unit :=
  modify_dev (fun d => dev_with_thread (thread_with_status rc (ld_device_thread d)) d).

(** [cancel_pending_format]: manage a format request at device thread
    end. *)
Definition cancel_pending_format : M unit :=
  let! dev := get_dev in
  match ld_sub_request dev with
  | None => ret tt
  | Some sr =>
      let format_request := reqc sr in
      let! rq := get_reqc format_request in
      (if negb (th_status (ld_device_thread dev) =? 0)
          && bool_decide (medium_to_format (p_format rq) = None)
       then
         (* the medium has been transfered to the device *)
         call (FormatMediumRemove (ld_dss_media_info dev)) ;;
         queue_error_response (th_status (ld_device_thread dev)) format_request ;;
         sub_request_free (Some sr)
       else
         let! rc :=
           (match medium_to_format (p_format rq) with
            | Some m =>
                call (FormatMediumRemove (Some m)) ;;
                let! (rc, m) := dss_medium_release m in
                let! rc :=
                  (if negb (rc =? 0) then
                     call_rc (DssMediaSet
                                (media_with_adm_status PHO_RSC_ADM_ST_FAILED m)
                                [ADM_STATUS])
                   else ret rc) in
                modify_reqc format_request
                  (reqc_with_format (format_with_medium None)) ;;
                ret rc
            | None =>
                call (FormatMediumRemove (ld_dss_media_info dev)) ;;
                ret 0
            end) in
         if rc =? 0 then
           call (TsqueuePush SCHED_REQ_QUEUE (ItemReqc format_request)) ;;
           ret tt
         else
           queue_error_response rc format_request ;;
           sub_request_free (Some sr)) ;;
      modify_dev (dev_with_sub_request None)
  end.

(** [dev_thread_end_mounted_medium]: manage a mounted medium at device
    thread end. *)
Definition dev_thread_end_mounted_medium : M unit :=
  let! dev := get_dev in
  if negb (bool_decide (ld_op_status dev = PHO_DEV_OP_ST_MOUNTED)) then ret tt
  else
    (if th_status (ld_device_thread dev) =? 0 then
       let! rc := dev_umount in
       if negb (rc =? 0) then set_thread_status rc else ret tt
     else ret tt) ;;
    let! dev := get_dev in
    match ld_dss_media_info dev with
    | Some m =>
        if negb (th_status (ld_device_thread dev) =? 0) then
          let! kept := fail_release_free_medium m true in
          modify_dev (dev_with_media_info kept)
        else ret tt
    | None => ret tt
    end.

(** [dev_thread_end_loaded_medium]: manage a loaded medium at device thread
    end. *)
Definition dev_thread_end_loaded_medium : M unit :=
  let! dev := get_dev in
  if negb (bool_decide (ld_op_status dev = PHO_DEV_OP_ST_LOADED)) then ret tt
  else
    (if th_status (ld_device_thread dev) =? 0 then
       let! (rc, m) := dss_medium_release (loaded_medium dev) in
       if negb (rc =? 0) then set_thread_status rc
       else modify_dev (dev_with_media_info None)
     else ret tt) ;;
    let! dev := get_dev in
    match ld_dss_media_info dev with
    | Some m =>
        if negb (th_status (ld_device_thread dev) =? 0) then
          let! kept := fail_release_free_medium m true in
          modify_dev (dev_with_media_info kept)
        else modify_dev (dev_with_media_info None)
    | None => modify_dev (dev_with_media_info None)
    end.

(** [dev_thread_end_device]: manage device and tosync_array at device thread
    end. *)
Definition dev_thread_end_device : M unit :=
  let! dev := get_dev in
  (if th_status (ld_device_thread dev) =? 0 then
     let! (rc, i) := dss_device_release (ld_dss_dev_info dev) in
     modify_dev (dev_with_dev_info i) ;;
     if negb (rc =? 0) then set_thread_status rc else ret tt
   else ret tt) ;;
  let! dev := get_dev in
  (if negb (th_status (ld_device_thread dev) =? 0) then
     clean_tosync_array (th_status (ld_device_thread dev)) ;;
     set_op_status PHO_DEV_OP_ST_FAILED ;;
     let i := dev_info_with_adm_status PHO_RSC_ADM_ST_FAILED (ld_dss_dev_info dev) in
     modify_dev (dev_with_dev_info i) ;;
     let! rc := call_rc (DssDeviceUpdateAdmStatus i) in
     if negb (rc =? 0) then
       (* we don't release the corresponding DSS lock *)
       ret tt
     else
       let! (_, i) := dss_device_release i in
       modify_dev (dev_with_dev_info i)
   else ret tt) ;;
  modify_dev (dev_with_ongoing_io false).

(** [dev_thread_end]. *)
Definition dev_thread_end : M unit :=
  let! dev := get_dev in
  (* prevent any new scheduled request to this device *)
  (if thread_is_running (ld_device_thread dev) then
     modify_dev (fun d =>
       dev_with_thread (thread_with_state THREAD_STOPPING (ld_device_thread d)) d)
   else ret tt) ;;
  cancel_pending_format ;;
  dev_thread_end_mounted_medium ;;
  dev_thread_end_loaded_medium ;;
  dev_thread_end_device.

(** ** Main loop of the device thread *)

(** The body of the [while] loop of [lrs_dev_thread]; true when the body
    leaves through [end_thread] after a fatal error, whose code it has
    stored in the thread status. *)
Definition lrs_dev_thread_body : M bool :=
  let! dev := get_dev in
  (match ld_sub_request dev with
   | Some _ =>
       let! canceled := cancel_subrequest_on_error in
       if canceled then
         let! dev := get_dev in
         sub_request_free (ld_sub_request dev) ;;
         modify_dev (dev_with_sub_request None)
       else ret tt
   | None => ret tt
   end) ;;
  remove_canceled_sync ;;
  let! dev := get_dev in
  (if negb (ld_needs_sync dev) then check_needs_sync else ret tt) ;;
  let! dev := get_dev in
  (if thread_is_stopping (ld_device_thread dev)
      && negb (ld_ongoing_io dev)
      && bool_decide (ld_sub_request dev = None :> option sub_request)
      && (length (tosync_array (ld_sync_params dev)) =? 0)%nat
   then
     modify_dev (fun d =>
       dev_with_thread (thread_with_state THREAD_STOPPED (ld_device_thread d)) d)
   else ret tt) ;;
  let! dev := get_dev in
  let! rc :=
    (if negb (ld_ongoing_io dev) then
       let! rc := (if ld_needs_sync dev then dev_sync else ret 0) in
       if negb (rc =? 0) then ret rc
       else
         let! dev := get_dev in
         match ld_sub_request dev with
         | Some sr =>
             let! rq := get_reqc (reqc sr) in
             if pho_request_is_format rq then dev_handle_format
             else if pho_request_is_read rq || pho_request_is_write rq
             then dev_handle_read_write
             else ret (- EINVAL)
         | None => ret 0
         end
     else ret 0) in
  if negb (rc =? 0) then set_thread_status rc ;; ret true
  else
    let! dev := get_dev in
    if negb (thread_is_stopped (ld_device_thread dev)) then
      let! rc := dev_wait_for_signal in
      if rc <? 0 then set_thread_status rc ;; ret true
      else ret false
    else ret false.

(** One turn of [lrs_dev_thread]: the loop test, then the body; the thread
    runs [dev_thread_end] when it leaves the loop.  True when the thread has
    ended. *)
Definition lrs_dev_thread_turn : M bool :=
  let! dev := get_dev in
  if thread_is_stopped (ld_device_thread dev) then
    dev_thread_end ;; ret true
  else
    let! fatal := lrs_dev_thread_body in
    if fatal then dev_thread_end ;; ret true
    else ret false.

(** * Vocabulary of the properties *)

(** The answer the clock gives at the next call of a world. *)
Definition clock_now (w : world) : ext_result :=
  w_env w (length (w_trace w)) ClockGettime.


(** The wake-up deadline as the specification words it:
    max(now + 10 ms, oldest_tosync + sync_time), never before now + 10 ms. *)
Definition wakeup_deadline_as_specified (w : world) : Prop :=
  let dev := w_dev w in
  let now := res_time (clock_now w) in
  let date := snd (fst (compute_wakeup_date w)) in
  ts_ns date =
    Z.max (ts_ns now + ts_ns MINSLEEP)
          (ts_ns (oldest_tosync (ld_sync_params dev))
           + ts_ns (sync_time_ms (ld_handle dev)))
  /\ ts_ns now + ts_ns MINSLEEP <= ts_ns date.

(** ** Sample worlds *)

Definition ok_result : ext_result :=
  ExtResult 0 0 ts_zero MED_LOC_SLOT (FsSpace 0 0 0) EmptyString.

(** An environment in which every call succeeds and the clock reads
    [now]. *)
Definition env_ok (now : timespec) : oracle :=
  fun _ c =>
    match c with
    | ClockGettime => ExtResult 0 0 now MED_LOC_SLOT (FsSpace 0 0 0) EmptyString
    | LdmFsDf _ => ExtResult 0 0 ts_zero MED_LOC_SLOT (FsSpace 10 90 0) EmptyString
    | _ => ok_result
    end.

Definition sample_medium : media_info :=
  MediaInfo "P00001L5" PHO_RSC_ADM_ST_UNLOCKED PHO_FS_LTFS PHO_FS_STATUS_EMPTY
    "P00001L5" 0 0 0 100 true.

Definition sample_dev_info : dev_info :=
  DevInfo "drive0" PHO_RSC_TAPE PHO_RSC_ADM_ST_UNLOCKED true.

(** A device with nothing pending, thresholds: 1 ms, 5 requests, 1 MiB. *)
Definition sample_dev (st : dev_op_status) (m : option media_info) : lrs_dev :=
  LrsDev sample_dev_info MED_LOC_DRIVE st "/dev/st0" m
    (if bool_decide (st = PHO_DEV_OP_ST_MOUNTED) then "/mnt/phobos-st0" else "")
    None false false (ThreadInfo THREAD_RUNNING 0)
    (SyncParams [] ts_zero 0)
    (DevHdl (Timespec 0 1000000) 5 1048576) 0.

(** A release of one medium received at 90 s that wrote 4096 bytes. *)
Definition sample_release : req_container :=
  ReqContainer REQ_RELEASE (Timespec 90 0)
    (ReleaseParams 0 [TosyncMedium SUB_REQUEST_TODO "P00001L5" 4096 0])
    (RwallocParams 0 [] None) (FormatParams None false "") 0 0.

Definition sample_world (d : lrs_dev) (reqs : gmap nat req_container)
    (env : oracle) : world :=
  World d reqs true env [].

(** A mounted device with one release waiting for a sync. *)
Definition dev_one_tosync : lrs_dev :=
  dev_with_sync_params (SyncParams [SubRequest (Some 1%nat) 0 false] (Timespec 90 0) 4096)
    (sample_dev PHO_DEV_OP_ST_MOUNTED (Some sample_medium)).

Definition world_one_tosync : world :=
  sample_world dev_one_tosync {[ 1%nat := sample_release ]} (env_ok (Timespec 100 0)).

(** An idle device whose sync list is empty, clock at 100 s. *)
Definition world_idle : world :=
  sample_world (sample_dev PHO_DEV_OP_ST_EMPTY None) ∅ (env_ok (Timespec 100 0)).

(** ** Weakest preconditions for the state monad *)

Definition wp {A} (m : M A) (Q : A -> world -> Prop) (w : world) : Prop :=
  Q (fst (m w)) (snd (m w)).

Arguments wp : simpl never.

(** ** Counting responses *)

Definition is_error_response_for (req : option nat) (e : event) : bool :=
  match e with
  | EvCall (QueueErrorResponse _ r) _ => bool_decide (r = req)
  | _ => false
  end.

(** Number of error responses queued so far for the request [req]. *)
Definition error_responses (req : option nat) (t : list event) : nat :=
  length (List.filter (is_error_response_for req) t).

Definition is_release_response (e : event) : bool :=
  match e with
  | EvCall (TsqueuePush RESPONSE_QUEUE (ItemReleaseResp _)) _ => true
  | _ => false
  end.

(** Number of release responses pushed so far. *)
Definition release_responses (t : list event) : nat :=
  length (List.filter is_release_response t).

(** The release error code recorded in the container [i] of the store. *)
Definition release_rc_of (i : nat) (w : world) : Z :=
  rel_rc (p_release (reqc_deref (Some i) w)).

(** What a run of [clean_tosync_array] may do to the request in slot [i]:
    nothing to its error code and no error response, or record the code
    [rc] on a request that had none and queue one error response. *)
Definition recorded_at_most_once (rc : Z) (i : nat) (w w' : world) : Prop :=
  (error_responses (Some i) (w_trace w') = error_responses (Some i) (w_trace w)
   /\ release_rc_of i w' = release_rc_of i w)
  \/ (error_responses (Some i) (w_trace w') = S (error_responses (Some i) (w_trace w))
      /\ release_rc_of i w = 0 /\ release_rc_of i w' = rc).

(** A release of two media, both handled by the same device. *)
Definition sample_release2 : req_container :=
  ReqContainer REQ_RELEASE (Timespec 90 0)
    (ReleaseParams 0 [TosyncMedium SUB_REQUEST_TODO "P00001L5" 4096 0;
                      TosyncMedium SUB_REQUEST_TODO "P00002L5" 4096 0])
    (RwallocParams 0 [] None) (FormatParams None false "") 0 0.

Definition world_two_tosync : world :=
  sample_world
    (dev_with_sync_params
       (SyncParams [SubRequest (Some 1%nat) 0 false; SubRequest (Some 1%nat) 1 false]
                   (Timespec 90 0) 8192)
       (sample_dev PHO_DEV_OP_ST_MOUNTED (Some sample_medium)))
    {[ 1%nat := sample_release2 ]} (env_ok (Timespec 100 0)).

(** ** Classes of events and footprints *)

Inductive ev_class :=
| CL_OP      (* writes to ld_op_status *)
| CL_BOOK    (* responses, queues, allocation, request bookkeeping *)
| CL_CLOCK   (* clock and condition variable *)
| CL_IO      (* I/O adapter *)
| CL_FS      (* filesystem adapter *)
| CL_LIB     (* library adapter *)
| CL_DSS.    (* DSS updates and locks *)

#[global] Instance ev_class_eq_dec : EqDecision ev_class.
Proof. solve_decision. Defined.

Definition class_of_call (c : ext_call) : ev_class :=
  match c with
  | ClockGettime | ThreadSignalTimedWait _ => CL_CLOCK
  | Malloc | Strdup _ | SrlResponseAlloc | QueueErrorResponse _ _
  | TsqueuePush _ _ | FormatMediumRemove _ | SchedReqFree _
  | RwallocCancelDoneDevices _ => CL_BOOK
  | GetIoAdapter _ | IoaMediumSync _ => CL_IO
  | GetFsAdapter _ | LdmFsDf _ | LdmFsUmount _ _ | LdmFsMounted _
  | LdmFsMount _ _ _ | LdmFsFormat _ _ | Basename _ | MountPoint _ => CL_FS
  | GetLibAdapter _ | CfgGetLibDevice | LdmLibOpen | LdmLibMediaLookup _
  | LdmLibMediaMove _ _ | LdmLibClose => CL_LIB
  | DssMediaSet _ _ | DssUnlockMedia _ | DssUnlockDevice _
  | DssDeviceUpdateAdmStatus _ => CL_DSS
  end.

Definition class_of (e : event) : ev_class :=
  match e with
  | EvCall c _ => class_of_call c
  | EvOpStatus _ _ => CL_OP
  end.

(** The events of the classes [cs]. *)
Definition only (cs : list ev_class) (e : event) : bool :=
  bool_decide (class_of e ∈ cs).

Definition classes_incl (cs cs' : list ev_class) : bool :=
  forallb (fun c => bool_decide (c ∈ cs')) cs.

Definition classes_disjoint (cs cs' : list ev_class) : bool :=
  forallb (fun c => negb (bool_decide (c ∈ cs'))) cs.

(** [extends F t t']: the trace [t'] is [t] with more events in front, all
    of them accepted by [F]. *)
Inductive extends (F : event -> bool) (t : list event) : list event -> Prop :=
| extends_refl : extends F t t
| extends_cons e t' : F e = true -> extends F t t' -> extends F t (e :: t').

(** ** The state machine of the operational status *)

(** The edges of the state machine: load, mount, umount, unload, and
    failure from any state. *)
Definition op_edge (old new : dev_op_status) : bool :=
  match old, new with
  | _, PHO_DEV_OP_ST_FAILED => true
  | PHO_DEV_OP_ST_EMPTY, PHO_DEV_OP_ST_LOADED => true
  | PHO_DEV_OP_ST_LOADED, PHO_DEV_OP_ST_MOUNTED => true
  | PHO_DEV_OP_ST_MOUNTED, PHO_DEV_OP_ST_LOADED => true
  | PHO_DEV_OP_ST_LOADED, PHO_DEV_OP_ST_EMPTY => true
  | _, _ => false
  end.

(** The call whose successful return realises an edge of the state
    machine. *)
Definition realises (c : ext_call) (old new : dev_op_status) : bool :=
  match c, old, new with
  | LdmLibMediaMove _ _, PHO_DEV_OP_ST_EMPTY, PHO_DEV_OP_ST_LOADED => true
  | LdmLibMediaMove _ _, PHO_DEV_OP_ST_LOADED, PHO_DEV_OP_ST_EMPTY => true
  | LdmFsMounted _, PHO_DEV_OP_ST_LOADED, PHO_DEV_OP_ST_MOUNTED => true
  | LdmFsMount _ _ _, PHO_DEV_OP_ST_LOADED, PHO_DEV_OP_ST_MOUNTED => true
  | LdmFsUmount _ _, PHO_DEV_OP_ST_MOUNTED, PHO_DEV_OP_ST_LOADED => true
  | _, _, _ => false
  end.

(** [returned_before old new t]: in the trace [t] (newest event first) the
    call that realises the edge has returned with success, and the
    operational status has not been written since. *)
Fixpoint returned_before (old new : dev_op_status) (t : list event) : bool :=
  match t with
  | [] => false
  | EvOpStatus _ _ :: _ => false
  | EvCall c r :: t' =>
      (realises c old new && (res_rc r =? 0)) || returned_before old new t'
  end.

(** A trace respects the state machine when every write to the operational
    status it records follows an edge and, unless it enters FAILED, comes
    after the successful return of the library or filesystem call of that
    edge. *)
Inductive trace_ok : list event -> Prop :=
| ok_nil : trace_ok []
| ok_call c r t : trace_ok t -> trace_ok (EvCall c r :: t)
| ok_write old new t :
    op_edge old new = true ->
    new = PHO_DEV_OP_ST_FAILED \/ returned_before old new t = true ->
    trace_ok t ->
    trace_ok (EvOpStatus old new :: t).

(** ** Frames *)

(** The device with its request bookkeeping erased: the pending
    sub-request, the sync list and the needs-sync flag.  Two devices with
    the same erasure differ at most in these fields. *)
Definition erase_requests (d : lrs_dev) : lrs_dev :=
  dev_with_sub_request None
    (dev_with_sync_params (SyncParams [] ts_zero 0)
       (dev_with_needs_sync false d)).

(** What the bookkeeping functions do to a world: they may change the
    request bookkeeping of the device and the request containers, and they
    emit bookkeeping and clock events only. *)
Definition bookkeeping (w w' : world) : Prop :=
  erase_requests (w_dev w') = erase_requests (w_dev w) /\
  extends (only [CL_BOOK; CL_CLOCK]) (w_trace w) (w_trace w').

(** What the functions that are not device operations do to a world: they
    leave the operational status alone and record no write to it. *)
Definition quiet (w w' : world) : Prop :=
  ld_op_status (w_dev w') = ld_op_status (w_dev w) /\
  extends (only [CL_BOOK; CL_CLOCK; CL_IO; CL_FS; CL_DSS])
          (w_trace w) (w_trace w').

(** ** Runs of the device thread *)

(** What the other threads may do to the world of a device thread between
    two turns of its loop: publish to the device (pending sub-request, sync
    list, stop flag, ...) and to the request containers.  The operational
    status belongs to the device thread, and so does its trace. *)
Definition interference (w w' : world) : Prop :=
  w_trace w' = w_trace w /\
  ld_op_status (w_dev w') = ld_op_status (w_dev w).

(** [thread_reach w0 w ended]: the device thread started in [w0] can be in
    [w], having ended or not, after some turns of its loop interleaved with
    interference. *)
Inductive thread_reach (w0 : world) : world -> bool -> Prop :=
| reach_start : thread_reach w0 w0 false
| reach_interference w w' :
    thread_reach w0 w false -> interference w w' -> thread_reach w0 w' false
| reach_turn w :
    thread_reach w0 w false ->
    thread_reach w0 (snd (lrs_dev_thread_turn w)) (fst (lrs_dev_thread_turn w)).

(** The writes to the operational status recorded in a trace. *)
Definition op_writes (t : list event) : list (dev_op_status * dev_op_status) :=
  omap (fun e => match e with
                 | EvOpStatus a b => Some (a, b)
                 | EvCall _ _ => None
                 end) t.

(** A loaded drive asked to write on another medium: the run unloads,
    loads and mounts. *)
Definition sample_medium2 : media_info :=
  MediaInfo "P00002L5" PHO_RSC_ADM_ST_UNLOCKED PHO_FS_LTFS PHO_FS_STATUS_EMPTY
    "P00002L5" 0 0 0 100 true.

Definition sample_write : req_container :=
  ReqContainer REQ_WRITE (Timespec 95 0) (ReleaseParams 0 [])
    (RwallocParams 0 [RwallocMedium SUB_REQUEST_TODO (Some sample_medium2)]
                   (Some [None]))
    (FormatParams None false "") 0 0.

Definition world_write_pending : world :=
  sample_world
    (dev_with_sub_request (Some (SubRequest (Some 2%nat) 0 false))
       (sample_dev PHO_DEV_OP_ST_LOADED (Some sample_medium)))
    {[ 2%nat := sample_write ]} (env_ok (Timespec 100 0)).

(** ** Projections of a trace *)

(** The events of the classes [cs], newest first. *)
Definition calls_of (cs : list ev_class) (t : list event) : list event :=
  List.filter (only cs) t.

(** The answer of the environment to the call [c] made [n] events after the
    current trace of [w]. *)
Definition answer_at (w : world) (n : nat) (c : ext_call) : ext_result :=
  w_env w (n + length (w_trace w))%nat c.

(** The I/O adapter calls one [dev_sync] makes: none when the last client
    release carried an error, otherwise the adapter lookup of [medium_sync]
    followed, if the adapter is found, by the physical sync. *)
Definition sync_calls (w : world) : list event :=
  let dev := w_dev w in
  let get := GetIoAdapter (m_fs_type (loaded_medium dev)) in
  let sync := IoaMediumSync (ld_mnt_path dev) in
  if ld_last_client_rc dev =? 0 then
    if res_rc (answer_at w 0 get) =? 0
    then [EvCall sync (answer_at w 1 sync); EvCall get (answer_at w 0 get)]
    else [EvCall get (answer_at w 0 get)]
  else [].

Definition is_failed_media_set (e : event) : bool :=
  match e with
  | EvCall (DssMediaSet m fields) _ =>
      bool_decide (m_adm_status m = PHO_RSC_ADM_ST_FAILED)
      && bool_decide (ADM_STATUS ∈ fields)
  | _ => false
  end.

(** An environment in which every call succeeds and [df] reports a full
    medium. *)
Definition env_full (now : timespec) : oracle :=
  fun _ c =>
    match c with
    | ClockGettime => ExtResult 0 0 now MED_LOC_SLOT (FsSpace 0 0 0) EmptyString
    | LdmFsDf _ => ExtResult 0 0 ts_zero MED_LOC_SLOT (FsSpace 100 0 0) EmptyString
    | _ => ok_result
    end.

(** A mounted device whose last client release reported the error -5. *)
Definition world_client_error : world :=
  sample_world (dev_with_last_client_rc (-5) dev_one_tosync)
    {[ 1%nat := sample_release ]} (env_ok (Timespec 100 0)).

(** ** Refused drive-to-drive moves *)

(** A media move between two drive locations that the library answered
    with -EINVAL. *)
Definition is_refused_move (e : event) : bool :=
  match e with
  | EvCall (LdmLibMediaMove src dst) r =>
      bool_decide (dst = MED_LOC_DRIVE) && bool_decide (src = MED_LOC_DRIVE)
      && (res_rc r =? - EINVAL)
  | _ => false
  end.


Definition calm (e : event) : bool := negb (is_refused_move e).






Definition sample_format : req_container :=
  ReqContainer REQ_FORMAT (Timespec 95 0) (ReleaseParams 0 [])
    (RwallocParams 0 [] None)
    (FormatParams (Some sample_medium2) false "P00002L5") 0 0.


(** ** A medium mounted read-only *)

(** The request the pending sub-request belongs to. *)
Definition pending_request (w : world) : req_container :=
  reqc_deref (reqc (pending_sub_request (w_dev w))) w.

Definition fs_adapter_call (w : world) : ext_call :=
  GetFsAdapter (m_fs_type (loaded_medium (w_dev w))).

Definition df_call (w : world) : ext_call := LdmFsDf (ld_mnt_path (w_dev w)).

(** The two calls of [dev_mount_is_writable] succeed and [df] comes back
    with the read-only flag. *)
Definition reports_read_only (w : world) : Prop :=
  res_rc (answer_at w 0 (fs_adapter_call w)) = 0 /\
  res_rc (answer_at w 1 (df_call w)) = 0 /\
  Z.land (spc_flags (res_space (answer_at w 1 (df_call w)))) PHO_FS_READONLY <> 0.

(** The loaded medium with its filesystem status FULL. *)
Definition full_medium (d : lrs_dev) : media_info :=
  media_with_fs_status PHO_FS_STATUS_FULL (loaded_medium d).

(** The DSS update that pushes this status, and nothing else. *)
Definition full_update (w : world) : ext_call :=
  DssMediaSet (full_medium (w_dev w)) [FS_STATUS].

(** What the read-only test and the update record, newest first. *)
Definition read_only_events (w : world) : list event :=
  [EvCall (full_update w) (answer_at w 2 (full_update w));
   EvCall (df_call w) (answer_at w 1 (df_call w));
   EvCall (fs_adapter_call w) (answer_at w 0 (fs_adapter_call w))].

(** The state in which the read-only test hands over to the result
    handling. *)
Definition marked_full (w : world) : world :=
  World (store_loaded_medium (full_medium (w_dev w))
           (dev_with_sub_request
              (sub_request_with_fom true <$> ld_sub_request (w_dev w))
              (w_dev w)))
        (w_reqs w) (w_running w) (w_env w) (read_only_events w ++ w_trace w).

Definition is_media_unlock (e : event) : bool :=
  match e with
  | EvCall (DssUnlockMedia _) _ => true
  | _ => false
  end.

(** Giving a sub-request back to the scheduler: a push on the retry queue
    and the release of request memory; in particular no response to the
    client. *)
Definition requeue_only (e : event) : bool :=
  match e with
  | EvCall (TsqueuePush SCHED_RETRY_QUEUE _) _ => true
  | EvCall (SchedReqFree _) _ => true
  | _ => false
  end.

(** An environment in which nothing is mounted yet, every other call
    succeeds and [df] reports a read-only filesystem. *)
Definition env_read_only (now : timespec) : oracle :=
  fun _ c =>
    match c with
    | ClockGettime => ExtResult 0 0 now MED_LOC_SLOT (FsSpace 0 0 0) EmptyString
    | LdmFsMounted _ =>
        ExtResult (-2) 0 ts_zero MED_LOC_SLOT (FsSpace 0 0 0) EmptyString
    | Basename _ =>
        ExtResult 0 0 ts_zero MED_LOC_SLOT (FsSpace 0 0 0) "st0"
    | MountPoint _ =>
        ExtResult 0 0 ts_zero MED_LOC_SLOT (FsSpace 0 0 0) "/mnt/phobos-st0"
    | LdmFsDf _ =>
        ExtResult 0 0 ts_zero MED_LOC_SLOT (FsSpace 50 50 PHO_FS_READONLY)
          EmptyString
    | _ => ok_result
    end.

(** A write allocated on the medium the device holds. *)
Definition sample_write_loaded : req_container :=
  ReqContainer REQ_WRITE (Timespec 95 0) (ReleaseParams 0 [])
    (RwallocParams 0 [RwallocMedium SUB_REQUEST_TODO None] (Some [None]))
    (FormatParams None false "") 0 0.

(** That write waiting on a device with the medium loaded; the medium
    mounts read-only. *)
Definition world_write_read_only : world :=
  sample_world
    (dev_with_sub_request (Some (SubRequest (Some 2%nat) 0 false))
       (sample_dev PHO_DEV_OP_ST_LOADED (Some sample_medium)))
    {[ 2%nat := sample_write_loaded ]} (env_read_only (Timespec 100 0)).

(** The same write just after the mount of the medium of the device. *)
Definition world_mounted_read_only : world :=
  sample_world
    (dev_with_sub_request (Some (SubRequest (Some 2%nat) 0 false))
       (sample_dev PHO_DEV_OP_ST_MOUNTED (Some sample_medium)))
    {[ 2%nat := sample_write_loaded ]} (env_read_only (Timespec 100 0)).

(** ** Quarantine of a resource that could not be marked FAILED *)

(** The DSS events the quarantine rule is about: an update to admin status
    FAILED that the DSS refused, and the release of a lock, for a medium and
    for a device. *)
Inductive dss_kind :=
| MEDIUM_REFUSED | MEDIUM_UNLOCK | DEVICE_REFUSED | DEVICE_UNLOCK.

Definition is_kind (k : dss_kind) (e : event) : bool :=
  match k, e with
  | MEDIUM_REFUSED, EvCall (DssMediaSet m fields) r =>
      bool_decide (ADM_STATUS ∈ fields)
      && bool_decide (m_adm_status m = PHO_RSC_ADM_ST_FAILED)
      && negb (res_rc r =? 0)
  | MEDIUM_UNLOCK, EvCall (DssUnlockMedia _) _ => true
  | DEVICE_REFUSED, EvCall (DssDeviceUpdateAdmStatus i) r =>
      bool_decide (d_adm_status i = PHO_RSC_ADM_ST_FAILED)
      && negb (res_rc r =? 0)
  | DEVICE_UNLOCK, EvCall (DssUnlockDevice _) _ => true
  | _, _ => false
  end.

(** Events of none of the kinds [ks]. *)
Definition avoids (ks : list dss_kind) (e : event) : bool :=
  forallb (fun k => negb (is_kind k e)) ks.


(** The events a call has added to the trace, newest first. *)
Definition new_events (w w' : world) : list event :=
  take (length (w_trace w') - length (w_trace w)) (w_trace w').


(** The shape that gives it: first events without refusal, then events
    without unlock. *)
Definition staged (refused unlock : dss_kind) (t0 t : list event) : Prop :=
  exists mid, extends (avoids [refused]) t0 mid /\ extends (avoids [unlock]) mid t.




(** An environment whose DSS refuses every update, in which nothing is
    mounted and no mount or umount succeeds. *)
Definition env_dss_down (now : timespec) : oracle :=
  fun _ c =>
    match c with
    | ClockGettime => ExtResult 0 0 now MED_LOC_SLOT (FsSpace 0 0 0) EmptyString
    | DssMediaSet _ _ | DssDeviceUpdateAdmStatus _ | LdmFsMounted _
    | LdmFsMount _ _ _ | LdmFsUmount _ _ =>
        ExtResult (-5) 0 ts_zero MED_LOC_SLOT (FsSpace 0 0 0) EmptyString
    | _ => ok_result
    end.





(** A thread that ends on the error -5 with the medium mounted, the DSS
    updates failing. *)
Definition world_thread_error : world :=
  sample_world
    (dev_with_thread (ThreadInfo THREAD_RUNNING (-5))
       (sample_dev PHO_DEV_OP_ST_MOUNTED (Some sample_medium)))
    ∅ (env_dss_down (Timespec 100 0)).

(** ** End of the device thread *)










(** * Further properties of the device worker

    Vocabulary for the properties of the functions of [lrs_device.c] that
    the claims above leave aside. *)

(** ** Library and filesystem operations *)

(** The library adapter [wrap_lib_open] asks for. *)
Definition lib_type_of (family : rsc_family) : lib_type :=
  match family with
  | PHO_RSC_DIR => PHO_LIB_DUMMY
  | PHO_RSC_TAPE => PHO_LIB_SCSI
  | PHO_RSC_RADOS_POOL => PHO_LIB_RADOS
  end.

Definition is_lib_open (e : event) : bool :=
  match e with
  | EvCall LdmLibOpen _ => true
  | _ => false
  end.

Definition is_lib_move (e : event) : bool :=
  match e with
  | EvCall (LdmLibMediaMove _ _) _ => true
  | _ => false
  end.


(** The move of [dev_unload]: from the drive to a slot the library
    chooses. *)
Definition unload_move (d : lrs_dev) : ext_call :=
  LdmLibMediaMove (ld_lib_dev_addr d) MED_LOC_UNKNOWN.

(** An environment whose configuration names no library device. *)
Definition env_no_lib_device (now : timespec) : oracle :=
  fun _ c =>
    match c with
    | ClockGettime => ExtResult 0 0 now MED_LOC_SLOT (FsSpace 0 0 0) EmptyString
    | CfgGetLibDevice =>
        ExtResult (-1) 0 ts_zero MED_LOC_SLOT (FsSpace 0 0 0) EmptyString
    | _ => ok_result
    end.

(** A loaded tape drive under that configuration. *)
Definition world_no_lib_device : world :=
  sample_world (sample_dev PHO_DEV_OP_ST_LOADED (Some sample_medium))
    ∅ (env_no_lib_device (Timespec 100 0)).

(** An environment in which the library cannot be closed. *)
Definition env_close_fails (now : timespec) : oracle :=
  fun _ c =>
    match c with
    | ClockGettime => ExtResult 0 0 now MED_LOC_SLOT (FsSpace 0 0 0) EmptyString
    | LdmLibClose =>
        ExtResult (-5) 0 ts_zero MED_LOC_SLOT (FsSpace 0 0 0) EmptyString
    | _ => ok_result
    end.

Definition world_close_fails : world :=
  sample_world (sample_dev PHO_DEV_OP_ST_LOADED (Some sample_medium))
    ∅ (env_close_fails (Timespec 100 0)).

(** An environment in which [df] fails. *)
Definition env_df_fails (now : timespec) : oracle :=
  fun _ c =>
    match c with
    | ClockGettime => ExtResult 0 0 now MED_LOC_SLOT (FsSpace 0 0 0) EmptyString
    | LdmFsDf _ =>
        ExtResult (-5) 0 ts_zero MED_LOC_SLOT (FsSpace 0 0 PHO_FS_READONLY)
          EmptyString
    | _ => ok_result
    end.

(** A write just after the mount, [df] failing. *)
Definition world_mounted_df_fails : world :=
  sample_world
    (dev_with_sub_request (Some (SubRequest (Some 2%nat) 0 false))
       (sample_dev PHO_DEV_OP_ST_MOUNTED (Some sample_medium)))
    {[ 2%nat := sample_write_loaded ]} (env_df_fails (Timespec 100 0)).

(** What [dev_unload] guarantees, from [w] to [w'] with the code [rc]. *)
Definition unload_outcome (w : world) (rc : Z) (w' : world) : Prop :=
  let d' := w_dev w' in
  let new := new_events w w' in
  (rc = 0 ->
   ld_op_status d' = PHO_DEV_OP_ST_EMPTY /\
   ld_dss_media_info d' = None /\
   exists r, res_rc r = 0 /\
             hd_error new = Some (EvCall (DssUnlockMedia (loaded_medium (w_dev w))) r)) /\
  (List.filter is_media_unlock new <> [] ->
   ld_op_status d' = PHO_DEV_OP_ST_EMPTY /\ ld_dss_media_info d' = None) /\
  (rc <> 0 -> List.filter is_media_unlock new = [] ->
   ld_op_status d' = PHO_DEV_OP_ST_FAILED) /\
  (forall r r',
      In (EvCall (unload_move (w_dev w)) r) new -> res_rc r = 0 ->
      In (EvCall LdmLibClose r') new -> res_rc r' <> 0 ->
      rc = res_rc r' /\
      ld_op_status d' = PHO_DEV_OP_ST_FAILED /\
      ld_dss_media_info d' = None /\
      List.filter is_media_unlock new = []).






(** ** Responses and the sync list *)

(** Memory requests of the response builders. *)
Definition is_alloc (e : event) : bool :=
  match e with
  | EvCall Malloc _ | EvCall (Strdup _) _ | EvCall SrlResponseAlloc _ => true
  | _ => false
  end.

(** The two ends of [queue_release_response]: the release response pushed
    on the response queue, or an error response, as the newest event, with
    only memory requests before it. *)
Definition release_answered (req : option nat) (new : list event) : Prop :=
  exists r allocs,
    new = EvCall (TsqueuePush RESPONSE_QUEUE (ItemReleaseResp req)) r :: allocs /\
    Forall (fun e => is_alloc e = true) allocs.

(** The code a failed memory request turns into: -ENOMEM for [malloc], the
    code of the call otherwise. *)
Definition alloc_error (c : ext_call) (r : ext_result) : Z :=
  match c with
  | Malloc => - ENOMEM
  | _ => res_rc r
  end.

Definition release_refused (req : option nat) (rc : Z) (new : list event) : Prop :=
  exists r failed r' older,
    new = EvCall (QueueErrorResponse (alloc_error failed r') req) r
          :: EvCall failed r' :: older /\
    is_alloc (EvCall failed r') = true /\
    res_rc r' <> 0 /\
    Forall (fun e => is_alloc e = true) older /\
    rc = res_rc r.

(** An environment in which the second memory request of a call fails. *)
Definition env_second_malloc_fails (base : nat) : oracle :=
  fun n c =>
    match c with
    | Malloc =>
        if (n =? S base)%nat
        then ExtResult (-1) ENOMEM ts_zero MED_LOC_SLOT (FsSpace 0 0 0) EmptyString
        else ok_result
    | _ => ok_result
    end.

Definition world_release_no_memory : world :=
  sample_world dev_one_tosync {[ 1%nat := sample_release ]}
    (env_second_malloc_fails 0).

(** The instant a sub-request of the sync list was received at. *)
Definition received (w : world) (r : sub_request) : timespec :=
  received_at (reqc_deref (reqc r) w).

(** A proper instant: normalised and after the epoch. *)
Definition ts_proper (t : timespec) : Prop := ts_norm t /\ 0 < ts_ns t.

(** The oldest instant kept by the sync parameters of a device. *)
Definition oldest_of (w : world) : timespec :=
  oldest_tosync (ld_sync_params (w_dev w)).

(** A release received at 80 s, before [sample_release]. *)
Definition sample_release_older : req_container :=
  ReqContainer REQ_RELEASE (Timespec 80 0)
    (ReleaseParams 0 [TosyncMedium SUB_REQUEST_TODO "P00001L5" 1024 0])
    (RwallocParams 0 [] None) (FormatParams None false "") 0 0.

(** Two releases are waiting, the oldest instant on record is 70 s (a
    release that has left the list since). *)
Definition world_stale_oldest : world :=
  sample_world
    (dev_with_sync_params
       (SyncParams [SubRequest (Some 1%nat) 0 false; SubRequest (Some 2%nat) 0 false]
                   (Timespec 70 0) 5120)
       (sample_dev PHO_DEV_OP_ST_MOUNTED (Some sample_medium)))
    {[ 1%nat := sample_release; 2%nat := sample_release_older ]}
    (env_ok (Timespec 100 0)).

(** *** Cancelled releases in the sync list *)

(** The release a sub-request of the sync list belongs to is not in
    error. *)
Definition release_ok (w : world) (r : sub_request) : bool :=
  rel_rc (p_release (reqc_deref (reqc r) w)) =? 0.

(** The sub-requests of a list whose release is in error. *)
Definition canceled (w : world) (l : list sub_request) : list sub_request :=
  List.filter (fun r => negb (release_ok w r)) l.





(** *** The report of a load *)


(** *** A format request at thread end *)

Definition is_requeue (e : event) : bool :=
  match e with
  | EvCall (TsqueuePush SCHED_REQ_QUEUE _) _ => true
  | _ => false
  end.

Definition is_error_response (e : event) : bool :=
  match e with
  | EvCall (QueueErrorResponse _ _) _ => true
  | _ => false
  end.

Definition is_format_removal (e : event) : bool :=
  match e with
  | EvCall (FormatMediumRemove _) _ => true
  | _ => false
  end.

(** What [cancel_pending_format] has done with the pending sub-request
    [sr]. *)
Definition format_cancelled (sr : sub_request) (w w' : world) : Prop :=
  let st := th_status (ld_device_thread (w_dev w)) in
  let medium := medium_to_format (p_format (reqc_deref (reqc sr) w)) in
  let new := new_events w w' in
  let requeued :=
    exists r, In (EvCall (TsqueuePush SCHED_REQ_QUEUE (ItemReqc (reqc sr))) r) new in
  let refused rc :=
    exists r, In (EvCall (QueueErrorResponse rc (reqc sr)) r) new in
  w_dev w' = dev_with_sub_request None (w_dev w) /\
  medium_to_format (p_format (reqc_deref (reqc sr) w')) = None /\
  length (List.filter is_format_removal new) = 1%nat /\
  (length (List.filter is_requeue new)
   + length (List.filter is_error_response new) = 1)%nat /\
  (medium = None ->
   calls_of [CL_DSS] new = [] /\
   (st = 0 -> requeued) /\ (st <> 0 -> refused st)) /\
  (forall m, medium = Some m ->
   exists r, In (EvCall (DssUnlockMedia m) r) new /\
     (res_rc r = 0 ->
      requeued /\ List.filter is_failed_media_set new = []) /\
     (res_rc r <> 0 ->
      exists r',
        In (EvCall (DssMediaSet (media_with_adm_status PHO_RSC_ADM_ST_FAILED m)
                                [ADM_STATUS]) r') new /\
        (res_rc r' = 0 -> requeued) /\
        (res_rc r' <> 0 -> refused (res_rc r')))).

(** An environment in which the DSS refuses to release the lock of a
    medium. *)
Definition env_unlock_fails (now : timespec) : oracle :=
  fun _ c =>
    match c with
    | ClockGettime => ExtResult 0 0 now MED_LOC_SLOT (FsSpace 0 0 0) EmptyString
    | DssUnlockMedia _ =>
        ExtResult (-5) 0 ts_zero MED_LOC_SLOT (FsSpace 0 0 0) EmptyString
    | _ => ok_result
    end.

(** A format request is pending on an empty device whose thread ends
    without error, and the lock of the medium to format cannot be
    released. *)
Definition world_format_pending : world :=
  sample_world
    (dev_with_sub_request (Some (SubRequest (Some 3%nat) 0 false))
       (sample_dev PHO_DEV_OP_ST_EMPTY None))
    {[ 3%nat := sample_format ]} (env_unlock_fails (Timespec 100 0)).

(** *** The outcome of a format request *)

Definition occurrences (P : event -> bool) (t : list event) : nat :=
  length (List.filter P t).

Definition is_format_response (e : event) : bool :=
  match e with
  | EvCall (TsqueuePush RESPONSE_QUEUE (ItemFormatResp _)) _ => true
  | _ => false
  end.

(** The DSS has accepted the record of a freshly formatted medium. *)
Definition is_format_record (e : event) : bool :=
  match e with
  | EvCall (DssMediaSet m fields) r =>
      bool_decide (FS_STATUS ∈ fields)
      && bool_decide (m_fs_status m = PHO_FS_STATUS_EMPTY)
      && (res_rc r =? 0)
  | _ => false
  end.

(** The outcomes of the format request held in the container [i]: an error
    response for it, a format response, or a push back to the scheduler. *)
Definition is_format_outcome (i : nat) (e : event) : bool :=
  is_error_response_for (Some i) e || is_format_response e || is_requeue e.

(** Events that have nothing to do with the end of that format request. *)
Definition foreign (i : nat) (e : event) : bool :=
  negb (is_format_outcome i e) && negb (is_format_removal e)
  && negb (is_format_record e).

(** *** Thread end after an error *)

(** A stage of the thread end that keeps away from the drive: the thread,
    the record of the device, the sync list and the operational status
    stay, and the only calls are to the DSS and to the request
    bookkeeping. *)
Definition end_stage (w w' : world) : Prop :=
  ld_device_thread (w_dev w') = ld_device_thread (w_dev w) /\
  ld_dss_dev_info (w_dev w') = ld_dss_dev_info (w_dev w) /\
  ld_sync_params (w_dev w') = ld_sync_params (w_dev w) /\
  ld_op_status (w_dev w') = ld_op_status (w_dev w) /\
  extends (only [CL_DSS; CL_BOOK; CL_CLOCK; CL_OP]) (w_trace w) (w_trace w').

(** The update that marks the device of [w] FAILED in the DSS. *)
Definition device_failed_update (w : world) : ext_call :=
  DssDeviceUpdateAdmStatus
    (dev_info_with_adm_status PHO_RSC_ADM_ST_FAILED (ld_dss_dev_info (w_dev w))).

(** *** The main loop while an I/O is ongoing *)

(** The drive of the device: everything but the thread and the request
    bookkeeping. *)
Definition same_drive (d d' : lrs_dev) : Prop :=
  ld_op_status d' = ld_op_status d /\
  ld_dss_media_info d' = ld_dss_media_info d /\
  ld_dss_dev_info d' = ld_dss_dev_info d /\
  ld_mnt_path d' = ld_mnt_path d /\
  ld_ongoing_io d' = ld_ongoing_io d /\
  ld_last_client_rc d' = ld_last_client_rc d.

(** A mounted device in the middle of an I/O whose thread has been asked to
    stop. *)
Definition world_ongoing_io : world :=
  sample_world
    (dev_with_ongoing_io true
       (dev_with_thread (ThreadInfo THREAD_STOPPING 0)
          (sample_dev PHO_DEV_OP_ST_MOUNTED (Some sample_medium))))
    ∅ (env_ok (Timespec 100 0)).

(** *** The stop of the main loop *)

(** A thread that is stopped with nothing left on the device. *)
Definition stopped_now (w : world) : Prop :=
  th_state (ld_device_thread (w_dev w)) = THREAD_STOPPED /\
  ld_sub_request (w_dev w) = None /\
  tosync_array (ld_sync_params (w_dev w)) = [] /\
  ld_ongoing_io (w_dev w) = false.

(** An empty device with nothing pending whose thread has been asked to
    stop. *)
Definition world_stopping_idle : world :=
  sample_world
    (dev_with_thread (ThreadInfo THREAD_STOPPING 0)
       (sample_dev PHO_DEV_OP_ST_EMPTY None))
    ∅ (env_ok (Timespec 100 0)).

(** *** The result of a read or write sub-request *)

Definition is_retry_push (e : event) : bool :=
  match e with
  | EvCall (TsqueuePush SCHED_RETRY_QUEUE _) _ => true
  | _ => false
  end.

Definition is_rwalloc_response (e : event) : bool :=
  match e with
  | EvCall (TsqueuePush RESPONSE_QUEUE (ItemRwallocResp _ _)) _ => true
  | _ => false
  end.

(** What [handle_rwalloc_sub_request_result] has done with the result of
    the sub-request of the container [i], whose content was [rq]. *)
Definition rwalloc_disposed (i : nat) (rq : req_container) (sub_request_rc : Z)
    (w : world) (res : Z * bool * bool) (w' : world) : Prop :=
  let '(rc, requeued, canceled) := res in
  let new := new_events w w' in
  let rq' := reqc_deref (Some i) w' in
  let retries := occurrences is_retry_push new in
  let errors := occurrences is_error_response new in
  let responses := occurrences is_rwalloc_response new in
  (canceled = true <-> rw_rc (p_rwalloc rq) <> 0) /\
  (retries + errors + responses <= 1)%nat /\
  (canceled = true ->
   rc = 0 /\ requeued = false /\ (retries + errors + responses = 0)%nat /\
   rw_rc (p_rwalloc rq') = rw_rc (p_rwalloc rq)) /\
  (requeued = true <-> retries = 1%nat) /\
  (requeued = true -> rw_rc (p_rwalloc rq') = 0) /\
  (errors = 1%nat <-> rw_rc (p_rwalloc rq) = 0 /\ rw_rc (p_rwalloc rq') <> 0) /\
  (errors = 1%nat ->
   exists r, In (EvCall (QueueErrorResponse (rw_rc (p_rwalloc rq')) (Some i)) r) new) /\
  (responses = 1%nat ->
   rc = 0 /\ sub_request_rc = 0 /\ rw_rc (p_rwalloc rq') = 0).

(** A read whose only medium is mounted in the device; the read cannot be
    served from another medium. *)
Definition sample_read : req_container :=
  ReqContainer REQ_READ (Timespec 95 0) (ReleaseParams 0 [])
    (RwallocParams 0 [RwallocMedium SUB_REQUEST_TODO None] (Some [None]))
    (FormatParams None false "") 1 1.

Definition world_read_pending : world :=
  sample_world
    (dev_with_sub_request (Some (SubRequest (Some 4%nat) 0 true))
       (sample_dev PHO_DEV_OP_ST_MOUNTED (Some sample_medium)))
    {[ 4%nat := sample_read ]} (env_ok (Timespec 100 0)).

(** *** Ongoing I/O *)

(** What a handler may do to the ongoing-I/O flag: leave it, or raise it on
    a MOUNTED device that has no pending sub-request any more. *)
Definition io_raised_mounted (w w' : world) : Prop :=
  ld_ongoing_io (w_dev w') = ld_ongoing_io (w_dev w) \/
  (ld_ongoing_io (w_dev w') = true /\
   ld_op_status (w_dev w') = PHO_DEV_OP_ST_MOUNTED /\
   ld_sub_request (w_dev w') = None).

(** A read is pending on the mounted medium of the device and the memory
    for the response cannot be allocated. *)
Definition env_strdup_fails (now : timespec) : oracle :=
  fun _ c =>
    match c with
    | ClockGettime => ExtResult 0 0 now MED_LOC_SLOT (FsSpace 0 0 0) EmptyString
    | Strdup _ =>
        ExtResult (-1) ENOMEM ts_zero MED_LOC_SLOT (FsSpace 0 0 0) EmptyString
    | _ => ok_result
    end.

Definition world_read_no_memory : world :=
  sample_world
    (dev_with_sub_request (Some (SubRequest (Some 4%nat) 0 true))
       (sample_dev PHO_DEV_OP_ST_MOUNTED (Some sample_medium)))
    {[ 4%nat := sample_read ]} (env_strdup_fails (Timespec 100 0)).

(** * Properties *)

(** ** Running monadic code *)

Ltac mstep :=
  unfold bind, ret, get_dev, get_running, modify_dev, call_rc, call,
    clock_gettime, get_reqc, set_op_status, set_thread_status,
    modify_sub_request; simpl.

(** ** Time arithmetic *)

Lemma is_older_or_equal_ns (a b : timespec) :
  ts_norm a -> ts_norm b ->
  is_older_or_equal a b = true <-> ts_ns a <= ts_ns b.
Proof.
  unfold ts_norm, is_older_or_equal, ts_ns. intros Ha Hb.
  destruct (Z.ltb_spec (tv_sec b) (tv_sec a)); simpl.
  - split; [discriminate | lia].
  - destruct (Z.eqb_spec (tv_sec a) (tv_sec b)); simpl.
    + destruct (Z.ltb_spec (tv_nsec b) (tv_nsec a)); split; try discriminate; try lia; auto.
    + split; [lia | auto].
Qed.

Lemma add_timespec_ns (a b : timespec) :
  ts_ns (add_timespec a b) = ts_ns a + ts_ns b.
Proof.
  unfold add_timespec, ts_ns.
  destruct (Z.leb_spec 1000000000 (tv_nsec a + tv_nsec b)); simpl; lia.
Qed.

Lemma add_timespec_norm (a b : timespec) :
  ts_norm a -> ts_norm b -> ts_norm (add_timespec a b).
Proof.
  unfold add_timespec, ts_norm. intros Ha Hb.
  destruct (Z.leb_spec 1000000000 (tv_nsec a + tv_nsec b)); simpl; lia.
Qed.

Lemma diff_timespec_ns (a b : timespec) :
  ts_ns (diff_timespec a b) = ts_ns a - ts_ns b.
Proof.
  unfold diff_timespec, ts_ns.
  destruct (Z.ltb_spec (tv_nsec a - tv_nsec b) 0); simpl; lia.
Qed.

Lemma diff_timespec_norm (a b : timespec) :
  ts_norm a -> ts_norm b -> ts_norm (diff_timespec a b).
Proof.
  unfold diff_timespec, ts_norm. intros Ha Hb.
  destruct (Z.ltb_spec (tv_nsec a - tv_nsec b) 0); simpl; lia.
Qed.

Lemma cmp_timespec_lt (a b : timespec) :
  ts_norm a -> ts_norm b ->
  cmp_timespec a b = -1 <-> ts_ns a < ts_ns b.
Proof.
  unfold cmp_timespec, ts_norm, ts_ns. intros Ha Hb.
  destruct (Z.ltb_spec (tv_sec a) (tv_sec b)); [split; [lia | reflexivity]|].
  destruct (Z.ltb_spec (tv_sec b) (tv_sec a)); [split; [discriminate | lia]|].
  destruct (Z.ltb_spec (tv_nsec a) (tv_nsec b)); [split; [lia | reflexivity]|].
  destruct (Z.ltb_spec (tv_nsec b) (tv_nsec a)); split; try discriminate; lia.
Qed.

Lemma MINSLEEP_norm : ts_norm MINSLEEP.
Proof. unfold ts_norm, MINSLEEP; simpl; lia. Qed.

(** ** Sync policy *)



(** When the clock cannot be read, [is_past] answers true: a non-empty
    array below the request threshold then asks for a sync whatever the
    dates are. *)
Lemma check_needs_sync_clock_failure (w : world) :
  res_rc (clock_now w) <> 0 ->
  tosync_array (ld_sync_params (w_dev w)) <> [] ->
  ld_needs_sync (w_dev (snd (check_needs_sync w))) = true.
Proof.
  intros Hrc Hne. unfold check_needs_sync, is_past, clock_now in *. mstep.
  destruct (tosync_array (ld_sync_params (w_dev w))) as [|x l]; [congruence|].
  replace (0 <? Z.of_nat (length (x :: l))) with true
    by (symmetry; apply Z.ltb_lt; simpl length; lia).
  destruct (Z.leb_spec (sync_nb_req (ld_handle (w_dev w))) (Z.of_nat (length (x :: l))));
    simpl; [reflexivity|].
  destruct (Z.eqb_spec (res_rc (w_env w (length (w_trace w)) ClockGettime)) 0);
    [congruence | reflexivity].
Qed.

(** ** Wake-up date *)

Lemma ts_zero_test (t : timespec) :
  (tv_sec t =? 0) && (tv_nsec t =? 0) = true <-> t = ts_zero.
Proof.
  destruct t as [s n]; unfold ts_zero; simpl. rewrite andb_true_iff, !Z.eqb_eq.
  split; [intros [-> ->]; reflexivity | intros H; injection H; auto].
Qed.

(** C2 (as it holds).  With a readable clock and normalised time values,
    [compute_wakeup_date] succeeds and the thread then blocks on its
    condition variable with the computed deadline.  When [oldest_tosync] is
    unset the deadline is now + sync_time; otherwise it is
    max(now + 10 ms, oldest_tosync + sync_time), hence never earlier than
    now + 10 ms. *)
Theorem compute_wakeup_date_deadline (w : world) :
  let sp := ld_sync_params (w_dev w) in
  let st := sync_time_ms (ld_handle (w_dev w)) in
  let now := res_time (clock_now w) in
  let date := snd (fst (compute_wakeup_date w)) in
  res_rc (clock_now w) = 0 ->
  ts_norm now -> ts_norm (oldest_tosync sp) -> ts_norm st ->
  fst (fst (compute_wakeup_date w)) = 0 /\
  ts_norm date /\
  (oldest_tosync sp = ts_zero -> ts_ns date = ts_ns now + ts_ns st) /\
  (oldest_tosync sp <> ts_zero ->
     ts_ns date = Z.max (ts_ns now + ts_ns MINSLEEP)
                        (ts_ns (oldest_tosync sp) + ts_ns st)
     /\ ts_ns now + ts_ns MINSLEEP <= ts_ns date) /\
  exists r,
    w_trace (snd (dev_wait_for_signal w)) =
      EvCall (ThreadSignalTimedWait date) r
        :: EvCall ClockGettime (clock_now w) :: w_trace w.
Proof.
  intros sp st now date Hrc Hnow Hold Hst.
  subst date. unfold dev_wait_for_signal, compute_wakeup_date. mstep.
  unfold clock_now in *. fold sp st. rewrite Hrc. simpl.
  fold now.
  destruct ((tv_sec (oldest_tosync sp) =? 0) && (tv_nsec (oldest_tosync sp) =? 0))
    eqn:Hz; simpl.
  - apply ts_zero_test in Hz.
    split; [reflexivity|]. split; [auto using add_timespec_norm|].
    split; [intros _; apply add_timespec_ns|].
    split; [congruence|]. eexists. reflexivity.
  - assert (Hnz : oldest_tosync sp <> ts_zero).
    { intros H. apply ts_zero_test in H. congruence. }
    pose proof MINSLEEP_norm as Hm.
    assert (Hd : ts_norm (add_timespec (oldest_tosync sp) st))
      by auto using add_timespec_norm.
    destruct (Z.eqb_spec
                (cmp_timespec (diff_timespec (add_timespec (oldest_tosync sp) st) now)
                              MINSLEEP) (-1)) as [Hc | Hc]; simpl;
      rewrite cmp_timespec_lt in Hc by auto using diff_timespec_norm;
      rewrite diff_timespec_ns, add_timespec_ns in Hc;
      (split; [reflexivity|]); (split; [auto using add_timespec_norm|]);
      (split; [congruence|]);
      (split; [intros _; rewrite ?add_timespec_ns; lia|]);
      eexists; reflexivity.
Qed.

Lemma compute_wakeup_date_deadline_witness :
  ts_ns (snd (fst (compute_wakeup_date world_one_tosync))) =
    Z.max (100 * 1000000000 + 10000000) (90 * 1000000000 + 1000000).
Proof.
  pose proof (compute_wakeup_date_deadline world_one_tosync) as H.
  simpl in H.
  destruct H as (_ & _ & _ & H & _);
    [reflexivity | unfold ts_norm; simpl; lia ..|].
  destruct H as [H _]; [discriminate|].
  exact H.
Defined.

(** C2 (as stated) fails when the sync list is empty: with a sync time of
    1 ms and the clock at 100 s the deadline is 100.001 s, which is neither
    max(now + 10 ms, 0 + sync_time) nor at least now + 10 ms. *)
Lemma wakeup_deadline_empty_list_counterexample :
  res_rc (clock_now world_idle) = 0 /\
  tosync_array (ld_sync_params (w_dev world_idle)) = [] /\
  snd (fst (compute_wakeup_date world_idle)) = Timespec 100 1000000 /\
  ~ wakeup_deadline_as_specified world_idle.
Proof.
  repeat split.
  unfold wakeup_deadline_as_specified. vm_compute. intros [H _]. discriminate H.
Qed.

(** ** Rules for weakest preconditions *)

Lemma wp_ret {A} (a : A) Q w : Q a w -> wp (ret a) Q w.
Proof. unfold wp. auto. Qed.

Lemma wp_bind {A B} (m : M A) (k : A -> M B) Q w :
  wp m (fun a w' => wp (k a) Q w') w -> wp (bind m k) Q w.
Proof. unfold wp, bind. destruct (m w) as [a w']. auto. Qed.

Lemma wp_mono {A} (m : M A) (Q Q' : A -> world -> Prop) w :
  wp m Q w -> (forall a w', Q a w' -> Q' a w') -> wp m Q' w.
Proof. unfold wp. auto. Qed.

Lemma wp_get_dev Q w : Q (w_dev w) w -> wp get_dev Q w.
Proof. auto. Qed.

Lemma wp_get_running Q w : Q (w_running w) w -> wp get_running Q w.
Proof. auto. Qed.

Lemma wp_get_reqc p Q w : Q (reqc_deref p w) w -> wp (get_reqc p) Q w.
Proof. auto. Qed.

Lemma wp_modify_dev f Q w :
  Q tt (World (f (w_dev w)) (w_reqs w) (w_running w) (w_env w) (w_trace w)) ->
  wp (modify_dev f) Q w.
Proof. auto. Qed.

Lemma wp_modify_reqc p f Q w :
  Q tt (match p with
        | Some i => World (w_dev w) (alter f i (w_reqs w)) (w_running w)
                          (w_env w) (w_trace w)
        | None => w
        end) ->
  wp (modify_reqc p f) Q w.
Proof. unfold wp, modify_reqc. destruct p; auto. Qed.

Lemma wp_call c Q w :
  (forall r, Q r (World (w_dev w) (w_reqs w) (w_running w) (w_env w)
                        (EvCall c r :: w_trace w))) ->
  wp (call c) Q w.
Proof. unfold wp, call. simpl. auto. Qed.

Lemma wp_call_rc c Q w :
  (forall r, Q (res_rc r) (World (w_dev w) (w_reqs w) (w_running w) (w_env w)
                                 (EvCall c r :: w_trace w))) ->
  wp (call_rc c) Q w.
Proof. unfold wp, call_rc, call, bind, ret. simpl. auto. Qed.

Lemma wp_set_op_status s Q w :
  Q tt (World (dev_with_op_status s (w_dev w)) (w_reqs w) (w_running w)
              (w_env w) (EvOpStatus (ld_op_status (w_dev w)) s :: w_trace w)) ->
  wp (set_op_status s) Q w.
Proof. auto. Qed.

Lemma wp_run {A} (m : M A) (Q : A -> world -> Prop) w :
  wp m Q w -> Q (fst (m w)) (snd (m w)).
Proof. auto. Qed.

(** One step of symbolic execution: primitives are resolved, tests are
    split, calls to other functions are left for their own lemma. *)
Ltac wp_step :=
  lazymatch goal with
  | |- wp (bind _ _) _ _ => apply wp_bind
  | |- wp (ret _) _ _ => apply wp_ret
  | |- wp get_dev _ _ => apply wp_get_dev
  | |- wp get_running _ _ => apply wp_get_running
  | |- wp (get_reqc _) _ _ => apply wp_get_reqc
  | |- wp (modify_dev _) _ _ => apply wp_modify_dev
  | |- wp (modify_reqc (Some _) _) _ _ => apply wp_modify_reqc
  | |- wp (modify_reqc None _) _ _ => apply wp_modify_reqc
  | |- wp (modify_reqc ?p _) _ _ => destruct p eqn:?
  | |- wp (modify_sub_request _) _ _ => unfold modify_sub_request; apply wp_modify_dev
  | |- wp (set_thread_status _) _ _ => unfold set_thread_status; apply wp_modify_dev
  | |- wp (call_rc _) _ _ => apply wp_call_rc; intros ?r
  | |- wp (call _) _ _ => apply wp_call; intros ?r
  | |- wp (queue_error_response _ _) _ _ =>
      unfold queue_error_response; apply wp_call_rc; intros ?r
  | |- wp (set_op_status _) _ _ => apply wp_set_op_status
  | |- wp (if ?b then _ else _) _ _ => destruct b eqn:?
  | |- wp (match ?x with Some _ => _ | None => _ end) _ _ => destruct x eqn:?
  | |- wp (let '(_, _) := ?x in _) _ _ => destruct x eqn:?
  end.

Ltac wp_steps :=
  repeat (wp_step; cbn beta iota; cbn [w_dev w_reqs w_running w_env w_trace]).

(** Use a lemma [L : forall w, ..., wp f Q w] for the call at the head. *)
Ltac wp_use L :=
  lazymatch goal with
  | |- wp (bind _ _) _ _ => apply wp_bind; eapply wp_mono; [eapply L | cbn beta; intros]
  | |- _ => eapply wp_mono; [eapply L | cbn beta; intros]
  end.

(** Run a tactic on the goals that are no longer in [wp] form. *)
Ltac on_leaves tac :=
  lazymatch goal with
  | |- wp _ _ _ => idtac
  | |- _ => tac
  end.

(** ** Draining the sync list *)

Lemma error_responses_cons req e t :
  error_responses req (e :: t) =
    ((if is_error_response_for req e then 1 else 0) + error_responses req t)%nat.
Proof. unfold error_responses. simpl. destruct (is_error_response_for req e); reflexivity. Qed.

Lemma strdup_all_frame names req w :
  wp (strdup_all names)
     (fun _ w' => w_dev w' = w_dev w /\ w_reqs w' = w_reqs w /\
                  error_responses req (w_trace w') = error_responses req (w_trace w)) w.
Proof.
  revert w. induction names as [|n names IH]; intros w; simpl.
  - apply wp_ret. auto.
  - wp_steps.
    + simpl. rewrite error_responses_cons. simpl. auto.
    + eapply wp_mono; [apply IH|]. simpl. intros _ w' (-> & -> & ->).
      rewrite error_responses_cons. simpl. auto.
Qed.

Lemma queue_release_response_frame req' req w :
  req' <> req ->
  wp (queue_release_response req')
     (fun _ w' => w_dev w' = w_dev w /\ w_reqs w' = w_reqs w /\
                  error_responses req (w_trace w') = error_responses req (w_trace w)) w.
Proof.
  intros Hne. unfold queue_release_response.
  assert (Hf : forall rc r, is_error_response_for req
                 (EvCall (QueueErrorResponse rc req') r) = false).
  { intros. simpl. apply bool_decide_eq_false. assumption. }
  wp_steps;
    on_leaves ltac:(cbn [w_dev w_reqs w_trace]; rewrite ?error_responses_cons, ?Hf; auto).
  wp_use strdup_all_frame.
  destruct H as (Hd & Hr & He). cbn [w_dev w_reqs w_trace] in *.
  wp_steps; cbn [w_dev w_reqs w_trace];
    rewrite ?error_responses_cons, ?Hf, ?He, ?error_responses_cons; auto.
Qed.

Lemma release_rc_of_alter_ne i j f w :
  i <> j ->
  release_rc_of i (World (w_dev w) (alter f j (w_reqs w)) (w_running w) (w_env w)
                         (w_trace w)) = release_rc_of i w.
Proof.
  intros Hne. unfold release_rc_of, reqc_deref. cbn [w_reqs].
  rewrite lookup_alter_ne by congruence. reflexivity.
Qed.

Lemma recorded_refl rc i w : recorded_at_most_once rc i w w.
Proof. left. auto. Qed.

Lemma recorded_trans rc i w1 w2 w3 :
  rc <> 0 ->
  recorded_at_most_once rc i w1 w2 -> recorded_at_most_once rc i w2 w3 ->
  recorded_at_most_once rc i w1 w3.
Proof.
  unfold recorded_at_most_once.
  intros Hrc [[E1 R1] | (E1 & Z1 & R1)] [[E2 R2] | (E2 & Z2 & R2)].
  - left. split; congruence.
  - right. repeat split; congruence.
  - right. repeat split; congruence.
  - congruence.
Qed.

(** A turn of the loop on a sub-request of another container leaves the
    container [i] alone. *)
Lemma clean_tosync_step_other rc req internal i w :
  reqc req <> Some i ->
  wp (clean_tosync_step rc req internal)
     (fun _ w' => w_dev w' = w_dev w /\
                  w_reqs w' !! i = w_reqs w !! i /\
                  error_responses (Some i) (w_trace w') =
                    error_responses (Some i) (w_trace w)) w.
Proof.
  intros Hne. unfold clean_tosync_step, sub_request_free.
  destruct req as [p idx fom]. cbn [reqc medium_index] in *.
  assert (Hf : forall c r, is_error_response_for (Some i)
                 (EvCall (QueueErrorResponse c p) r) = false).
  { intros. simpl. apply bool_decide_eq_false. assumption. }
  destruct p as [j|];
    wp_steps;
    on_leaves ltac:(cbn [w_dev w_reqs w_trace];
                    rewrite ?error_responses_cons, ?Hf, ?lookup_alter_ne by congruence;
                    auto).
  all: wp_use queue_release_response_frame; [eassumption|].
  all: destruct H as (Hd' & Hr' & He'); wp_steps; cbn [w_dev w_reqs w_trace] in *;
    rewrite ?error_responses_cons, ?Hd', ?Hr', ?He'; cbn [w_dev w_reqs w_trace];
    rewrite ?error_responses_cons, ?Hf, ?lookup_alter_ne by congruence; auto.
Qed.

(** A turn of the loop with an error code on a sub-request of the container
    [i]: the code is recorded and an error response queued only if the
    container had no error yet. *)
Lemma clean_tosync_step_same rc idx fom internal i rq w :
  rc <> 0 ->
  w_reqs w !! i = Some rq ->
  wp (clean_tosync_step rc (SubRequest (Some i) idx fom) internal)
     (fun _ w' => w_dev w' = w_dev w /\
                  is_Some (w_reqs w' !! i) /\
                  recorded_at_most_once rc i w w') w.
Proof.
  intros Hrc Hrq. unfold clean_tosync_step, sub_request_free.
  cbn [reqc medium_index].
  apply Z.eqb_neq in Hrc. rewrite Hrc. cbn [negb andb].
  wp_steps.
  all: unfold recorded_at_most_once, release_rc_of in *;
       cbn [reqc_deref w_reqs w_dev w_trace] in *;
       rewrite ?lookup_alter_eq, ?Hrq in *;
       cbn [fmap option_fmap option_map default] in *; unfold id in *;
       cbn [w_dev w_reqs w_trace p_release reqc_with_release release_with_status
            release_with_rc rel_rc] in *.
  all: try congruence.
  all: rewrite ?error_responses_cons; cbn [is_error_response_for];
       rewrite ?bool_decide_eq_true_2 by reflexivity.
  all: split; [reflexivity|]; split; [eexists; reflexivity|].
  all: first [ left; split; [reflexivity | congruence]
             | right; apply Z.eqb_eq in Heqb; auto ].
Qed.

Lemma clean_tosync_step_recorded rc req internal i w :
  rc <> 0 ->
  is_Some (w_reqs w !! i) ->
  wp (clean_tosync_step rc req internal)
     (fun _ w' => is_Some (w_reqs w' !! i) /\ recorded_at_most_once rc i w w') w.
Proof.
  intros Hrc [rq Hrq].
  destruct (decide (reqc req = Some i)) as [He | Hne].
  - destruct req as [p idx fom]. cbn [reqc] in He. subst p.
    eapply wp_mono; [eapply clean_tosync_step_same; eassumption|].
    cbn beta. tauto.
  - eapply wp_mono; [eapply clean_tosync_step_other; eassumption|].
    cbn beta. intros _ w' (_ & Hl & He). split.
    + rewrite Hl, Hrq. eauto.
    + left. split; [assumption|]. unfold release_rc_of, reqc_deref. rewrite Hl. reflexivity.
Qed.

Lemma clean_tosync_loop_recorded rc i todo : forall internal w,
  rc <> 0 ->
  is_Some (w_reqs w !! i) ->
  wp (clean_tosync_loop rc todo internal)
     (fun _ w' => is_Some (w_reqs w' !! i) /\ recorded_at_most_once rc i w w') w.
Proof.
  induction todo as [|req rest IH]; intros internal w Hrc Hs; cbn [clean_tosync_loop].
  - apply wp_ret. split; [assumption | apply recorded_refl].
  - wp_steps.
    wp_use clean_tosync_step_recorded; [assumption | exact Hs |].
    destruct H as [Hs' Hr'].
    eapply wp_mono; [apply IH; assumption|]. cbn beta.
    intros _ w'' [Hs'' Hr'']. split; [assumption|].
    eapply recorded_trans; [assumption | | exact Hr''].
    exact Hr'.
Qed.

(** The loop touches the device only through the array it empties. *)

Lemma strdup_all_dev names w :
  wp (strdup_all names) (fun _ w' => w_dev w' = w_dev w) w.
Proof.
  eapply wp_mono; [apply (strdup_all_frame names None)|]. cbn beta. tauto.
Qed.

Lemma queue_release_response_dev req w :
  wp (queue_release_response req) (fun _ w' => w_dev w' = w_dev w) w.
Proof.
  unfold queue_release_response.
  wp_steps; on_leaves ltac:(reflexivity).
  wp_use strdup_all_dev. wp_steps; assumption.
Qed.

Lemma clean_tosync_step_dev rc req internal w :
  wp (clean_tosync_step rc req internal) (fun _ w' => w_dev w' = w_dev w) w.
Proof.
  unfold clean_tosync_step, sub_request_free.
  destruct req as [[j|] idx fom]; cbn [reqc medium_index];
    wp_steps; on_leaves ltac:(reflexivity).
  all: wp_use queue_release_response_dev; wp_steps; assumption.
Qed.

Lemma dev_with_sync_params_twice p1 p2 d :
  dev_with_sync_params p2 (dev_with_sync_params p1 d) = dev_with_sync_params p2 d.
Proof. reflexivity. Qed.

Lemma clean_tosync_loop_dev rc todo : forall internal w,
  tosync_array (ld_sync_params (w_dev w)) = rev todo ->
  wp (clean_tosync_loop rc todo internal)
     (fun _ w' =>
        w_dev w' = dev_with_sync_params
                     (sync_with_array [] (ld_sync_params (w_dev w))) (w_dev w)) w.
Proof.
  induction todo as [|req rest IH]; intros internal w Harr; cbn [clean_tosync_loop].
  - apply wp_ret. destruct w as [d ? ? ? ?]. cbn [w_dev] in *.
    destruct d as [? ? ? ? ? ? ? ? ? ? sp ? ?]. cbn in *.
    destruct sp as [a ? ?]. cbn in *. subst a. reflexivity.
  - wp_steps.
    wp_use clean_tosync_step_dev.
    eapply wp_mono; [apply IH|].
    + rewrite H. reflexivity.
    + cbn beta. intros _ w'' ->. rewrite H. reflexivity.
Qed.

(** [clean_tosync_array] leaves the device as it was, except for the sync
    list, which is drained, and the needs-sync flag, which is cleared. *)
Lemma clean_tosync_array_dev rc w :
  wp (clean_tosync_array rc)
     (fun _ w' =>
        w_dev w' = dev_with_needs_sync false
                     (dev_with_sync_params (SyncParams [] ts_zero 0) (w_dev w))) w.
Proof.
  unfold clean_tosync_array. wp_steps.
  wp_use clean_tosync_loop_dev; [symmetry; apply rev_involutive|].
  wp_steps. rewrite H. reflexivity.
Qed.

Lemma clean_tosync_array_recorded rc i w :
  rc <> 0 ->
  is_Some (w_reqs w !! i) ->
  wp (clean_tosync_array rc)
     (fun _ w' => is_Some (w_reqs w' !! i) /\ recorded_at_most_once rc i w w') w.
Proof.
  intros Hrc Hs. unfold clean_tosync_array. wp_steps.
  wp_use clean_tosync_loop_recorded; [assumption | exact Hs|].
  wp_steps. exact H.
Qed.

(** C10.  Every call to [clean_tosync_array], with a zero or a non-zero
    code, leaves the sync state of the device drained: the array is empty,
    [tosync_size] is 0, [oldest_tosync] is reset and the needs-sync flag is
    false.  With a non-zero code, for every request container of the store
    the call either leaves its error code alone and queues no error
    response for it, or, when that code was still zero, records the code
    and queues exactly one error response. *)
Theorem clean_tosync_array_drains (rc : Z) (w : world) :
  let w' := snd (clean_tosync_array rc w) in
  (tosync_array (ld_sync_params (w_dev w')) = [] /\
   tosync_size (ld_sync_params (w_dev w')) = 0 /\
   oldest_tosync (ld_sync_params (w_dev w')) = ts_zero /\
   ld_needs_sync (w_dev w') = false) /\
  (rc <> 0 -> forall i, is_Some (w_reqs w !! i) ->
     recorded_at_most_once rc i w w' /\
     (error_responses (Some i) (w_trace w')
      <= S (error_responses (Some i) (w_trace w)))%nat).
Proof.
  intros w'. subst w'. split.
  - pose proof (wp_run _ _ _ (clean_tosync_array_dev rc w)) as H.
    cbn beta in H. rewrite H. repeat split.
  - intros Hrc i Hs.
    pose proof (wp_run _ _ _ (clean_tosync_array_recorded rc i w Hrc Hs)) as [_ H].
    split; [exact H|].
    destruct H as [[-> _] | (-> & _)]; lia.
Qed.

Lemma clean_tosync_array_drains_witness :
  recorded_at_most_once (-5) 1 world_two_tosync
    (snd (clean_tosync_array (-5) world_two_tosync)) /\
  error_responses (Some 1%nat)
    (w_trace (snd (clean_tosync_array (-5) world_two_tosync))) = 1%nat.
Proof.
  split.
  - apply (clean_tosync_array_drains (-5) world_two_tosync);
      [lia | vm_compute; eauto].
  - vm_compute. reflexivity.
Defined.

(** ** DSS update of the medium on sync *)

(** C7.  In [lrs_dev_media_update], when the filesystem adapter is found and
    [df] succeeds, the medium takes the free space [df] reports and is
    written to the DSS with [PHYS_SPC_FREE] in the field mask; when that
    free space is zero the medium written, which is also the one kept in
    memory, has fs-status FULL and [FS_STATUS] is in the mask.  Hence after
    the update [phys_spc_free = 0] implies [fs_status = FULL]. *)
Theorem lrs_dev_media_update_full (m : media_info) (size_written media_rc : Z)
    (fsroot : string) (nb_new_obj : Z) (w : world) :
  let t := length (w_trace w) in
  let adapter := w_env w t (GetFsAdapter (m_fs_type m)) in
  let df := w_env w (S t) (LdmFsDf fsroot) in
  let m' := snd (fst (lrs_dev_media_update m size_written media_rc fsroot nb_new_obj w)) in
  let w' := snd (lrs_dev_media_update m size_written media_rc fsroot nb_new_obj w) in
  res_rc adapter = 0 -> res_rc df = 0 ->
  m_phys_spc_free m' = spc_avail (res_space df) /\
  (exists fields r,
     w_trace w' = EvCall (DssMediaSet m' fields) r
                    :: EvCall (LdmFsDf fsroot) df
                    :: EvCall (GetFsAdapter (m_fs_type m)) adapter :: w_trace w /\
     In PHYS_SPC_FREE fields /\
     (spc_avail (res_space df) = 0 ->
        m_fs_status m' = PHO_FS_STATUS_FULL /\ In FS_STATUS fields)) /\
  (m_phys_spc_free m' = 0 -> m_fs_status m' = PHO_FS_STATUS_FULL).
Proof.
  intros t adapter df m' w' Ha Hdf. subst m' w' t adapter df.
  unfold lrs_dev_media_update.
  destruct (bool_decide (m_fs_status m = PHO_FS_STATUS_EMPTY) && (media_rc =? 0));
    mstep; rewrite Ha; simpl; rewrite Hdf; simpl;
    destruct (Z.eqb_spec
                (spc_avail (res_space (w_env w (S (length (w_trace w))) (LdmFsDf fsroot))))
                0) as [Hz | Hz]; simpl;
    destruct (media_rc =? 0); simpl;
    destruct (nb_new_obj =? 0); simpl;
    destruct (size_written =? 0); simpl;
    (split; [reflexivity|]);
    (split; [eexists; eexists; split; [reflexivity|];
             split; [simpl; auto 10|];
             intros Hz'; try congruence;
             (split; [reflexivity | simpl; auto 10])
            | intros; try congruence; reflexivity]).
Qed.

Lemma lrs_dev_media_update_full_witness :
  m_fs_status
    (snd (fst (lrs_dev_media_update sample_medium 4096 0 "/mnt/phobos-st0" 1
                 (sample_world dev_one_tosync ∅ (env_full (Timespec 100 0))))))
  = PHO_FS_STATUS_FULL.
Proof.
  apply (lrs_dev_media_update_full sample_medium 4096 0 "/mnt/phobos-st0" 1
           (sample_world dev_one_tosync ∅ (env_full (Timespec 100 0))));
    reflexivity.
Defined.

(** ** Footprints *)

Lemma extends_trans F t1 t2 t3 :
  extends F t1 t2 -> extends F t2 t3 -> extends F t1 t3.
Proof. intros H12 H23. induction H23; [assumption | constructor; assumption]. Qed.

Lemma extends_weaken (F G : event -> bool) t t' :
  (forall e, F e = true -> G e = true) -> extends F t t' -> extends G t t'.
Proof. intros HFG H. induction H; constructor; auto. Qed.

Lemma extends_only_weaken cs cs' t t' :
  classes_incl cs cs' = true -> extends (only cs) t t' -> extends (only cs') t t'.
Proof.
  intros Hi. apply extends_weaken. intros e He.
  unfold only in *. apply bool_decide_eq_true in He. apply bool_decide_eq_true.
  unfold classes_incl in Hi. rewrite forallb_forall in Hi.
  apply list_elem_of_In in He. specialize (Hi _ He).
  apply bool_decide_eq_true in Hi. exact Hi.
Qed.

Lemma extends_app F t t' : extends F t t' -> exists new, t' = new ++ t /\ Forall (fun e => F e = true) new.
Proof.
  induction 1 as [|e t' He H (new & -> & Hn)].
  - exists []. auto.
  - exists (e :: new). auto.
Qed.

Lemma extends_filter_out F (sel : event -> bool) t t' :
  (forall e, F e = true -> sel e = false) ->
  extends F t t' -> List.filter sel t' = List.filter sel t.
Proof.
  intros Hd H. induction H as [|e t' He H IH]; [reflexivity|].
  simpl. rewrite (Hd e He). assumption.
Qed.

Lemma extends_trace_ok cs t t' :
  bool_decide (CL_OP ∈ cs) = false ->
  extends (only cs) t t' -> trace_ok t -> trace_ok t'.
Proof.
  intros Hop H Ht. induction H as [|e t' He H IH]; [assumption|].
  destruct e as [c r | a b]; [constructor; assumption|].
  unfold only in He. simpl in He. congruence.
Qed.

Lemma extends_returned_before cs old new t t' :
  bool_decide (CL_OP ∈ cs) = false ->
  extends (only cs) t t' ->
  returned_before old new t = true -> returned_before old new t' = true.
Proof.
  intros Hop H Ht. induction H as [|e t' He H IH]; [assumption|].
  destruct e as [c r | a b].
  - cbn [returned_before]. rewrite IH. apply orb_true_r.
  - unfold only in He. simpl in He. congruence.
Qed.

(** Close a footprint goal: new events are checked by computation, the rest
    is chained through the footprints in the context. *)
Ltac solve_extends :=
  cbn [w_trace];
  repeat (apply extends_cons; [reflexivity|]);
  first
    [ apply extends_refl
    | match goal with
      | H : extends _ ?t0 ?t1 |- extends _ _ ?t1 =>
          eapply extends_trans;
          [| eapply extends_only_weaken; [|exact H]; reflexivity];
          solve_extends
      end ].

(** ** Frames of the bookkeeping functions *)

Lemma bookkeeping_refl w : bookkeeping w w.
Proof. split; [reflexivity | apply extends_refl]. Qed.

Lemma bookkeeping_trans w1 w2 w3 :
  bookkeeping w1 w2 -> bookkeeping w2 w3 -> bookkeeping w1 w3.
Proof.
  intros [E1 T1] [E2 T2]. split; [congruence | eapply extends_trans; eassumption].
Qed.

Lemma erase_requests_sub s d :
  erase_requests (dev_with_sub_request s d) = erase_requests d.
Proof. reflexivity. Qed.

Lemma erase_requests_sync p d :
  erase_requests (dev_with_sync_params p d) = erase_requests d.
Proof. reflexivity. Qed.

Lemma erase_requests_needs b d :
  erase_requests (dev_with_needs_sync b d) = erase_requests d.
Proof. reflexivity. Qed.

Ltac erase_norm :=
  cbn [w_dev] in *;
  rewrite ?erase_requests_sub, ?erase_requests_sync, ?erase_requests_needs in *.

Ltac solve_erase :=
  erase_norm;
  repeat first
    [ reflexivity
    | match goal with
      | H : erase_requests _ = erase_requests ?d |- _ = erase_requests ?d =>
          etransitivity; [| exact H]
      end ].

Ltac solve_bookkeeping :=
  repeat match goal with
         | H : _ /\ bookkeeping _ _ |- _ => destruct H as [_ H]
         | H : bookkeeping _ _ |- _ =>
             destruct H as [? ?]; cbn [w_dev w_trace] in *
         end;
  split; [solve_erase | solve_extends].

Lemma strdup_all_book names w :
  wp (strdup_all names) (fun _ w' => w_reqs w' = w_reqs w /\ bookkeeping w w') w.
Proof.
  revert w. induction names as [|n names IH]; intros w; cbn [strdup_all].
  - apply wp_ret. split; [reflexivity | apply bookkeeping_refl].
  - wp_steps.
    + split; [reflexivity | solve_bookkeeping].
    + eapply wp_mono; [apply IH|]. cbn beta. intros _ w' [Hr Hb].
      split; [exact Hr | solve_bookkeeping].
Qed.

Lemma queue_release_response_book req w :
  wp (queue_release_response req)
     (fun _ w' => w_reqs w' = w_reqs w /\ bookkeeping w w') w.
Proof.
  unfold queue_release_response.
  wp_steps; on_leaves ltac:(split; [reflexivity | solve_bookkeeping]).
  wp_use strdup_all_book. destruct H as [Hr Hb].
  wp_steps; (split; [exact Hr | solve_bookkeeping]).
Qed.

Lemma queue_format_response_book req w :
  wp (queue_format_response req)
     (fun _ w' => w_reqs w' = w_reqs w /\ bookkeeping w w') w.
Proof.
  unfold queue_format_response.
  wp_steps; (split; [reflexivity | solve_bookkeeping]).
Qed.

Lemma sub_request_free_book sr w :
  wp (sub_request_free sr)
     (fun _ w' => w_reqs w' = w_reqs w /\ bookkeeping w w') w.
Proof.
  unfold sub_request_free. destruct sr; wp_steps;
    (split; [reflexivity | solve_bookkeeping]).
Qed.

Lemma clean_tosync_step_book rc req internal w :
  wp (clean_tosync_step rc req internal) (fun _ w' => bookkeeping w w') w.
Proof.
  unfold clean_tosync_step, sub_request_free.
  destruct req as [[j|] idx fom]; cbn [reqc medium_index];
    wp_steps; on_leaves ltac:(solve_bookkeeping).
  all: wp_use queue_release_response_book; destruct H as [_ Hb];
    wp_steps; solve_bookkeeping.
Qed.

Lemma clean_tosync_loop_book rc todo : forall internal w,
  wp (clean_tosync_loop rc todo internal) (fun _ w' => bookkeeping w w') w.
Proof.
  induction todo as [|req rest IH]; intros internal w; cbn [clean_tosync_loop].
  - apply wp_ret. apply bookkeeping_refl.
  - wp_steps. wp_use clean_tosync_step_book.
    eapply wp_mono; [apply IH|]. cbn beta. intros. solve_bookkeeping.
Qed.

Lemma clean_tosync_array_book rc w :
  wp (clean_tosync_array rc) (fun _ w' => bookkeeping w w') w.
Proof.
  unfold clean_tosync_array. wp_steps. wp_use clean_tosync_loop_book.
  wp_steps. solve_bookkeeping.
Qed.

Lemma locked_cancel_rwalloc_on_error_book sr w :
  wp (locked_cancel_rwalloc_on_error sr) (fun _ w' => bookkeeping w w') w.
Proof.
  unfold locked_cancel_rwalloc_on_error.
  destruct sr as [[j|] idx fom]; cbn [reqc medium_index];
    wp_steps; solve_bookkeeping.
Qed.

Lemma cancel_subrequest_on_error_book w :
  wp cancel_subrequest_on_error (fun _ w' => bookkeeping w w') w.
Proof.
  unfold cancel_subrequest_on_error.
  wp_steps; on_leaves ltac:(solve_bookkeeping).
  wp_use locked_cancel_rwalloc_on_error_book.
  wp_steps; solve_bookkeeping.
Qed.

Lemma fill_rwalloc_resp_container_book sr w :
  wp (fill_rwalloc_resp_container sr) (fun _ w' => bookkeeping w w') w.
Proof.
  unfold fill_rwalloc_resp_container.
  destruct sr as [[j|] idx fom]; cbn [reqc medium_index];
    wp_steps; solve_bookkeeping.
Qed.

Lemma rwalloc_result_out_free_book req index free_medium ended w :
  wp (rwalloc_result_out_free req index free_medium ended)
     (fun _ w' => bookkeeping w w') w.
Proof.
  unfold rwalloc_result_out_free.
  destruct req as [j|]; wp_steps; solve_bookkeeping.
Qed.

Lemma rwalloc_result_try_send_book req index rc w :
  wp (rwalloc_result_try_send req index rc) (fun _ w' => bookkeeping w w') w.
Proof.
  unfold rwalloc_result_try_send.
  destruct req as [j|]; wp_steps;
    wp_use rwalloc_result_out_free_book; solve_bookkeeping.
Qed.

Lemma rwalloc_cancel_DONE_devices_book req w :
  wp (rwalloc_cancel_DONE_devices req) (fun _ w' => bookkeeping w w') w.
Proof.
  unfold rwalloc_cancel_DONE_devices.
  destruct req as [j|]; wp_steps; solve_bookkeeping.
Qed.

Lemma handle_rwalloc_sub_request_result_book rc w :
  wp (handle_rwalloc_sub_request_result rc) (fun _ w' => bookkeeping w w') w.
Proof.
  unfold handle_rwalloc_sub_request_result.
  wp_steps. wp_use locked_cancel_rwalloc_on_error_book.
  destruct a as [canceled ended].
  destruct canceled.
  - wp_use rwalloc_result_out_free_book. wp_steps. solve_bookkeeping.
  - destruct (reqc (pending_sub_request (w_dev w))) as [j|] eqn:Hp;
      wp_steps;
      repeat first
        [ wp_use fill_rwalloc_resp_container_book
        | wp_use rwalloc_result_try_send_book
        | wp_use rwalloc_result_out_free_book
        | wp_use rwalloc_cancel_DONE_devices_book
        | progress wp_steps ];
      solve_bookkeeping.
Qed.

Lemma update_queue_oldest_tosync_book w :
  wp update_queue_oldest_tosync (fun _ w' => bookkeeping w w') w.
Proof.
  unfold update_queue_oldest_tosync. apply wp_bind, wp_get_dev.
  destruct (tosync_array (ld_sync_params (w_dev w))) as [|s l].
  - apply wp_modify_dev. solve_bookkeeping.
  - unfold wp, modify_dev. cbn [fst snd]. solve_bookkeeping.
Qed.

Lemma remove_canceled_loop_book n : forall need w,
  wp (remove_canceled_loop n need) (fun _ w' => bookkeeping w w') w.
Proof.
  induction n as [|i IH]; intros need w; cbn [remove_canceled_loop].
  - apply wp_ret. apply bookkeeping_refl.
  - wp_steps.
    all: try (wp_use sub_request_free_book;
              match goal with H : _ /\ bookkeeping _ _ |- _ => destruct H as [_ H] end).
    all: (eapply wp_mono; [apply IH|]); cbn beta; intros; solve_bookkeeping.
Qed.

Lemma remove_canceled_sync_book w :
  wp remove_canceled_sync (fun _ w' => bookkeeping w w') w.
Proof.
  unfold remove_canceled_sync. wp_steps. wp_use remove_canceled_loop_book.
  wp_steps.
  - wp_use update_queue_oldest_tosync_book. solve_bookkeeping.
  - solve_bookkeeping.
Qed.

Lemma check_needs_sync_book w :
  wp check_needs_sync (fun _ w' => bookkeeping w w') w.
Proof.
  unfold check_needs_sync, is_past, clock_gettime.
  wp_steps; solve_bookkeeping.
Qed.

Lemma dev_wait_for_signal_book w :
  wp dev_wait_for_signal (fun _ w' => bookkeeping w w') w.
Proof.
  unfold dev_wait_for_signal, compute_wakeup_date, clock_gettime.
  wp_steps; solve_bookkeeping.
Qed.

(** ** Functions that leave the operational status alone *)

Lemma quiet_refl w : quiet w w.
Proof. split; [reflexivity | apply extends_refl]. Qed.

Lemma bookkeeping_quiet w w' : bookkeeping w w' -> quiet w w'.
Proof.
  intros [He Ht]. split.
  - apply (f_equal ld_op_status) in He. exact He.
  - eapply extends_only_weaken; [|exact Ht]. reflexivity.
Qed.

Lemma quiet_trace_ok w w' : quiet w w' -> trace_ok (w_trace w) -> trace_ok (w_trace w').
Proof. intros [_ Ht]. eapply extends_trace_ok; [|exact Ht]. reflexivity. Qed.

Ltac dev_norm :=
  cbn [w_dev w_trace w_reqs ld_op_status ld_dss_media_info ld_sub_request
       ld_device_thread th_status th_state ld_ongoing_io ld_last_client_rc
       ld_needs_sync ld_mnt_path ld_dss_dev_info ld_sync_params
       dev_with_op_status dev_with_dev_info dev_with_media_info
       dev_with_mnt_path dev_with_sub_request dev_with_ongoing_io
       dev_with_needs_sync dev_with_thread dev_with_sync_params
       dev_with_last_client_rc thread_with_status
       thread_with_state] in *.

Lemma store_loaded_medium_op m d :
  ld_op_status (store_loaded_medium m d) = ld_op_status d.
Proof. unfold store_loaded_medium. destruct (ld_dss_media_info d); reflexivity. Qed.

Ltac solve_op :=
  dev_norm; rewrite ?store_loaded_medium_op in *; dev_norm;
  repeat first
    [ reflexivity
    | match goal with
      | H : ld_op_status _ = ld_op_status ?d |- _ = ld_op_status ?d =>
          etransitivity; [| exact H]
      end ].

Ltac solve_quiet :=
  repeat match goal with
         | H : bookkeeping _ _ |- _ => apply bookkeeping_quiet in H
         | H : quiet _ _ |- _ => destruct H as [? ?]
         | H : _ /\ _ |- _ => destruct H as [? ?]
         end;
  split; [solve_op | solve_extends].

Lemma wrap_lib_open_quiet family w :
  wp (wrap_lib_open family)
     (fun _ w' => w_dev w' = w_dev w /\ w_reqs w' = w_reqs w /\
                  ld_op_status (w_dev w') = ld_op_status (w_dev w) /\
                  extends (only [CL_LIB]) (w_trace w) (w_trace w')) w.
Proof.
  unfold wrap_lib_open.
  destruct family; wp_steps;
    (split; [reflexivity | split; [reflexivity | split; [reflexivity | solve_extends]]]).
Qed.

Lemma dss_medium_release_quiet m w :
  wp (dss_medium_release m) (fun _ w' => w_dev w' = w_dev w /\ quiet w w') w.
Proof.
  unfold dss_medium_release. wp_steps; (split; [reflexivity | solve_quiet]).
Qed.

Lemma dss_device_release_quiet d w :
  wp (dss_device_release d) (fun _ w' => w_dev w' = w_dev w /\ quiet w w') w.
Proof.
  unfold dss_device_release. wp_steps; (split; [reflexivity | solve_quiet]).
Qed.

Lemma fail_release_free_medium_quiet m free_medium w :
  wp (fail_release_free_medium m free_medium)
     (fun _ w' => w_dev w' = w_dev w /\ quiet w w') w.
Proof.
  unfold fail_release_free_medium, dss_set_medium_to_failed, dss_medium_release.
  wp_steps; (split; [reflexivity | solve_quiet]).
Qed.

Lemma medium_sync_quiet m fsroot w :
  wp (medium_sync m fsroot) (fun _ w' => w_dev w' = w_dev w /\ quiet w w') w.
Proof.
  unfold medium_sync. wp_steps; (split; [reflexivity | solve_quiet]).
Qed.

Lemma lrs_dev_media_update_quiet m size media_rc fsroot nb w :
  wp (lrs_dev_media_update m size media_rc fsroot nb)
     (fun _ w' => w_dev w' = w_dev w /\ quiet w w') w.
Proof.
  unfold lrs_dev_media_update.
  destruct (bool_decide (m_fs_status m = PHO_FS_STATUS_EMPTY) && (media_rc =? 0));
    wp_steps;
    repeat match goal with
           | |- wp (let '(_, _) := (if ?b then _ else _) in _) _ _ => destruct b
           | |- wp (let '(_, _) := (let '(_, _) := (if ?b then _ else _) in _) in _) _ _ =>
               destruct b
           end;
    wp_steps; (split; [reflexivity | solve_quiet]).
Qed.

Lemma clean_tosync_array_quiet rc w :
  wp (clean_tosync_array rc) (fun _ w' => quiet w w') w.
Proof.
  eapply wp_mono; [apply clean_tosync_array_book|]. cbn beta. intros.
  apply bookkeeping_quiet. assumption.
Qed.

Lemma dev_sync_quiet w : wp dev_sync (fun _ w' => quiet w w') w.
Proof.
  unfold dev_sync. wp_steps.
  - wp_use medium_sync_quiet. destruct H as [Hd Hq].
    wp_use lrs_dev_media_update_quiet. destruct H as [Hd' Hq'].
    destruct a0 as [rc2 m]. wp_steps.
    wp_use clean_tosync_array_quiet. wp_steps.
    solve_quiet.
  - wp_use lrs_dev_media_update_quiet. destruct H as [Hd' Hq'].
    destruct a as [rc2 m]. wp_steps.
    wp_use clean_tosync_array_quiet. wp_steps.
    solve_quiet.
Qed.

Lemma dev_format_quiet unlock w : wp (dev_format unlock) (fun _ w' => quiet w w') w.
Proof.
  unfold dev_format. wp_steps; on_leaves ltac:(solve_quiet).
  all: destruct unlock; wp_steps; solve_quiet.
Qed.

Lemma dev_mount_is_writable_quiet fs_root t w :
  wp (dev_mount_is_writable fs_root t)
     (fun _ w' => w_dev w' = w_dev w /\ quiet w w') w.
Proof.
  unfold dev_mount_is_writable. wp_steps; (split; [reflexivity | solve_quiet]).
Qed.

Lemma cancel_pending_format_quiet w :
  wp cancel_pending_format (fun _ w' => quiet w w') w.
Proof.
  unfold cancel_pending_format, dss_medium_release, sub_request_free.
  wp_steps; solve_quiet.
Qed.

(** ** The state machine of the operational status *)

Lemma op_edge_failed a : op_edge a PHO_DEV_OP_ST_FAILED = true.
Proof. destruct a; reflexivity. Qed.

Ltac bool_hyps :=
  repeat match goal with
         | H : negb _ = true |- _ => apply negb_true_iff in H
         | H : negb _ = false |- _ => apply negb_false_iff in H
         | H : (_ && _) = true |- _ => apply andb_true_iff in H; destruct H
         | H : (_ =? _) = true |- _ => apply Z.eqb_eq in H
         | H : (_ =? _) = false |- _ => apply Z.eqb_neq in H
         | H : bool_decide _ = true |- _ => apply bool_decide_eq_true in H
         | H : bool_decide _ = false |- _ => apply bool_decide_eq_false in H
         end.

Ltac use_facts :=
  repeat match goal with
         | H : bookkeeping _ _ |- _ => apply bookkeeping_quiet in H
         | H : quiet _ _ |- _ => destruct H as [? ?]
         | H : _ /\ _ |- _ => destruct H as [? ?]
         end;
  dev_norm; rewrite ?store_loaded_medium_op in *; dev_norm.

Ltac rewrite_op :=
  repeat match goal with
         | H : ld_op_status ?d = _ |- context [ld_op_status ?d] => rewrite H
         end.

Ltac solve_op_edge :=
  first [ reflexivity | apply op_edge_failed | rewrite_op; reflexivity ].

Ltac rewrite_rc :=
  repeat match goal with
         | H : res_rc ?r = 0 |- context [res_rc ?r] => rewrite H
         end.

(** The call of the edge has returned with success: found in the new
    events, if need be behind the events of a quiet function. *)
Ltac returned_chain :=
  first
    [ solve [cbn [returned_before realises andb orb]; rewrite_rc; reflexivity]
    | match goal with
      | H : extends _ ?t0 ?t1 |- returned_before _ _ ?t1 = true =>
          refine (extends_returned_before _ _ _ t0 t1 _ H _);
          [reflexivity | returned_chain]
      end ].

Ltac solve_returned :=
  first [ left; reflexivity
        | right; bool_hyps; rewrite_op; returned_chain ].

Ltac ok_chain :=
  repeat first
    [ apply ok_call
    | apply ok_write; [solve_op_edge | solve_returned |] ];
  first
    [ assumption
    | match goal with
      | H : extends _ ?t0 ?t1 |- trace_ok ?t1 =>
          refine (extends_trace_ok _ t0 t1 _ H _); [reflexivity | ok_chain]
      end ].

Ltac solve_ok := use_facts; ok_chain.

Ltac split_ifs :=
  unfold elvis in *;
  repeat match goal with
         | H : context [if ?b then _ else _] |- _ => destruct b eqn:?
         end.

Ltac solve_op_post :=
  use_facts; bool_hyps; intros; unfold EINVAL, EBUSY, ENOMEM, ENOSPC in *;
  first [ reflexivity | congruence | lia
        | rewrite_op; first [reflexivity | congruence]
        | split_ifs; bool_hyps;
          first [ congruence | lia | rewrite_op; first [reflexivity | congruence] ] ].

Lemma dev_umount_ok w :
  trace_ok (w_trace w) ->
  ld_op_status (w_dev w) = PHO_DEV_OP_ST_MOUNTED ->
  wp dev_umount
     (fun rc w' => trace_ok (w_trace w') /\
                   (rc = 0 -> ld_op_status (w_dev w') = PHO_DEV_OP_ST_LOADED)) w.
Proof.
  intros Hok Hop. unfold dev_umount.
  wp_steps; on_leaves ltac:(split; [solve_ok | solve_op_post]).
  wp_use clean_tosync_array_quiet.
  wp_steps; (split; [solve_ok | solve_op_post]).
Qed.

Lemma dev_unload_ok w :
  trace_ok (w_trace w) ->
  ld_op_status (w_dev w) = PHO_DEV_OP_ST_LOADED ->
  wp dev_unload
     (fun rc w' => trace_ok (w_trace w') /\
                   (rc = 0 -> ld_op_status (w_dev w') = PHO_DEV_OP_ST_EMPTY)) w.
Proof.
  intros Hok Hop. unfold dev_unload.
  wp_steps. wp_use wrap_lib_open_quiet.
  wp_steps; on_leaves ltac:(split; [solve_ok | solve_op_post]).
  all: try wp_use dss_medium_release_quiet.
  all: wp_steps; (split; [solve_ok | solve_op_post]).
Qed.

Lemma dev_empty_ok w :
  trace_ok (w_trace w) ->
  wp dev_empty
     (fun rc w' => trace_ok (w_trace w') /\
                   (rc = 0 -> ld_op_status (w_dev w') = PHO_DEV_OP_ST_EMPTY)) w.
Proof.
  intros Hok. unfold dev_empty.
  wp_steps; on_leaves ltac:(split; [solve_ok | solve_op_post]).
  - bool_hyps. wp_use dev_umount_ok; [assumption | assumption |].
    destruct H as [Hok' Hop'].
    wp_steps; on_leaves ltac:(split; [solve_ok | solve_op_post]).
    bool_hyps. wp_use dev_unload_ok; [assumption | assumption |]. assumption.
  - bool_hyps. eapply wp_mono; [apply dev_unload_ok; assumption|].
    cbn beta. tauto.
Qed.

Lemma dev_load_out_close_ok rc fd fm cr medium w :
  trace_ok (w_trace w) ->
  wp (dev_load_out_close rc fd fm cr medium)
     (fun lr w' => trace_ok (w_trace w') /\
                   (lr_rc lr = 0 ->
                    rc = 0 /\ ld_op_status (w_dev w') = ld_op_status (w_dev w))) w.
Proof.
  intros Hok. unfold dev_load_out_close.
  wp_steps; (split; [solve_ok |]); cbn [lr_rc]; bool_hyps; unfold elvis.
  - destruct (Z.eqb_spec rc 0); intros; [congruence | contradiction].
  - auto.
Qed.

Lemma dev_load_ok m release free_medium w :
  trace_ok (w_trace w) ->
  ld_op_status (w_dev w) = PHO_DEV_OP_ST_EMPTY ->
  wp (dev_load m release free_medium)
     (fun lr w' => trace_ok (w_trace w') /\
                   (lr_rc lr = 0 -> ld_op_status (w_dev w') = PHO_DEV_OP_ST_LOADED)) w.
Proof.
  intros Hok Hop. unfold dev_load.
  wp_steps. wp_use wrap_lib_open_quiet.
  wp_steps; on_leaves ltac:(split; [solve_ok | cbn [lr_rc]; solve_op_post]).
  all: try wp_use dss_medium_release_quiet.
  all: try wp_use fail_release_free_medium_quiet.
  all: wp_steps; on_leaves ltac:(split; [solve_ok | cbn [lr_rc]; solve_op_post]).
  all: (eapply wp_mono; [apply dev_load_out_close_ok; solve_ok|]);
    cbn beta; intros lr w2 [Hok2 Hrc2];
    (split; [assumption|]); intros Hz; destruct (Hrc2 Hz) as [Hz' Hop2];
    use_facts; bool_hyps; unfold EBUSY in *; try lia; try congruence.
Qed.

Lemma dev_mount_ok w :
  trace_ok (w_trace w) ->
  ld_op_status (w_dev w) = PHO_DEV_OP_ST_LOADED ->
  wp dev_mount
     (fun rc w' => trace_ok (w_trace w') /\
                   (rc = 0 -> ld_op_status (w_dev w') = PHO_DEV_OP_ST_MOUNTED) /\
                   (rc <> 0 -> ld_op_status (w_dev w') = PHO_DEV_OP_ST_LOADED)) w.
Proof.
  intros Hok Hop. unfold dev_mount.
  wp_steps; (split; [solve_ok | split; solve_op_post]).
Qed.

Lemma dev_handle_format_out_quiet rc m w :
  wp (dev_handle_format_out rc m) (fun _ w' => quiet w w') w.
Proof.
  unfold dev_handle_format_out, sub_request_free.
  wp_steps; solve_quiet.
Qed.

Lemma dev_handle_format_out_response_quiet rc req m w :
  wp (dev_handle_format_out_response rc req m) (fun _ w' => quiet w w') w.
Proof.
  unfold dev_handle_format_out_response.
  wp_steps.
  - wp_use dev_handle_format_out_quiet. solve_quiet.
  - wp_use queue_format_response_book.
    wp_use dev_handle_format_out_quiet. solve_quiet.
Qed.

Lemma dev_handle_read_write_out_free_quiet rc io_ended requeued fod w :
  wp (dev_handle_read_write_out_free rc io_ended requeued fod)
     (fun _ w' => quiet w w') w.
Proof.
  unfold dev_handle_read_write_out_free, sub_request_free.
  wp_steps;
    repeat match goal with
           | |- wp (match sub_request_with_reqc None <$> ?x with _ => _ end) _ _ =>
               destruct x; cbn [fmap option_fmap option_map]
           end;
    wp_steps; solve_quiet.
Qed.

Lemma dev_handle_read_write_alloc_result_quiet rc io_ended fod w :
  wp (dev_handle_read_write_alloc_result rc io_ended fod)
     (fun _ w' => quiet w w') w.
Proof.
  unfold dev_handle_read_write_alloc_result.
  wp_use handle_rwalloc_sub_request_result_book.
  destruct a as [[rc2 requeued] cancel].
  destruct (negb (rc2 =? 0) && negb fod);
    wp_use dev_handle_read_write_out_free_quiet; solve_quiet.
Qed.

Lemma dev_handle_read_write_mounted_quiet w :
  wp dev_handle_read_write_mounted (fun _ w' => quiet w w') w.
Proof.
  unfold dev_handle_read_write_mounted.
  wp_steps; on_leaves ltac:(solve_quiet).
  all: try wp_use dev_mount_is_writable_quiet.
  all: wp_steps; on_leaves ltac:(solve_quiet).
  all: wp_use dev_handle_read_write_alloc_result_quiet; solve_quiet.
Qed.

(** Calls to functions whose frame is known. *)
Ltac quiet_call :=
  first
    [ wp_use dev_format_quiet
    | wp_use dev_handle_read_write_mounted_quiet
    | wp_use dev_handle_format_out_response_quiet
    | wp_use dev_handle_format_out_quiet
    | wp_use dev_handle_read_write_alloc_result_quiet
    | wp_use dev_handle_read_write_out_free_quiet
    | wp_use fail_release_free_medium_quiet
    | wp_use dev_mount_is_writable_quiet
    | wp_use dss_medium_release_quiet
    | wp_use dss_device_release_quiet
    | wp_use cancel_subrequest_on_error_book
    | wp_use remove_canceled_sync_book
    | wp_use check_needs_sync_book
    | wp_use dev_wait_for_signal_book
    | wp_use clean_tosync_array_quiet
    | wp_use cancel_pending_format_quiet
    | wp_use sub_request_free_book
    | wp_use dev_sync_quiet ].

Ltac solve_pre_op :=
  use_facts; bool_hyps;
  first [ assumption | solve [auto] | rewrite_op; solve [auto] | congruence ].

(** Calls to the device operations, with their preconditions. *)
Ltac op_call :=
  first
    [ wp_use dev_empty_ok; [solve_ok |]
    | wp_use dev_load_ok; [solve_ok | solve_pre_op |]
    | wp_use dev_mount_ok; [solve_ok | solve_pre_op |]
    | wp_use dev_umount_ok; [solve_ok | solve_pre_op |]
    | wp_use dev_unload_ok; [solve_ok | solve_pre_op |] ].

Ltac ok_auto :=
  repeat first [ progress wp_steps | quiet_call | op_call ];
  on_leaves ltac:(solve_ok).

Lemma dev_handle_format_ok w :
  trace_ok (w_trace w) ->
  wp dev_handle_format (fun _ w' => trace_ok (w_trace w')) w.
Proof. intros Hok. unfold dev_handle_format. ok_auto. Qed.

Lemma dev_handle_read_write_mount_ok w :
  trace_ok (w_trace w) ->
  ld_op_status (w_dev w) = PHO_DEV_OP_ST_LOADED ->
  wp dev_handle_read_write_mount (fun _ w' => trace_ok (w_trace w')) w.
Proof. intros Hok Hop. unfold dev_handle_read_write_mount. ok_auto. Qed.

Lemma dev_handle_read_write_ok w :
  trace_ok (w_trace w) ->
  wp dev_handle_read_write (fun _ w' => trace_ok (w_trace w')) w.
Proof.
  intros Hok. unfold dev_handle_read_write.
  repeat first
    [ progress wp_steps | quiet_call | op_call
    | eapply wp_mono;
      [apply dev_handle_read_write_mount_ok; [solve_ok | solve_pre_op]
      | cbn beta; auto] ];
  on_leaves ltac:(solve_ok).
Qed.

Lemma dev_thread_end_mounted_medium_ok w :
  trace_ok (w_trace w) ->
  wp dev_thread_end_mounted_medium (fun _ w' => trace_ok (w_trace w')) w.
Proof. intros Hok. unfold dev_thread_end_mounted_medium. ok_auto. Qed.

Lemma dev_thread_end_loaded_medium_ok w :
  trace_ok (w_trace w) ->
  wp dev_thread_end_loaded_medium (fun _ w' => trace_ok (w_trace w')) w.
Proof.
  intros Hok. unfold dev_thread_end_loaded_medium. ok_auto.
  all: destruct a as [rc m]; ok_auto.
Qed.

Lemma dev_thread_end_device_ok w :
  trace_ok (w_trace w) ->
  wp dev_thread_end_device (fun _ w' => trace_ok (w_trace w')) w.
Proof.
  intros Hok. unfold dev_thread_end_device. ok_auto.
  all: repeat match goal with
              | |- wp (let '(_, _) := ?a in _) _ _ => destruct a
              | |- wp (bind (let '(_, _) := ?a in _) _) _ _ => destruct a
              end; ok_auto.
Qed.

Lemma dev_thread_end_ok w :
  trace_ok (w_trace w) ->
  wp dev_thread_end (fun _ w' => trace_ok (w_trace w')) w.
Proof.
  intros Hok. unfold dev_thread_end.
  wp_steps.
  all: wp_use cancel_pending_format_quiet.
  all: wp_use dev_thread_end_mounted_medium_ok; [solve_ok|].
  all: wp_use dev_thread_end_loaded_medium_ok; [assumption|].
  all: eapply wp_mono; [apply dev_thread_end_device_ok; assumption | cbn beta; auto].
Qed.

Lemma lrs_dev_thread_body_ok w :
  trace_ok (w_trace w) ->
  wp lrs_dev_thread_body (fun _ w' => trace_ok (w_trace w')) w.
Proof.
  intros Hok. unfold lrs_dev_thread_body.
  repeat first
    [ progress wp_steps | quiet_call
    | wp_use dev_handle_format_ok; [solve_ok|]
    | wp_use dev_handle_read_write_ok; [solve_ok|] ];
  on_leaves ltac:(solve_ok).
Qed.

Lemma lrs_dev_thread_turn_ok w :
  trace_ok (w_trace w) ->
  wp lrs_dev_thread_turn (fun _ w' => trace_ok (w_trace w')) w.
Proof.
  intros Hok. unfold lrs_dev_thread_turn.
  wp_steps.
  - wp_use dev_thread_end_ok; [assumption|]. wp_steps. assumption.
  - wp_use lrs_dev_thread_body_ok; [assumption|].
    wp_steps; [wp_use dev_thread_end_ok; [assumption|]; wp_steps|]; assumption.
Qed.

(** ** State-machine closure over a run *)

Lemma trace_ok_writes t :
  trace_ok t ->
  forall old new, In (EvOpStatus old new) t ->
    op_edge old new = true /\
    (old = PHO_DEV_OP_ST_FAILED -> new = PHO_DEV_OP_ST_FAILED).
Proof.
  induction 1 as [| c r t Ht IH | a b t He Hr Ht IH]; intros old new Hin.
  - destruct Hin.
  - destruct Hin as [Heq | Hin]; [discriminate | auto].
  - destruct Hin as [Heq | Hin]; [|auto].
    injection Heq as -> ->. split; [assumption|].
    intros ->. destruct new; try discriminate; reflexivity.
Qed.

Lemma thread_reach_trace_ok w0 w ended :
  thread_reach w0 w ended -> trace_ok (w_trace w0) -> trace_ok (w_trace w).
Proof.
  induction 1 as [| w w' Hr IH [Ht _] | w Hr IH]; intros Hok.
  - assumption.
  - rewrite Ht. auto.
  - apply (wp_run _ _ _ (lrs_dev_thread_turn_ok w (IH Hok))).
Qed.

(** C8.  In every world a device thread can reach from its start, through
    any number of turns of its main loop (thread end included) and any
    interference of the other threads, each write to the operational status
    recorded in the trace follows one of the edges EMPTY to LOADED, LOADED
    to MOUNTED, MOUNTED to LOADED, LOADED to EMPTY or any state to FAILED;
    each write to a state other than FAILED comes after the successful
    return of the library or filesystem call of its edge ([trace_ok]); and
    no write leaves FAILED. *)
Theorem op_status_state_machine (w0 w : world) (ended : bool) :
  w_trace w0 = [] ->
  thread_reach w0 w ended ->
  trace_ok (w_trace w) /\
  forall old new, In (EvOpStatus old new) (w_trace w) ->
    op_edge old new = true /\
    (old = PHO_DEV_OP_ST_FAILED -> new = PHO_DEV_OP_ST_FAILED).
Proof.
  intros Hstart Hreach.
  assert (Hok : trace_ok (w_trace w)).
  { eapply thread_reach_trace_ok; [exact Hreach|]. rewrite Hstart. constructor. }
  split; [assumption | apply trace_ok_writes; assumption].
Qed.

Lemma op_status_state_machine_witness :
  op_writes (w_trace (snd (lrs_dev_thread_turn world_write_pending))) =
    [(PHO_DEV_OP_ST_LOADED, PHO_DEV_OP_ST_MOUNTED);
     (PHO_DEV_OP_ST_EMPTY, PHO_DEV_OP_ST_LOADED);
     (PHO_DEV_OP_ST_LOADED, PHO_DEV_OP_ST_EMPTY)] /\
  trace_ok (w_trace (snd (lrs_dev_thread_turn world_write_pending))).
Proof.
  split; [vm_compute; reflexivity|].
  apply (op_status_state_machine world_write_pending _
           (fst (lrs_dev_thread_turn world_write_pending)));
    [reflexivity | apply reach_turn, reach_start].
Defined.

(** ** The sync tick *)

Lemma calls_of_extends cs cs' t t' :
  classes_disjoint cs cs' = true ->
  extends (only cs) t t' -> calls_of cs' t' = calls_of cs' t.
Proof.
  intros Hd. apply extends_filter_out. intros e He.
  unfold only in *. apply bool_decide_eq_true in He.
  apply bool_decide_eq_false. intros Hin.
  unfold classes_disjoint in Hd. rewrite forallb_forall in Hd.
  apply list_elem_of_In in He. specialize (Hd _ He).
  apply negb_true_iff, bool_decide_eq_false in Hd. contradiction.
Qed.

Lemma calls_of_app cs a b : calls_of cs (a ++ b) = calls_of cs a ++ calls_of cs b.
Proof. apply List.filter_app. Qed.

Lemma medium_sync_exact m fsroot w :
  let get := GetIoAdapter (m_fs_type m) in
  let sync := IoaMediumSync fsroot in
  wp (medium_sync m fsroot)
     (fun _ w' =>
        w_dev w' = w_dev w /\ w_env w' = w_env w /\
        w_trace w' =
          (if res_rc (answer_at w 0 get) =? 0
           then [EvCall sync (answer_at w 1 sync); EvCall get (answer_at w 0 get)]
           else [EvCall get (answer_at w 0 get)]) ++ w_trace w) w.
Proof.
  intros get sync. subst get sync. unfold wp, medium_sync, answer_at. mstep.
  destruct (res_rc (w_env w (length (w_trace w)) (GetIoAdapter (m_fs_type m))) =? 0);
    mstep; repeat split; reflexivity.
Qed.

Lemma lrs_dev_media_update_post m size media_rc fsroot nb w :
  wp (lrs_dev_media_update m size media_rc fsroot nb)
     (fun a w' =>
        w_dev w' = w_dev w /\
        exists fields r t1,
          w_trace w' = EvCall (DssMediaSet (snd a) fields) r :: t1 /\
          extends (only [CL_FS]) (w_trace w) t1 /\
          (media_rc <> 0 ->
             m_adm_status (snd a) = PHO_RSC_ADM_ST_FAILED /\ ADM_STATUS ∈ fields)) w.
Proof.
  unfold lrs_dev_media_update.
  destruct (bool_decide (m_fs_status m = PHO_FS_STATUS_EMPTY) && (media_rc =? 0));
    destruct (negb (media_rc =? 0)) eqn:Hm;
    destruct (negb (nb =? 0)); destruct (negb (size =? 0));
    cbn beta iota; wp_steps;
    (split; [reflexivity|]);
    eexists; eexists; eexists;
    (split; [reflexivity|]);
    (split; [solve_extends|]);
    intros Hne; bool_hyps; try contradiction;
    (split; [reflexivity | set_solver]).
Qed.

Lemma bookkeeping_thread w w' :
  bookkeeping w w' -> ld_device_thread (w_dev w') = ld_device_thread (w_dev w).
Proof. intros [He _]. apply (f_equal ld_device_thread) in He. exact He. Qed.

Lemma bookkeeping_medium w w' :
  bookkeeping w w' -> ld_dss_media_info (w_dev w') = ld_dss_media_info (w_dev w).
Proof. intros [He _]. apply (f_equal ld_dss_media_info) in He. exact He. Qed.

Lemma bookkeeping_calls cs w w' :
  classes_disjoint [CL_BOOK; CL_CLOCK] cs = true ->
  bookkeeping w w' -> calls_of cs (w_trace w') = calls_of cs (w_trace w).
Proof. intros Hd [_ Ht]. eapply calls_of_extends; eassumption. Qed.

Lemma store_loaded_medium_thread m d :
  ld_device_thread (store_loaded_medium m d) = ld_device_thread d.
Proof. unfold store_loaded_medium. destruct (ld_dss_media_info d); reflexivity. Qed.

Lemma store_loaded_medium_medium m d :
  is_Some (ld_dss_media_info d) ->
  ld_dss_media_info (store_loaded_medium m d) = Some m.
Proof. unfold store_loaded_medium. intros [m0 ->]. reflexivity. Qed.

Lemma dev_sync_post w :
  wp dev_sync
     (fun rc w' =>
        calls_of [CL_IO] (w_trace w') = sync_calls w ++ calls_of [CL_IO] (w_trace w) /\
        ld_device_thread (w_dev w') = ld_device_thread (w_dev w) /\
        ld_op_status (w_dev w') = ld_op_status (w_dev w) /\
        (ld_last_client_rc (w_dev w) <> 0 ->
           rc = ld_last_client_rc (w_dev w) /\
           exists m' fields r,
             calls_of [CL_DSS] (w_trace w') =
               EvCall (DssMediaSet m' fields) r :: calls_of [CL_DSS] (w_trace w) /\
             m_adm_status m' = PHO_RSC_ADM_ST_FAILED /\ ADM_STATUS ∈ fields /\
             (is_Some (ld_dss_media_info (w_dev w)) ->
              ld_dss_media_info (w_dev w') = Some m'))) w.
Proof.
  unfold dev_sync, sync_calls. wp_steps.
  - (* the last client release was fine: medium_sync runs *)
    wp_use medium_sync_exact. destruct H as (Hd1 & He1 & Ht1).
    wp_use lrs_dev_media_update_post.
    destruct H as (Hd2 & fields & r & t1 & Ht2 & Hx2 & _).
    destruct a0 as [rc2 m']. cbn [snd] in *. wp_steps.
    wp_use clean_tosync_array_book. wp_steps.
    pose proof (bookkeeping_thread _ _ H) as Hth.
    pose proof (bookkeeping_calls [CL_IO] _ _ eq_refl H) as Hio.
    pose proof (bookkeeping_quiet _ _ H) as [Hop _].
    dev_norm. rewrite ?store_loaded_medium_op, ?store_loaded_medium_thread in *.
    split; [| split; [| split]].
    + rewrite Hio, Ht2. cbn [calls_of List.filter only class_of class_of_call].
      change (List.filter (only [CL_IO]) t1) with (calls_of [CL_IO] t1).
      rewrite (calls_of_extends [CL_FS] [CL_IO] _ _ eq_refl Hx2), Ht1, calls_of_app.
      f_equal. destruct (res_rc _ =? 0); reflexivity.
    + rewrite Hth, Hd2, Hd1. reflexivity.
    + rewrite Hop, Hd2, Hd1. reflexivity.
    + bool_hyps. contradiction.
  - (* the last client release carried an error: no physical sync *)
    wp_use lrs_dev_media_update_post.
    destruct H as (Hd2 & fields & r & t1 & Ht2 & Hx2 & Hf).
    destruct a as [rc2 m']. cbn [snd] in *. wp_steps.
    wp_use clean_tosync_array_book. wp_steps.
    pose proof (bookkeeping_thread _ _ H) as Hth.
    pose proof (bookkeeping_medium _ _ H) as Hmed.
    pose proof (bookkeeping_calls [CL_IO] _ _ eq_refl H) as Hio.
    pose proof (bookkeeping_calls [CL_DSS] _ _ eq_refl H) as Hdss.
    pose proof (bookkeeping_quiet _ _ H) as [Hop _].
    dev_norm. rewrite ?store_loaded_medium_op, ?store_loaded_medium_thread in *.
    bool_hyps.
    split; [| split; [| split]].
    + rewrite Hio, Ht2. cbn [calls_of List.filter only class_of class_of_call].
      change (List.filter (only [CL_IO]) t1) with (calls_of [CL_IO] t1).
      rewrite (calls_of_extends [CL_FS] [CL_IO] _ _ eq_refl Hx2). reflexivity.
    + rewrite Hth, Hd2. reflexivity.
    + rewrite Hop, Hd2. reflexivity.
    + intros Hne. destruct (Hf Hne) as [Hadm Hin]. split.
      * unfold elvis. pose proof (proj2 (Z.eqb_neq _ _) Hne) as Hb.
        rewrite !Hb. destruct (negb (rc2 =? 0)); rewrite ?Hb;
          destruct (negb (a =? 0)); reflexivity.
      * exists m', fields, r. split; [| split; [| split]]; try assumption.
        -- rewrite Hdss, Ht2. cbn [calls_of List.filter only class_of class_of_call].
           change (List.filter (only [CL_DSS]) t1) with (calls_of [CL_DSS] t1).
           rewrite (calls_of_extends [CL_FS] [CL_DSS] _ _ eq_refl Hx2). reflexivity.
        -- intros Hs. rewrite Hmed. apply store_loaded_medium_medium.
           rewrite Hd2. exact Hs.
Qed.

Lemma check_needs_sync_sets w :
  wp check_needs_sync
     (fun _ w' => bookkeeping w w' /\
                  (ld_last_client_rc (w_dev w) <> 0 ->
                   ld_needs_sync (w_dev w') = true)) w.
Proof.
  unfold check_needs_sync, is_past, clock_gettime.
  wp_steps; (split; [solve_bookkeeping|]);
    intros Hne; apply Z.eqb_neq in Hne; dev_norm; rewrite Hne;
    cbn [negb]; apply orb_true_r.
Qed.

Lemma bookkeeping_fields w w' :
  bookkeeping w w' ->
  ld_last_client_rc (w_dev w') = ld_last_client_rc (w_dev w) /\
  ld_ongoing_io (w_dev w') = ld_ongoing_io (w_dev w) /\
  ld_device_thread (w_dev w') = ld_device_thread (w_dev w).
Proof.
  intros [He _]. split; [|split].
  - apply (f_equal ld_last_client_rc) in He. exact He.
  - apply (f_equal ld_ongoing_io) in He. exact He.
  - apply (f_equal ld_device_thread) in He. exact He.
Qed.

(** At thread end with an error status the status is kept and the device
    ends FAILED. *)

Lemma cancel_pending_format_thread w :
  wp cancel_pending_format
     (fun _ w' => ld_device_thread (w_dev w') = ld_device_thread (w_dev w)) w.
Proof.
  unfold cancel_pending_format, dss_medium_release, sub_request_free.
  wp_steps; reflexivity.
Qed.

Lemma dev_thread_end_mounted_medium_thread w :
  th_status (ld_device_thread (w_dev w)) <> 0 ->
  wp dev_thread_end_mounted_medium
     (fun _ w' => ld_device_thread (w_dev w') = ld_device_thread (w_dev w)) w.
Proof.
  intros Hne. unfold dev_thread_end_mounted_medium.
  wp_steps; on_leaves ltac:(bool_hyps; first [reflexivity | contradiction]).
  all: bool_hyps; try contradiction.
  all: wp_use fail_release_free_medium_quiet; wp_steps;
    destruct H as [Hd _]; dev_norm; rewrite Hd; reflexivity.
Qed.

Lemma dev_thread_end_loaded_medium_thread w :
  th_status (ld_device_thread (w_dev w)) <> 0 ->
  wp dev_thread_end_loaded_medium
     (fun _ w' => ld_device_thread (w_dev w') = ld_device_thread (w_dev w)) w.
Proof.
  intros Hne. unfold dev_thread_end_loaded_medium.
  wp_steps; on_leaves ltac:(bool_hyps; first [reflexivity | contradiction]).
  all: bool_hyps; try contradiction.
  all: wp_use fail_release_free_medium_quiet; wp_steps;
    destruct H as [Hd _]; dev_norm; rewrite Hd; reflexivity.
Qed.

Lemma dev_thread_end_device_failed w :
  th_status (ld_device_thread (w_dev w)) <> 0 ->
  wp dev_thread_end_device
     (fun _ w' => ld_device_thread (w_dev w') = ld_device_thread (w_dev w) /\
                  ld_op_status (w_dev w') = PHO_DEV_OP_ST_FAILED) w.
Proof.
  intros Hne. unfold dev_thread_end_device.
  wp_steps; on_leaves ltac:(bool_hyps; contradiction).
  all: bool_hyps; try contradiction.
  all: wp_use clean_tosync_array_book; wp_steps;
    try (wp_use dss_device_release_quiet; destruct a0; wp_steps);
    pose proof (bookkeeping_thread _ _ H) as Hth;
    repeat match goal with
           | Hx : w_dev _ = _ /\ quiet _ _ |- _ => destruct Hx as [Hx _]
           end;
    dev_norm; repeat match goal with Hx : w_dev _ = _ |- _ => rewrite Hx end;
    dev_norm; (split; [assumption || (rewrite Hth; reflexivity) | reflexivity]).
Qed.

Lemma dev_thread_end_failed w :
  th_status (ld_device_thread (w_dev w)) <> 0 ->
  wp dev_thread_end
     (fun _ w' => th_status (ld_device_thread (w_dev w')) =
                    th_status (ld_device_thread (w_dev w)) /\
                  ld_op_status (w_dev w') = PHO_DEV_OP_ST_FAILED) w.
Proof.
  intros Hne. unfold dev_thread_end.
  wp_steps.
  all: wp_use cancel_pending_format_thread.
  all: wp_use dev_thread_end_mounted_medium_thread;
    [dev_norm; rewrite H; dev_norm; exact Hne|].
  all: wp_use dev_thread_end_loaded_medium_thread;
    [rewrite H0, H; dev_norm; exact Hne|].
  all: (eapply wp_mono;
        [apply dev_thread_end_device_failed; rewrite H1, H0, H; dev_norm; exact Hne|]);
    cbn beta; intros _ w4 [Hth Hop];
    (split; [rewrite Hth, H1, H0, H; reflexivity | exact Hop]).
Qed.

Ltac book_facts :=
  repeat match goal with
         | H : bookkeeping _ _ /\ _ |- _ => destruct H as [H ?]
         | H : bookkeeping _ _ |- _ =>
             let F := fresh "F" in
             pose proof (bookkeeping_fields _ _ H) as F;
             destruct F as (? & ? & ?); clear H
         end;
  dev_norm.

Lemma lrs_dev_thread_body_on_client_error w :
  ld_ongoing_io (w_dev w) = false ->
  ld_last_client_rc (w_dev w) <> 0 ->
  wp lrs_dev_thread_body
     (fun fatal w' =>
        fatal = true /\
        th_status (ld_device_thread (w_dev w')) = ld_last_client_rc (w_dev w)) w.
Proof.
  intros Hio Hrc. unfold lrs_dev_thread_body.
  apply wp_bind, wp_get_dev. apply wp_bind.
  eapply (wp_mono _ (fun _ w' => bookkeeping w w')).
  { wp_steps; on_leaves ltac:(solve_bookkeeping).
    wp_use cancel_subrequest_on_error_book.
    wp_steps; try (wp_use sub_request_free_book; wp_steps); solve_bookkeeping. }
  cbn beta. intros _ w1 H1.
  wp_use remove_canceled_sync_book.
  apply wp_bind, wp_get_dev. apply wp_bind.
  eapply (wp_mono _ (fun _ w' => bookkeeping w w' /\ ld_needs_sync (w_dev w') = true)).
  { destruct (negb (ld_needs_sync (w_dev w'))) eqn:Hn.
    - wp_use check_needs_sync_sets. destruct H0 as [Hb Hs].
      split; [solve_bookkeeping|]. apply Hs. book_facts. congruence.
    - apply wp_ret. bool_hyps. split; [solve_bookkeeping | assumption]. }
  cbn beta. intros _ w3 [H3 Hneeds].
  apply wp_bind, wp_get_dev. apply wp_bind.
  pose proof (bookkeeping_fields _ _ H3) as (Hrc3 & Hio3 & _).
  eapply (wp_mono _ (fun _ w' =>
            ld_ongoing_io (w_dev w') = false /\
            ld_last_client_rc (w_dev w') = ld_last_client_rc (w_dev w) /\
            ld_needs_sync (w_dev w') = true)).
  { wp_steps; dev_norm; (split; [congruence | split; [congruence | assumption]]). }
  cbn beta. intros _ w4 (Hio4 & Hrc4 & Hneeds4).
  apply wp_bind, wp_get_dev.
  rewrite Hio4, Hneeds4. cbn [negb].
  apply wp_bind. apply wp_bind.
  eapply wp_mono; [apply dev_sync_post|]. cbn beta.
  intros rc w5 (_ & Hth5 & _ & Hres).
  destruct Hres as [Hrc5 _]; [congruence|].
  rewrite Hrc5, Hrc4. apply Z.eqb_neq in Hrc as Hb. rewrite Hb. cbn [negb].
  apply wp_ret. rewrite Hb. cbn [negb]. wp_steps. dev_norm. auto.
Qed.

Lemma lrs_dev_thread_turn_on_client_error w :
  thread_is_stopped (ld_device_thread (w_dev w)) = false ->
  ld_ongoing_io (w_dev w) = false ->
  ld_last_client_rc (w_dev w) <> 0 ->
  wp lrs_dev_thread_turn
     (fun ended w' =>
        ended = true /\
        th_status (ld_device_thread (w_dev w')) = ld_last_client_rc (w_dev w) /\
        ld_op_status (w_dev w') = PHO_DEV_OP_ST_FAILED) w.
Proof.
  intros Hst Hio Hrc. unfold lrs_dev_thread_turn.
  apply wp_bind, wp_get_dev. rewrite Hst.
  wp_use lrs_dev_thread_body_on_client_error; [assumption | assumption |].
  destruct H as [-> Hth].
  wp_use dev_thread_end_failed; [congruence|].
  destruct H as [Hth' Hop]. wp_steps.
  split; [reflexivity|]. split; [congruence | assumption].
Qed.

Lemma sync_calls_iff w :
  sync_calls w <> [] <-> ld_last_client_rc (w_dev w) = 0.
Proof.
  unfold sync_calls.
  destruct (Z.eqb_spec (ld_last_client_rc (w_dev w)) 0) as [Hz | Hz].
  - split; [auto|]. intros _. destruct (res_rc _ =? 0); discriminate.
  - split; [congruence | contradiction].
Qed.

(** C6.  On a sync tick ([dev_sync]) the I/O adapter calls are those of
    [medium_sync], and they are made if and only if the last recorded client
    release code is zero.  When that code is not zero there is no I/O
    adapter call at all, [dev_sync] returns the code, and the DSS update
    that follows carries the medium with admin status FAILED and
    [ADM_STATUS] in its field mask (the medium in memory is that one); the
    turn of the main loop that runs this sync (thread not stopped, no I/O in
    flight) ends the thread with that code as status and the device in
    operational status FAILED. *)
Theorem dev_sync_on_client_rc (w : world) :
  let rc0 := ld_last_client_rc (w_dev w) in
  let w' := snd (dev_sync w) in
  calls_of [CL_IO] (w_trace w') = sync_calls w ++ calls_of [CL_IO] (w_trace w) /\
  (sync_calls w <> [] <-> rc0 = 0) /\
  (rc0 <> 0 ->
     calls_of [CL_IO] (w_trace w') = calls_of [CL_IO] (w_trace w) /\
     fst (dev_sync w) = rc0 /\
     (exists m' fields r,
        calls_of [CL_DSS] (w_trace w') =
          EvCall (DssMediaSet m' fields) r :: calls_of [CL_DSS] (w_trace w) /\
        m_adm_status m' = PHO_RSC_ADM_ST_FAILED /\ ADM_STATUS ∈ fields /\
        (is_Some (ld_dss_media_info (w_dev w)) ->
         ld_dss_media_info (w_dev w') = Some m')) /\
     (thread_is_stopped (ld_device_thread (w_dev w)) = false ->
      ld_ongoing_io (w_dev w) = false ->
      fst (lrs_dev_thread_turn w) = true /\
      th_status (ld_device_thread (w_dev (snd (lrs_dev_thread_turn w)))) = rc0 /\
      ld_op_status (w_dev (snd (lrs_dev_thread_turn w))) = PHO_DEV_OP_ST_FAILED)).
Proof.
  intros rc0 w'. subst rc0 w'.
  pose proof (wp_run _ _ _ (dev_sync_post w)) as (Hio & _ & _ & Herr).
  cbn beta in *.
  split; [exact Hio|]. split; [apply sync_calls_iff|].
  intros Hne. destruct (Herr Hne) as [Hrc Hdss].
  split; [|split; [exact Hrc | split; [exact Hdss|]]].
  - rewrite Hio. unfold sync_calls.
    apply Z.eqb_neq in Hne. rewrite Hne. reflexivity.
  - intros Hst Hioo.
    exact (wp_run _ _ _ (lrs_dev_thread_turn_on_client_error w Hst Hioo Hne)).
Qed.

Lemma dev_sync_on_client_rc_witness :
  fst (dev_sync world_client_error) = -5 /\
  fst (lrs_dev_thread_turn world_client_error) = true /\
  ld_op_status (w_dev (snd (lrs_dev_thread_turn world_client_error)))
    = PHO_DEV_OP_ST_FAILED.
Proof.
  destruct (dev_sync_on_client_rc world_client_error) as (_ & _ & H).
  destruct H as (_ & Hrc & _ & Hturn); [vm_compute; discriminate|].
  destruct Hturn as (He & _ & Hop); [reflexivity | reflexivity |].
  exact (conj Hrc (conj He Hop)).
Defined.

(** ** Drive-to-drive moves refused by the library *)


Lemma wp_and {A} (m : M A) (Q1 Q2 : A -> world -> Prop) w :
  wp m Q1 w -> wp m Q2 w -> wp m (fun a w' => Q1 a w' /\ Q2 a w') w.
Proof. unfold wp. auto. Qed.

Lemma only_calm cs e :
  bool_decide (CL_LIB ∈ cs) = false -> only cs e = true -> calm e = true.
Proof.
  intros Hl He. unfold calm, only in *.
  destruct e as [c r | a b]; [|reflexivity].
  destruct c; try reflexivity.
  cbn [class_of class_of_call] in He. congruence.
Qed.

Lemma extends_only_calm cs t t' :
  bool_decide (CL_LIB ∈ cs) = false ->
  extends (only cs) t t' -> extends calm t t'.
Proof. intros Hl. apply extends_weaken. intros e. apply only_calm. assumption. Qed.


Lemma move_calm src dst r :
  (res_rc r =? - EINVAL) && bool_decide (src = MED_LOC_DRIVE)
  && bool_decide (dst = MED_LOC_DRIVE) = false ->
  calm (EvCall (LdmLibMediaMove src dst) r) = true.
Proof.
  intros H. unfold calm, is_refused_move.
  destruct (res_rc r =? - EINVAL), (bool_decide (src = MED_LOC_DRIVE)),
    (bool_decide (dst = MED_LOC_DRIVE)); (reflexivity || discriminate H).
Qed.

Ltac solve_calm :=
  cbn [w_trace];
  repeat (apply extends_cons;
          [first [reflexivity | apply move_calm; eassumption]|]);
  first
    [ apply extends_refl
    | match goal with
      | H : extends calm ?t0 ?t1 |- extends _ _ ?t1 =>
          eapply extends_trans; [| exact H]; solve_calm
      | H : extends (only _) ?t0 ?t1 |- extends _ _ ?t1 =>
          eapply extends_trans;
          [| eapply extends_only_calm; [|exact H]; reflexivity];
          solve_calm
      end ].

Ltac solve_sub :=
  dev_norm;
  solve [repeat first
    [ reflexivity
    | progress
        (repeat match goal with
                | H : w_dev ?w = _ |- context [w_dev ?w] => rewrite H
                | H : w_reqs ?w = _ |- context [w_reqs ?w] => rewrite H
                | H : ld_sub_request ?d = _ |- context [ld_sub_request ?d] =>
                    rewrite H
                | H : ld_device_thread ?d = _ |- context [ld_device_thread ?d] =>
                    rewrite H
                | H : lr_failure_on_medium ?l = _
                  |- context [lr_failure_on_medium ?l] => rewrite H
                end; dev_norm) ]].

Lemma wrap_lib_open_calm family w :
  wp (wrap_lib_open family)
     (fun _ w' => w_dev w' = w_dev w /\ w_reqs w' = w_reqs w /\
                  extends calm (w_trace w) (w_trace w') /\
                  extends (only [CL_LIB]) (w_trace w) (w_trace w')) w.
Proof.
  unfold wrap_lib_open.
  destruct family; wp_steps;
    (split; [reflexivity | split; [reflexivity | split; [solve_calm | solve_extends]]]).
Qed.

Lemma clean_tosync_array_sub rc w :
  wp (clean_tosync_array rc)
     (fun _ w' => ld_sub_request (w_dev w') = ld_sub_request (w_dev w) /\
                  ld_device_thread (w_dev w') = ld_device_thread (w_dev w) /\
                  bookkeeping w w') w.
Proof.
  apply wp_and; [|apply wp_and; [|apply clean_tosync_array_book]];
    (eapply wp_mono; [apply clean_tosync_array_dev|]); cbn beta;
    intros _ w' ->; reflexivity.
Qed.

Lemma dev_empty_calm w :
  wp dev_empty
     (fun _ w' => ld_sub_request (w_dev w') = ld_sub_request (w_dev w) /\
                  ld_device_thread (w_dev w') = ld_device_thread (w_dev w) /\
                  extends calm (w_trace w) (w_trace w')) w.
Proof.
  unfold dev_empty, dev_umount, dev_unload.
  repeat first
    [ progress wp_steps
    | wp_use clean_tosync_array_sub
    | wp_use wrap_lib_open_calm
    | wp_use dss_medium_release_quiet ];
  use_facts; (split; [solve_sub | split; [solve_sub | solve_calm]]).
Qed.


Lemma cancel_subrequest_on_error_kept w :
  wp cancel_subrequest_on_error
     (fun canceled w' => (canceled = false -> w' = w) /\ bookkeeping w w') w.
Proof.
  apply wp_and; [|apply cancel_subrequest_on_error_book].
  unfold cancel_subrequest_on_error, locked_cancel_rwalloc_on_error.
  wp_steps; intros; first [reflexivity | discriminate | congruence].
Qed.











(** ** A medium mounted read-only *)

Lemma dev_handle_read_write_mounted_read_only w :
  pho_request_is_write (pending_request w) = true ->
  reports_read_only w ->
  dev_handle_read_write_mounted w =
    if negb (res_rc (answer_at w 2 (full_update w)) =? 0)
    then (res_rc (answer_at w 2 (full_update w)), marked_full w)
    else dev_handle_read_write_alloc_result (- ENOSPC) true false (marked_full w).
Proof.
  unfold pending_request, reports_read_only, fs_adapter_call, df_call, answer_at.
  intros Hw (Hget & Hdf & Hro).
  apply Z.eqb_neq in Hro. cbn [Nat.add] in Hget, Hdf, Hro.
  unfold dev_handle_read_write_mounted, dev_mount_is_writable.
  mstep. rewrite Hw. mstep. rewrite Hget. mstep. rewrite Hdf. mstep.
  rewrite Hro. mstep.
  unfold marked_full, read_only_events, full_update, full_medium,
    fs_adapter_call, df_call, answer_at. cbn [Nat.add app].
  destruct (negb _); reflexivity.
Qed.

Lemma write_can_be_requeued sr rq :
  pho_request_is_write rq = true -> rwalloc_can_be_requeued sr rq = true.
Proof. unfold rwalloc_can_be_requeued. intros ->. reflexivity. Qed.

(** The result handling of a write sub-request that comes with an error
    code: the sub-request leaves the device, nothing is answered to the
    client, and unless the request is already in error the sub-request is
    pushed on the retry queue of the scheduler. *)
Lemma alloc_result_write_requeued rc w :
  pho_request_is_write (pending_request w) = true ->
  rc <> 0 ->
  wp (dev_handle_read_write_alloc_result rc true false)
     (fun a w' =>
        a = 0 /\
        w_dev w' = dev_with_sub_request None (w_dev w) /\
        extends requeue_only (w_trace w) (w_trace w') /\
        (rw_rc (p_rwalloc (pending_request w)) = 0 ->
         exists r,
           w_trace w' =
             EvCall (TsqueuePush SCHED_RETRY_QUEUE
                       (ItemSubRequest (pending_sub_request (w_dev w)))) r
             :: w_trace w)) w.
Proof.
  unfold pending_request. intros Hw Hrc.
  unfold dev_handle_read_write_alloc_result, handle_rwalloc_sub_request_result,
    locked_cancel_rwalloc_on_error, rwalloc_result_out_free,
    dev_handle_read_write_out_free, sub_request_free.
  destruct (rc =? 0) eqn:E; [apply Z.eqb_eq in E; contradiction|].
  wp_steps;
    try match goal with
        | H : rwalloc_can_be_requeued _ _ = false |- _ =>
            rewrite write_can_be_requeued in H by exact Hw; discriminate H
        end;
    repeat match goal with
           | H : (if _ then _ else _) = (_, _) |- _ =>
               cbn in H; injection H as <- <-
           end;
    try discriminate;
    (split; [reflexivity | split; [reflexivity | split;
       [repeat (apply extends_cons; [reflexivity|]); apply extends_refl
       | intros H0; first [ eexists; reflexivity
                          | rewrite H0 in *; discriminate ]]]]).
Qed.

Lemma marked_full_dev w m sr :
  ld_dss_media_info (w_dev w) = Some m ->
  ld_sub_request (w_dev w) = Some sr ->
  w_dev (marked_full w) =
    dev_with_media_info (Some (media_with_fs_status PHO_FS_STATUS_FULL m))
      (dev_with_sub_request (Some (sub_request_with_fom true sr)) (w_dev w)).
Proof.
  intros Hm Hsr. unfold marked_full, store_loaded_medium, full_medium, loaded_medium.
  cbn [w_dev]. rewrite Hsr. dev_norm. rewrite Hm. reflexivity.
Qed.

Lemma requeue_only_not_unlock e :
  requeue_only e = true -> is_media_unlock e = false.
Proof. destruct e as [c r|a b]; [destruct c|]; simpl; congruence. Qed.

Lemma requeue_only_book e :
  requeue_only e = true -> only [CL_DSS; CL_FS; CL_LIB] e = false.
Proof.
  destruct e as [c r|a b]; [destruct c|]; simpl; try congruence;
    intros _; reflexivity.
Qed.

(** C3, amended.  Once the mount has succeeded ([dev_handle_read_write]
    from there on), for a write sub-request whose medium [df] reports as
    read-only: the failure-on-medium flag of the sub-request is set and the
    medium is marked FULL in memory and by one DSS update of its filesystem
    status; the medium is not released: it stays the medium of the device,
    whose operational status and mount path are unchanged, and there is no
    unlock, no umount and no unload (after the test and the update the
    handler only gives the sub-request back to the scheduler, and answers
    nothing to the client).  If the DSS update fails its code is returned
    with the sub-request left in place.  If it succeeds, -ENOSPC goes to the
    result handling, the handler returns 0 with no sub-request left on the
    device, and unless the request is already in error the sub-request, flag
    set, is pushed on the retry queue of the scheduler. *)
Theorem read_only_mount_marks_full (w : world) (m : media_info)
    (sr : sub_request) :
  pho_request_is_write (pending_request w) = true ->
  ld_dss_media_info (w_dev w) = Some m ->
  ld_sub_request (w_dev w) = Some sr ->
  reports_read_only w ->
  let rc2 := res_rc (answer_at w 2 (full_update w)) in
  let rc := fst (dev_handle_read_write_mounted w) in
  let w' := snd (dev_handle_read_write_mounted w) in
  ld_dss_media_info (w_dev w') =
    Some (media_with_fs_status PHO_FS_STATUS_FULL m) /\
  ld_op_status (w_dev w') = ld_op_status (w_dev w) /\
  ld_mnt_path (w_dev w') = ld_mnt_path (w_dev w) /\
  extends requeue_only (read_only_events w ++ w_trace w) (w_trace w') /\
  List.filter is_media_unlock (w_trace w') =
    List.filter is_media_unlock (w_trace w) /\
  calls_of [CL_DSS; CL_FS; CL_LIB] (w_trace w') =
    read_only_events w ++ calls_of [CL_DSS; CL_FS; CL_LIB] (w_trace w) /\
  (rc2 <> 0 ->
   rc = rc2 /\
   w_trace w' = read_only_events w ++ w_trace w /\
   ld_sub_request (w_dev w') = Some (sub_request_with_fom true sr)) /\
  (rc2 = 0 ->
   rc = 0 /\
   ld_sub_request (w_dev w') = None /\
   (rw_rc (p_rwalloc (pending_request w)) = 0 ->
    exists r,
      w_trace w' =
        EvCall (TsqueuePush SCHED_RETRY_QUEUE
                  (ItemSubRequest (sub_request_with_fom true sr))) r
        :: read_only_events w ++ w_trace w)).
Proof.
  intros Hw Hm Hsr Hro rc2 rc w'. subst rc w'.
  rewrite (dev_handle_read_write_mounted_read_only w Hw Hro).
  fold rc2.
  pose proof (marked_full_dev w m sr Hm Hsr) as Hdev.
  assert (Hpend : pending_sub_request (w_dev (marked_full w))
                  = sub_request_with_fom true sr).
  { rewrite Hdev. reflexivity. }
  assert (Hw' : pho_request_is_write (pending_request (marked_full w)) = true).
  { unfold pending_request in *. rewrite Hpend.
    unfold pending_sub_request in Hw. rewrite Hsr in Hw. exact Hw. }
  assert (Hrq : pending_request (marked_full w) = pending_request w).
  { unfold pending_request. rewrite Hpend.
    unfold pending_sub_request. rewrite Hsr. reflexivity. }
  assert (Hsel : forall t,
             extends requeue_only (read_only_events w ++ w_trace w) t ->
             List.filter is_media_unlock t = List.filter is_media_unlock (w_trace w) /\
             calls_of [CL_DSS; CL_FS; CL_LIB] t =
               read_only_events w ++ calls_of [CL_DSS; CL_FS; CL_LIB] (w_trace w)).
  { intros t Ht. split.
    - rewrite (extends_filter_out _ _ _ _ requeue_only_not_unlock Ht).
      reflexivity.
    - unfold calls_of.
      rewrite (extends_filter_out _ _ _ _ requeue_only_book Ht).
      reflexivity. }
  destruct (negb (rc2 =? 0)) eqn:E; cbn [fst snd].
  - apply negb_true_iff, Z.eqb_neq in E.
    destruct (Hsel _ (extends_refl _ _)) as [Hu Hc].
    rewrite Hdev. dev_norm.
    repeat (split; [first [reflexivity | assumption | apply extends_refl]|]).
    split; [intros _; repeat split; reflexivity | contradiction].
  - apply negb_false_iff, Z.eqb_eq in E.
    assert (Hne : - ENOSPC <> 0) by (unfold ENOSPC; lia).
    pose proof (wp_run _ _ _
                  (alloc_result_write_requeued (- ENOSPC) (marked_full w) Hw' Hne))
      as (Ha & Hd & Hext & Hpush).
    destruct (Hsel _ Hext) as [Hu Hc].
    rewrite Hd, Hdev. dev_norm.
    repeat (split; [first [reflexivity | assumption]|]).
    split; [intros Hne2; contradiction|].
    intros _. split; [exact Ha|]. split; [reflexivity|].
    intros Hrc. rewrite Hrq, Hpend in Hpush. exact (Hpush Hrc).
Qed.

Lemma read_only_mount_marks_full_witness :
  ld_dss_media_info
    (w_dev (snd (dev_handle_read_write_mounted world_mounted_read_only))) =
    Some (media_with_fs_status PHO_FS_STATUS_FULL sample_medium) /\
  ld_op_status
    (w_dev (snd (dev_handle_read_write_mounted world_mounted_read_only))) =
    PHO_DEV_OP_ST_MOUNTED /\
  List.filter is_media_unlock
    (w_trace (snd (dev_handle_read_write_mounted world_mounted_read_only))) = [] /\
  fst (dev_handle_read_write_mounted world_mounted_read_only) = 0.
Proof.
  assert (Hro : reports_read_only world_mounted_read_only).
  { unfold reports_read_only. vm_compute. repeat split; lia. }
  destruct (read_only_mount_marks_full world_mounted_read_only sample_medium
              (SubRequest (Some 2%nat) 0 false)
              eq_refl eq_refl eq_refl Hro)
    as (Hm & Hop & _ & _ & Hu & _ & _ & Hok).
  split; [exact Hm|]. split; [exact Hop|]. split; [exact Hu|].
  apply Hok. reflexivity.
Defined.

(** The spec has the medium released when it is found read-only.  Here a
    write is served on the medium the device holds; the mount succeeds and
    [df] reports the filesystem read-only.  When [dev_handle_read_write]
    returns, the medium, marked FULL, is still the medium of the device,
    which is MOUNTED; the only DSS call made is the update of the filesystem
    status: the lock of the medium has not been released; nothing has been
    answered for the request, whose sub-request is on the retry queue. *)
Lemma read_only_medium_not_released_counterexample :
  let w := world_write_read_only in
  let w' := snd (dev_handle_read_write w) in
  pho_request_is_write (pending_request w) = true /\
  fst (dev_handle_read_write w) = 0 /\
  ld_op_status (w_dev w') = PHO_DEV_OP_ST_MOUNTED /\
  ld_dss_media_info (w_dev w') =
    Some (media_with_fs_status PHO_FS_STATUS_FULL sample_medium) /\
  List.filter is_media_unlock (w_trace w') = [] /\
  calls_of [CL_DSS] (w_trace w') =
    [EvCall (DssMediaSet (media_with_fs_status PHO_FS_STATUS_FULL sample_medium)
               [FS_STATUS]) ok_result] /\
  calls_of [CL_LIB] (w_trace w') = [] /\
  ld_mnt_path (w_dev w') = "/mnt/phobos-st0"%string /\
  List.filter (fun e => match e with
                        | EvCall (LdmFsUmount _ _) _ => true
                        | _ => false
                        end) (w_trace w') = [] /\
  error_responses (Some 2%nat) (w_trace w') = 0%nat /\
  hd_error (w_trace w') =
    Some (EvCall (TsqueuePush SCHED_RETRY_QUEUE
                    (ItemSubRequest (SubRequest (Some 2%nat) 0 true)))
            ok_result).
Proof. vm_compute. repeat split; reflexivity. Qed.

(** ** Quarantine *)







Lemma staged_right r u t0 t : extends (avoids [u]) t0 t -> staged r u t0 t.
Proof. intros H. exists t0. split; [apply extends_refl | assumption]. Qed.


Lemma extends_length F t t' : extends F t t' -> (length t <= length t')%nat.
Proof. induction 1; simpl; lia. Qed.

Lemma new_events_app (w w' : world) new :
  w_trace w' = new ++ w_trace w -> new_events w w' = new.
Proof.
  intros H. unfold new_events. rewrite H, length_app.
  replace (length new + length (w_trace w) - length (w_trace w))%nat
    with (length new) by lia.
  apply take_app_length.
Qed.












(** *** Functions that neither release a lock nor mark anything FAILED *)








Lemma dev_mount_is_writable_plain fs_root t w :
  wp (dev_mount_is_writable fs_root t)
     (fun _ w' => w_dev w' = w_dev w /\
                  extends (only [CL_FS]) (w_trace w) (w_trace w')) w.
Proof.
  unfold dev_mount_is_writable.
  wp_steps; (split; [reflexivity | solve_extends]).
Qed.






(** *** The paths that mark a medium FAILED *)












Lemma clean_tosync_array_full rc w :
  wp (clean_tosync_array rc)
     (fun _ w' =>
        w_dev w' = dev_with_needs_sync false
                     (dev_with_sync_params (SyncParams [] ts_zero 0) (w_dev w)) /\
        bookkeeping w w') w.
Proof. apply wp_and; [apply clean_tosync_array_dev | apply clean_tosync_array_book]. Qed.




Lemma app_cons_eq {A} (x : A) l n t : l = n ++ t -> x :: l = (x :: n) ++ t.
Proof. intros ->. reflexivity. Qed.

(** [l = ?new ++ t]: the events in front of [t]. *)
Ltac list_prefix :=
  repeat (apply app_cons_eq);
  lazymatch goal with |- ?t = _ ++ ?t => exact (eq_refl : t = [] ++ t) end.




(** ** End of the device thread *)




















(** * Further properties of the device worker *)

(** ** Library and filesystem operations *)

(** The events in front of the trace of [w]. *)
Ltac new_events_exact :=
  match goal with
  | |- context [new_events ?w ?w'] =>
      erewrite (new_events_app w w') by (cbn [w_trace]; list_prefix)
  end.

Lemma wrap_lib_open_unopened family w :
  family <> PHO_RSC_DIR ->
  res_rc (answer_at w 0 (GetLibAdapter (lib_type_of family))) = 0 ->
  res_rc (answer_at w 1 CfgGetLibDevice) <> 0 ->
  wrap_lib_open family w =
    (0, World (w_dev w) (w_reqs w) (w_running w) (w_env w)
              ([EvCall CfgGetLibDevice (answer_at w 1 CfgGetLibDevice);
                EvCall (GetLibAdapter (lib_type_of family))
                  (answer_at w 0 (GetLibAdapter (lib_type_of family)))]
               ++ w_trace w)).
Proof.
  unfold answer_at. cbn [Nat.add]. intros Hf Ha Hc.
  apply Z.eqb_neq in Hc.
  destruct family; [contradiction | |];
    cbn [lib_type_of] in *; unfold wrap_lib_open; mstep;
    rewrite Ha; mstep; rewrite Hc; mstep; reflexivity.
Qed.

(** X1.  For a tape or RADOS device, when the library adapter is found but
    the configuration names no library device, [wrap_lib_open] returns 0
    and makes no [ldm_lib_open] call.  [dev_unload] on such a device then
    goes on and asks the library to move the medium, still without any
    [ldm_lib_open]. *)
Theorem wrap_lib_open_missing_lib_device (w : world) :
  let family := d_family (ld_dss_dev_info (w_dev w)) in
  family <> PHO_RSC_DIR ->
  res_rc (answer_at w 0 (GetLibAdapter (lib_type_of family))) = 0 ->
  res_rc (answer_at w 1 CfgGetLibDevice) <> 0 ->
  fst (wrap_lib_open family w) = 0 /\
  List.filter is_lib_open (w_trace (snd (wrap_lib_open family w))) =
    List.filter is_lib_open (w_trace w) /\
  (exists r, In (EvCall (unload_move (w_dev w)) r)
                (new_events w (snd (dev_unload w)))) /\
  List.filter is_lib_open (w_trace (snd (dev_unload w))) =
    List.filter is_lib_open (w_trace w).
Proof.
  intros family Hf Ha Hc.
  pose proof (wrap_lib_open_unopened family w Hf Ha Hc) as Hw.
  rewrite Hw. cbn [fst snd w_trace].
  split; [reflexivity|]. split; [reflexivity|].
  assert (Hu : exists new,
             w_trace (snd (dev_unload w)) = new ++ w_trace w /\
             (exists r, In (EvCall (unload_move (w_dev w)) r) new) /\
             List.filter is_lib_open new = []).
  { unfold dev_unload, bind at 1, get_dev at 1. cbn beta iota.
    unfold bind at 1. fold family. rewrite Hw. cbn beta iota.
    set (w1 := World _ _ _ _ _).
    change (negb (0 =? 0)) with false. cbn iota.
    unfold dss_medium_release, unload_move.
    mstep.
    repeat match goal with
           | |- context [if ?b then _ else _] => destruct b; mstep
           end;
      (eexists; split; [list_prefix|]; split;
       [eexists; simpl; auto 10 | reflexivity]). }
  destruct Hu as (new & Ht & Hin & Hno).
  rewrite (new_events_app _ _ _ Ht). split; [exact Hin|].
  rewrite Ht, List.filter_app, Hno. reflexivity.
Qed.

Lemma wrap_lib_open_missing_lib_device_witness :
  fst (wrap_lib_open PHO_RSC_TAPE world_no_lib_device) = 0 /\
  List.filter is_lib_open (w_trace (snd (dev_unload world_no_lib_device))) = [].
Proof.
  destruct (wrap_lib_open_missing_lib_device world_no_lib_device)
    as (H1 & _ & _ & H4).
  - discriminate.
  - reflexivity.
  - vm_compute. lia.
  - split; [exact H1 | exact H4].
Defined.

Ltac leaf_facts :=
  repeat match goal with
         | H : _ /\ _ |- _ => destruct H as [? ?]
         end;
  repeat match goal with
         | H : w_dev ?w1 = _ |- _ => rewrite H in *; clear H
         end;
  dev_norm; bool_hyps; unfold elvis in *;
  repeat match goal with
         | H : context [if ?b then _ else _] |- _ => destruct b eqn:?
         | |- context [if ?b then _ else _] => destruct b eqn:?
         end;
  bool_hyps.

Lemma dev_unload_outcome w :
  wp dev_unload (unload_outcome w) w.
Proof.
  unfold dev_unload, wrap_lib_open, dss_medium_release.
  apply wp_bind, wp_get_dev.
  destruct (d_family (ld_dss_dev_info (w_dev w)));
    wp_steps; unfold unload_outcome, unload_move; new_events_exact;
    leaf_facts; cbn [List.filter is_media_unlock hd_error];
    repeat split; intros; simpl in *; solve [naive_solver].
Qed.




Lemma dev_umount_status w :
  wp dev_umount
     (fun rc w' =>
        ld_dss_media_info (w_dev w') = ld_dss_media_info (w_dev w) /\
        (rc = 0 -> ld_op_status (w_dev w') = PHO_DEV_OP_ST_LOADED) /\
        (rc <> 0 -> ld_op_status (w_dev w') = PHO_DEV_OP_ST_FAILED)) w.
Proof.
  unfold dev_umount.
  repeat first [ progress wp_steps | wp_use clean_tosync_array_full ];
    leaf_facts; repeat split; intros; solve [reflexivity | congruence | lia].
Qed.

(** X3.  [dev_empty] does nothing on an EMPTY device and returns 0; on a
    FAILED device it does nothing and returns -EINVAL.  Whenever it returns
    0 the device is EMPTY, and has no medium any more if it was not EMPTY
    before.  Whenever it returns an error the device is FAILED, or it is
    EMPTY without medium (the library work was done and only the unlock of
    the medium in the DSS failed). *)
Theorem dev_empty_postcondition (w : world) :
  let rc := fst (dev_empty w) in
  let w' := snd (dev_empty w) in
  (ld_op_status (w_dev w) = PHO_DEV_OP_ST_EMPTY -> rc = 0 /\ w' = w) /\
  (ld_op_status (w_dev w) = PHO_DEV_OP_ST_FAILED -> rc = - EINVAL /\ w' = w) /\
  (rc = 0 -> ld_op_status (w_dev w') = PHO_DEV_OP_ST_EMPTY) /\
  (rc = 0 -> ld_op_status (w_dev w) <> PHO_DEV_OP_ST_EMPTY ->
   ld_dss_media_info (w_dev w') = None) /\
  (rc <> 0 ->
   ld_op_status (w_dev w') = PHO_DEV_OP_ST_FAILED \/
   (ld_op_status (w_dev w') = PHO_DEV_OP_ST_EMPTY /\
    ld_dss_media_info (w_dev w') = None)).
Proof.
  apply (wp_run dev_empty
           (fun rc w' =>
              (ld_op_status (w_dev w) = PHO_DEV_OP_ST_EMPTY -> rc = 0 /\ w' = w) /\
              (ld_op_status (w_dev w) = PHO_DEV_OP_ST_FAILED ->
               rc = - EINVAL /\ w' = w) /\
              (rc = 0 -> ld_op_status (w_dev w') = PHO_DEV_OP_ST_EMPTY) /\
              (rc = 0 -> ld_op_status (w_dev w) <> PHO_DEV_OP_ST_EMPTY ->
               ld_dss_media_info (w_dev w') = None) /\
              (rc <> 0 ->
               ld_op_status (w_dev w') = PHO_DEV_OP_ST_FAILED \/
               (ld_op_status (w_dev w') = PHO_DEV_OP_ST_EMPTY /\
                ld_dss_media_info (w_dev w') = None)))).
  unfold dev_empty.
  repeat first
    [ progress wp_steps
    | wp_use dev_umount_status
    | wp_use dev_unload_outcome ].
  all: try match goal with
           | H : unload_outcome ?w1 ?a ?w2 |- _ =>
               destruct H as (Hok & Hun & Hfail & _);
               destruct (List.filter is_media_unlock (new_events w1 w2)) eqn:Hf;
               [ specialize (fun H => Hfail H eq_refl); clear Hun
               | assert (Hun' : e :: l <> []) by discriminate;
                 specialize (Hun Hun'); clear Hfail ]
           end.
  all: leaf_facts; unfold EINVAL in *.
  all: repeat split; intros;
    try solve [ congruence | naive_solver lia
              | destruct (ld_op_status (w_dev w)); naive_solver ].
Qed.

Lemma dev_empty_postcondition_witness :
  fst (dev_empty world_close_fails) <> 0 /\
  ld_op_status (w_dev (snd (dev_empty world_close_fails))) = PHO_DEV_OP_ST_FAILED.
Proof.
  assert (Hrc : fst (dev_empty world_close_fails) <> 0) by (vm_compute; discriminate).
  split; [exact Hrc|].
  destruct (dev_empty_postcondition world_close_fails) as (_ & _ & _ & _ & H).
  destruct (H Hrc) as [Hf | [He _]]; [exact Hf | vm_compute in He; discriminate He].
Defined.





(** ** The read-only test fails open *)

Lemma dev_mount_is_writable_on_error fs_root t w :
  res_rc (answer_at w 0 (GetFsAdapter t)) <> 0 \/
  res_rc (answer_at w 1 (LdmFsDf fs_root)) <> 0 ->
  fst (dev_mount_is_writable fs_root t w) = true /\
  calls_of [CL_DSS] (w_trace (snd (dev_mount_is_writable fs_root t w))) =
    calls_of [CL_DSS] (w_trace w) /\
  w_dev (snd (dev_mount_is_writable fs_root t w)) = w_dev w /\
  w_reqs (snd (dev_mount_is_writable fs_root t w)) = w_reqs w.
Proof.
  unfold dev_mount_is_writable, answer_at. cbn [Nat.add]. mstep.
  intros H.
  destruct (res_rc (w_env w (length (w_trace w)) (GetFsAdapter t)) =? 0) eqn:E1;
    mstep; [|repeat split; reflexivity].
  destruct (res_rc (w_env w (S (length (w_trace w))) (LdmFsDf fs_root)) =? 0) eqn:E2;
    mstep; [|repeat split; reflexivity].
  bool_hyps. destruct H; contradiction.
Qed.

(** X5.  [dev_mount_is_writable] answers true whenever the filesystem
    adapter is not found or [df] fails: the error is read as "writable".
    For a write sub-request just after the mount, [dev_handle_read_write]
    then goes on exactly as for a writable medium: the allocation result is
    handled with code 0 from the state the test left, the medium in memory
    is untouched and no DSS call has been made by the test. *)
Theorem read_only_test_fails_open (w : world) :
  let d := w_dev w in
  let test := dev_mount_is_writable (ld_mnt_path d) (m_fs_type (loaded_medium d)) in
  pho_request_is_write (pending_request w) = true ->
  res_rc (answer_at w 0 (fs_adapter_call w)) <> 0 \/
  res_rc (answer_at w 1 (df_call w)) <> 0 ->
  fst (test w) = true /\
  w_dev (snd (test w)) = d /\
  calls_of [CL_DSS] (w_trace (snd (test w))) = calls_of [CL_DSS] (w_trace w) /\
  dev_handle_read_write_mounted w =
    dev_handle_read_write_alloc_result 0 false false (snd (test w)).
Proof.
  intros d test Hw Herr. subst d test.
  destruct (dev_mount_is_writable_on_error _ _ w Herr) as (Ht & Hdss & Hdev & _).
  split; [exact Ht|]. split; [exact Hdev|]. split; [exact Hdss|].
  unfold dev_handle_read_write_mounted, pending_request in *.
  unfold bind at 1, get_dev at 1. cbn beta iota.
  unfold bind at 1, get_reqc at 1. cbn beta iota.
  rewrite Hw.
  unfold bind at 1. unfold bind at 1.
  destruct (dev_mount_is_writable _ _ w) as [b w1] eqn:E.
  cbn [fst snd] in *. subst b. reflexivity.
Qed.

Lemma read_only_test_fails_open_witness :
  fst (dev_handle_read_write_mounted world_mounted_df_fails) = 0 /\
  calls_of [CL_DSS]
    (w_trace (snd (dev_handle_read_write_mounted world_mounted_df_fails))) = [].
Proof.
  assert (H : dev_handle_read_write_mounted world_mounted_df_fails =
              dev_handle_read_write_alloc_result 0 false false
                (snd (dev_mount_is_writable "/mnt/phobos-st0" PHO_FS_LTFS
                        world_mounted_df_fails))).
  { apply (read_only_test_fails_open world_mounted_df_fails).
    - reflexivity.
    - right. vm_compute. discriminate. }
  rewrite H. split; vm_compute; reflexivity.
Defined.

(** ** Responses and the sync list *)

Lemma strdup_all_allocs names w :
  wp (strdup_all names)
     (fun rc w' =>
        w_dev w' = w_dev w /\ w_reqs w' = w_reqs w /\
        (rc = 0 -> extends is_alloc (w_trace w) (w_trace w')) /\
        (rc <> 0 ->
         exists n r t, w_trace w' = EvCall (Strdup n) r :: t /\ res_rc r = rc /\
                       extends is_alloc (w_trace w) t)) w.
Proof.
  revert w. induction names as [|n names IH]; intros w; simpl.
  - apply wp_ret. repeat split; [intros; apply extends_refl | intros; contradiction].
  - wp_steps; bool_hyps.
    + repeat split; [intros; contradiction|].
      intros _. eexists _, _, _. split; [reflexivity|]. split; [reflexivity|].
      apply extends_refl.
    + eapply wp_mono; [apply IH|]. cbn beta. intros rc w' (-> & -> & H0 & H1).
      split; [reflexivity|]. split; [reflexivity|]. cbn [w_trace] in *. split.
      * intros Hrc. eapply extends_trans; [|exact (H0 Hrc)].
        apply extends_cons; [reflexivity | apply extends_refl].
      * intros Hrc. destruct (H1 Hrc) as (n' & r' & t & Ht & Hr & He).
        exists n', r', t. split; [exact Ht|]. split; [exact Hr|].
        eapply extends_trans; [|exact He].
        apply extends_cons; [reflexivity | apply extends_refl].
Qed.

Lemma extends_forall F t t' new :
  t' = new ++ t -> extends F t t' -> Forall (fun e => F e = true) new.
Proof.
  intros -> H. apply extends_app in H as (new' & Heq & Hall).
  apply app_inv_tail in Heq. subst. exact Hall.
Qed.

Lemma queue_release_response_outcome req w :
  wp (queue_release_response req)
     (fun rc w' =>
        w_dev w' = w_dev w /\ w_reqs w' = w_reqs w /\
        exists new,
          w_trace w' = new ++ w_trace w /\
          ((rc = 0 /\ release_answered req new) \/ release_refused req rc new)) w.
Proof.
  unfold queue_release_response, queue_error_response.
  repeat first [ progress wp_steps | wp_use strdup_all_allocs ].
  all: repeat match goal with
              | H : _ /\ _ |- _ => destruct H as [? ?]
              end; bool_hyps; cbn [w_dev w_reqs w_trace] in *.
  all: (split; [congruence|]; split; [congruence|]).
  1-3: eexists; (split; [list_prefix|]); right;
       match goal with
       | |- release_refused _ _
              (EvCall (QueueErrorResponse _ _) ?r :: EvCall ?c ?r' :: ?older) =>
           exists r, c, r', older
       end;
       (split; [reflexivity|]);
       (split; [reflexivity|]); (split; [assumption|]);
       (split; [repeat constructor | reflexivity]).
  - destruct (H2 Heqb2) as (n & r3 & t & Ht & Hr & He).
    apply extends_app in He as (older & -> & Hall). rewrite Ht.
    exists (EvCall (QueueErrorResponse a req) r2 :: EvCall (Strdup n) r3
            :: older ++ [EvCall SrlResponseAlloc r1; EvCall Malloc r0; EvCall Malloc r]).
    split; [cbn; rewrite <- app_assoc; reflexivity|].
    right. exists r2, (Strdup n), r3,
      (older ++ [EvCall SrlResponseAlloc r1; EvCall Malloc r0; EvCall Malloc r]).
    cbn [alloc_error]. rewrite Hr.
    split; [reflexivity|]. split; [reflexivity|]. split; [congruence|].
    split; [|reflexivity].
    apply Forall_app. split; [exact Hall | repeat constructor].
  - specialize (H1 Heqb2).
    apply extends_app in H1 as (older & -> & Hall).
    exists (EvCall (TsqueuePush RESPONSE_QUEUE (ItemReleaseResp req)) r2
            :: older ++ [EvCall SrlResponseAlloc r1; EvCall Malloc r0; EvCall Malloc r]).
    split; [cbn; rewrite <- app_assoc; reflexivity|].
    left. split; [reflexivity|].
    exists r2, (older ++ [EvCall SrlResponseAlloc r1; EvCall Malloc r0; EvCall Malloc r]).
    split; [reflexivity|].
    apply Forall_app. split; [exact Hall | repeat constructor].
Qed.

(** X6.  [queue_release_response] changes neither the device nor the
    requests, and has exactly two outcomes.  Either every memory request
    succeeded: it returns 0 and its last call pushes the release response.
    Or a memory request failed: nothing is pushed on the response queue,
    the call after the failed one queues an error response for the request,
    with -ENOMEM if a [malloc] failed and the code of the failed call
    otherwise, and the code of that queueing is returned. *)
Theorem queue_release_response_outcomes (req : option nat) (w : world) :
  let rc := fst (queue_release_response req w) in
  let w' := snd (queue_release_response req w) in
  w_dev w' = w_dev w /\ w_reqs w' = w_reqs w /\
  ((rc = 0 /\ release_answered req (new_events w w')) \/
   release_refused req rc (new_events w w')) /\
  (release_refused req rc (new_events w w') ->
   release_responses (w_trace w') = release_responses (w_trace w)).
Proof.
  intros rc w'. subst rc w'.
  destruct (wp_run _ _ _ (queue_release_response_outcome req w))
    as (Hd & Hr & new & Ht & Hout).
  rewrite (new_events_app _ _ _ Ht).
  split; [exact Hd|]. split; [exact Hr|]. split; [exact Hout|].
  intros (r & failed & r' & older & -> & Hf & _ & Hall & _).
  rewrite Ht. unfold release_responses.
  rewrite List.filter_app, length_app.
  assert (Hz : forall l, Forall (fun e => is_alloc e = true) l ->
                         List.filter is_release_response l = []).
  { induction 1 as [|e l He _ IH]; [reflexivity|].
    simpl. rewrite IH. destruct e as [c x|]; [destruct c|]; try discriminate He;
      reflexivity. }
  assert (He : is_release_response (EvCall failed r') = false).
  { destruct failed; try discriminate Hf; reflexivity. }
  cbn [List.filter]. rewrite He, (Hz _ Hall). reflexivity.
Qed.

Lemma queue_release_response_outcomes_witness :
  release_responses
    (w_trace (snd (queue_release_response (Some 1%nat) world_release_no_memory))) = 0%nat.
Proof.
  destruct (queue_release_response_outcomes (Some 1%nat) world_release_no_memory)
    as (_ & _ & _ & H).
  rewrite H; [reflexivity|].
  exists ok_result, Malloc,
    (ExtResult (-1) ENOMEM ts_zero MED_LOC_SLOT (FsSpace 0 0 0) EmptyString),
    [EvCall Malloc ok_result].
  vm_compute. repeat split; try reflexivity; try discriminate.
  repeat constructor.
Defined.

(** *** The oldest instant of the sync list *)

Lemma ts_unset_ns t :
  ts_norm t -> ((tv_sec t =? 0) && (tv_nsec t =? 0) = true <-> ts_ns t = 0).
Proof.
  unfold ts_norm, ts_ns. intros Hn. rewrite andb_true_iff, !Z.eqb_eq. lia.
Qed.

Lemma update_oldest_tosync_min o c :
  ts_norm o -> 0 <= ts_ns o -> ts_proper c ->
  let o' := update_oldest_tosync o c in
  ts_proper o' /\ ts_ns o' <= ts_ns c /\
  (0 < ts_ns o -> ts_ns o' <= ts_ns o) /\
  ((o' = o /\ 0 < ts_ns o) \/ o' = c).
Proof.
  intros Hno Hpo [Hnc Hpc]. unfold update_oldest_tosync.
  destruct ((tv_sec o =? 0) && (tv_nsec o =? 0)) eqn:Ez; cbn [orb].
  - apply (ts_unset_ns o Hno) in Ez. cbv zeta.
    split; [split; assumption|]. split; [lia|]. split; [lia|].
    right. reflexivity.
  - assert (Hz : ts_ns o <> 0).
    { intros H0. apply (ts_unset_ns o Hno) in H0. congruence. }
    destruct (is_older_or_equal c o) eqn:Eo; cbv zeta.
    + apply (is_older_or_equal_ns c o Hnc Hno) in Eo.
      split; [split; assumption|]. split; [lia|]. split; [lia|].
      right. reflexivity.
    + assert (Hlt : ts_ns o < ts_ns c).
      { destruct (Z.lt_ge_cases (ts_ns o) (ts_ns c)) as [|Hge]; [assumption|].
        apply (is_older_or_equal_ns c o Hnc Hno) in Hge. congruence. }
      split; [split; [assumption | lia]|]. split; [lia|]. split; [lia|].
      left. split; [reflexivity | lia].
Qed.

Lemma fold_update_oldest (w : world) (arr : list sub_request) : forall o,
  ts_norm o -> 0 <= ts_ns o ->
  Forall (fun r => ts_proper (received w r)) arr ->
  let o' := fold_left (fun o r => update_oldest_tosync o (received w r)) arr o in
  ts_norm o' /\ 0 <= ts_ns o' /\
  (arr <> [] -> 0 < ts_ns o') /\
  Forall (fun r => ts_ns o' <= ts_ns (received w r)) arr /\
  (0 < ts_ns o -> ts_ns o' <= ts_ns o) /\
  ((o' = o /\ (arr = [] \/ 0 < ts_ns o)) \/ Exists (fun r => o' = received w r) arr).
Proof.
  induction arr as [|r arr IH]; intros o Hno Hpo Hall; cbn [fold_left]; cbv zeta.
  - split; [exact Hno|]. split; [exact Hpo|]. split; [congruence|].
    split; [constructor|]. split; [lia|].
    left. split; [reflexivity | left; reflexivity].
  - inversion Hall as [|? ? Hr Hrest]; subst.
    destruct (update_oldest_tosync_min o (received w r) Hno Hpo Hr)
      as ([Hn1 Hp1] & Hle & Hold & Hwhich).
    specialize (IH (update_oldest_tosync o (received w r)) Hn1 ltac:(lia) Hrest).
    cbv zeta in IH. destruct IH as (Hn' & Hp' & _ & Hall' & Hold' & Hwhich').
    specialize (Hold' Hp1).
    split; [exact Hn'|]. split; [exact Hp'|].
    split; [intros _; destruct Hwhich' as [[-> _] | Hex]; [exact Hp1|]|].
    { apply Exists_exists in Hex as (x & Hin & ->).
      rewrite Forall_forall in Hrest. apply (Hrest x Hin). }
    split; [constructor; [lia | exact Hall']|].
    split; [intros Hpos; specialize (Hold Hpos); lia|].
    destruct Hwhich' as [[-> _] | Hex].
    + destruct Hwhich as [[-> Hpos] | ->].
      * left. split; [reflexivity | right; exact Hpos].
      * right. constructor. reflexivity.
    + right. apply Exists_cons_tl. exact Hex.
Qed.

(** X7.  [update_queue_oldest_tosync] resets the oldest instant to zero on
    an empty list.  On a list of sub-requests received at proper instants
    (normalised, after the epoch), the instant it leaves is proper, not
    later than the reception of any sub-request of the list, and it is
    either the reception instant of one of them or the instant that was on
    record before; when an instant was on record, the new one is never
    later than it: the scan only moves the oldest instant backwards, so an
    instant older than every sub-request left in the list stays on record.
    Nothing else of the device changes. *)
Theorem update_queue_oldest_tosync_minimum (w : world) :
  let arr := tosync_array (ld_sync_params (w_dev w)) in
  let w' := snd (update_queue_oldest_tosync w) in
  ts_norm (oldest_of w) -> 0 <= ts_ns (oldest_of w) ->
  Forall (fun r => ts_proper (received w r)) arr ->
  w_dev w' = dev_with_sync_params
               (sync_with_oldest (oldest_of w') (ld_sync_params (w_dev w)))
               (w_dev w) /\
  (arr = [] -> oldest_of w' = ts_zero) /\
  (arr <> [] ->
   ts_proper (oldest_of w') /\
   Forall (fun r => ts_ns (oldest_of w') <= ts_ns (received w r)) arr /\
   (0 < ts_ns (oldest_of w) -> ts_ns (oldest_of w') <= ts_ns (oldest_of w)) /\
   ((oldest_of w' = oldest_of w /\ 0 < ts_ns (oldest_of w)) \/
    Exists (fun r => oldest_of w' = received w r) arr)).
Proof.
  intros arr w' Hno Hpo Hall. subst w'.
  unfold update_queue_oldest_tosync, bind, get_dev, modify_dev, oldest_of in *.
  cbn [fst snd].
  fold arr. destruct arr as [|r0 arr0] eqn:Earr.
  - cbn [snd w_dev]. dev_norm. unfold sync_with_oldest. cbn [oldest_tosync].
    split; [reflexivity|]. split; [reflexivity | congruence].
  - cbn [snd w_dev]. dev_norm. unfold sync_with_oldest. cbn [oldest_tosync].
    split; [reflexivity|]. split; [discriminate|]. intros _.
    pose proof (fold_update_oldest w (r0 :: arr0) _ Hno Hpo Hall) as H.
    cbv zeta in H. unfold received in *.
    destruct H as (Hn & Hp & Hpos & Hle & Hold & Hwhich).
    split; [split; [exact Hn | apply Hpos; discriminate]|].
    split; [exact Hle|]. split; [exact Hold|].
    destruct Hwhich as [[He [Hnil | Hpos']] | Hex];
      [discriminate Hnil | left; split; assumption | right; exact Hex].
Qed.

Lemma update_queue_oldest_tosync_minimum_witness :
  ts_ns (oldest_of (snd (update_queue_oldest_tosync world_stale_oldest)))
  <= ts_ns (Timespec 70 0).
Proof.
  destruct (update_queue_oldest_tosync_minimum world_stale_oldest)
    as (_ & _ & H).
  - vm_compute. split; [discriminate | reflexivity].
  - vm_compute. discriminate.
  - repeat constructor; vm_compute; first [discriminate | reflexivity].
  - destruct H as (_ & _ & Hold & _); [discriminate|].
    apply Hold. vm_compute. reflexivity.
Defined.

(** ** Cancelled releases in the sync list *)











(** ** Loading a medium *)



(** ** A format request at thread end *)

Lemma cancel_pending_format_cancels w sr :
  ld_sub_request (w_dev w) = Some sr ->
  wp cancel_pending_format (fun _ w' => format_cancelled sr w w') w.
Proof.
  intros Hsr.
  unfold cancel_pending_format, dss_medium_release, sub_request_free,
    format_cancelled.
  apply wp_bind, wp_get_dev. rewrite Hsr.
  apply wp_bind, wp_get_reqc. unfold reqc_deref.
  destruct (reqc sr) as [n|] eqn:Hreq;
    [destruct (w_reqs w !! n) as [c|] eqn:Hc|]; cbn [default];
    try destruct (medium_to_format (p_format c)) as [m|] eqn:Hm;
    wp_steps; new_events_exact; cbn [w_reqs];
    rewrite ?lookup_alter_eq, ?Hc; cbn [fmap option_fmap option_map default];
    rewrite ?Hm;
    leaf_facts; unfold calls_of;
    cbn [List.filter is_format_removal is_requeue is_error_response
         is_failed_media_set only class_of class_of_call length];
    repeat split; intros; simpl in *; try solve [naive_solver lia].
  all: simplify_eq;
    match goal with
    | |- context [EvCall (DssUnlockMedia _) ?r0 = EvCall (DssUnlockMedia _) _] =>
        exists r0
    end;
    (split; [auto 10|]); (split; [intros; congruence|]); intros _;
    match goal with
    | |- context [EvCall (DssMediaSet _ _) ?r1 = EvCall (DssMediaSet _ _) _] =>
        exists r1
    end;
    (split; [auto 10|]);
    split; intros; first [congruence | eexists; simpl; auto 10].
Qed.

(** X10.  [cancel_pending_format] does nothing without a pending
    sub-request.  With one, the device forgets it, the request keeps no
    medium to format, the medium is withdrawn once from the ongoing formats
    and the request gets exactly one outcome: it is pushed back to the
    scheduler or an error response is queued.  When the medium was already
    transferred to the device no DSS call is made, and the request is
    refused with the thread status if that is an error, pushed back
    otherwise.  When the request still holds its medium, the DSS lock of
    the medium is released and the request pushed back; if the release
    fails the medium is marked FAILED in the DSS, and the request is still
    pushed back when that update succeeds, refused with the error of the
    update when it fails. *)
Theorem cancel_pending_format_outcome (w : world) :
  let w' := snd (cancel_pending_format w) in
  let new := new_events w w' in
  let st := th_status (ld_device_thread (w_dev w)) in
  (ld_sub_request (w_dev w) = None -> w' = w) /\
  (forall sr, ld_sub_request (w_dev w) = Some sr ->
   let medium := medium_to_format (p_format (reqc_deref (reqc sr) w)) in
   let requeued :=
     exists r, In (EvCall (TsqueuePush SCHED_REQ_QUEUE (ItemReqc (reqc sr))) r) new in
   let refused rc :=
     exists r, In (EvCall (QueueErrorResponse rc (reqc sr)) r) new in
   w_dev w' = dev_with_sub_request None (w_dev w) /\
   medium_to_format (p_format (reqc_deref (reqc sr) w')) = None /\
   length (List.filter is_format_removal new) = 1%nat /\
   (length (List.filter is_requeue new)
    + length (List.filter is_error_response new) = 1)%nat /\
   (medium = None ->
    calls_of [CL_DSS] new = [] /\
    (st = 0 -> requeued) /\ (st <> 0 -> refused st)) /\
   (forall m, medium = Some m ->
    exists r, In (EvCall (DssUnlockMedia m) r) new /\
      (res_rc r = 0 ->
       requeued /\ List.filter is_failed_media_set new = []) /\
      (res_rc r <> 0 ->
       exists r',
         In (EvCall (DssMediaSet (media_with_adm_status PHO_RSC_ADM_ST_FAILED m)
                                 [ADM_STATUS]) r') new /\
         (res_rc r' = 0 -> requeued) /\
         (res_rc r' <> 0 -> refused (res_rc r'))))).
Proof.
  intros w' new st. subst w' new st. split.
  - intros Hn. unfold cancel_pending_format, bind, get_dev. cbn [fst snd].
    rewrite Hn. reflexivity.
  - intros sr Hsr. exact (wp_run _ _ _ (cancel_pending_format_cancels w sr Hsr)).
Qed.

Lemma cancel_pending_format_outcome_witness :
  length (List.filter is_requeue
            (new_events world_format_pending
               (snd (cancel_pending_format world_format_pending)))) = 1%nat /\
  length (List.filter is_error_response
            (new_events world_format_pending
               (snd (cancel_pending_format world_format_pending)))) = 0%nat.
Proof.
  destruct (cancel_pending_format_outcome world_format_pending) as [_ H].
  destruct (H (SubRequest (Some 3%nat) 0 false) eq_refl)
    as (_ & _ & _ & Hone & _ & Hm).
  destruct (Hm sample_medium2 eq_refl) as (r & Hin & _ & Hfail).
  vm_compute in Hin.
  assert (Hr : res_rc r <> 0).
  { destruct Hin as [Hin | [Hin | [Hin | [Hin | []]]]]; try discriminate Hin.
    injection Hin as <-. discriminate. }
  destruct (Hfail Hr) as (r' & Hin' & Hq & _).
  vm_compute in Hin'.
  assert (Hr' : res_rc r' = 0).
  { destruct Hin' as [Hin' | [Hin' | [Hin' | [Hin' | []]]]]; try discriminate Hin'.
    injection Hin' as <-. reflexivity. }
  destruct (Hq Hr') as (r'' & Hin'').
  assert (Hone' : (1 <= length (List.filter is_requeue
            (new_events world_format_pending
               (snd (cancel_pending_format world_format_pending)))))%nat).
  { clear -Hin''. 
    assert (Hf : In (EvCall (TsqueuePush SCHED_REQ_QUEUE
                               (ItemReqc (reqc (SubRequest (Some 3%nat) 0 false)))) r'')
                    (List.filter is_requeue
                       (new_events world_format_pending
                          (snd (cancel_pending_format world_format_pending))))).
    { apply List.filter_In. split; [exact Hin'' | reflexivity]. }
    destruct (List.filter is_requeue _); [destruct Hf | cbn; lia]. }
  lia.
Defined.

(** ** The outcome of a format request *)

Lemma foreign_error_other i c p r :
  p <> Some i -> foreign i (EvCall (QueueErrorResponse c p) r) = true.
Proof.
  intros Hne. unfold foreign, is_format_outcome. cbn.
  rewrite bool_decide_eq_false_2 by exact Hne. reflexivity.
Qed.

Ltac solve_foreign :=
  cbn [w_trace];
  repeat (apply extends_cons;
          [first [reflexivity | apply foreign_error_other; congruence]|]);
  first
    [ apply extends_refl
    | match goal with
      | H : extends (foreign _) ?t0 ?t1 |- extends _ _ ?t1 =>
          eapply extends_trans; [|exact H]; solve_foreign
      end ].

Lemma strdup_all_foreign i names w :
  wp (strdup_all names)
     (fun _ w' => w_dev w' = w_dev w /\ w_reqs w' = w_reqs w /\
                  extends (foreign i) (w_trace w) (w_trace w')) w.
Proof.
  revert w. induction names as [|n names IH]; intros w; simpl.
  - apply wp_ret. repeat split. apply extends_refl.
  - wp_steps.
    + repeat split. solve_foreign.
    + eapply wp_mono; [apply IH|]. cbn beta. intros _ w' (-> & -> & He).
      repeat split. cbn [w_trace] in He. solve_foreign.
Qed.

Lemma queue_release_response_foreign req' i w :
  req' <> Some i ->
  wp (queue_release_response req')
     (fun _ w' => w_dev w' = w_dev w /\ w_reqs w' = w_reqs w /\
                  extends (foreign i) (w_trace w) (w_trace w')) w.
Proof.
  intros Hne. unfold queue_release_response.
  wp_steps; on_leaves ltac:(repeat split; solve_foreign).
  wp_use (strdup_all_foreign i).
  destruct H as (Hd & Hr & He). cbn [w_dev w_reqs w_trace] in *.
  wp_steps; cbn [w_dev w_reqs w_trace]; rewrite ?Hd, ?Hr;
    repeat split; solve_foreign.
Qed.

Lemma clean_tosync_step_foreign rc req internal i w :
  reqc req <> Some i ->
  wp (clean_tosync_step rc req internal)
     (fun _ w' => w_reqs w' !! i = w_reqs w !! i /\
                  extends (foreign i) (w_trace w) (w_trace w')) w.
Proof.
  intros Hne. unfold clean_tosync_step, sub_request_free.
  destruct req as [p idx fom]. cbn [reqc medium_index] in *.
  destruct p as [j|];
    wp_steps;
    on_leaves ltac:(cbn [w_dev w_reqs w_trace];
                    rewrite ?lookup_alter_ne by congruence;
                    split; [reflexivity | solve_foreign]).
  all: wp_use (queue_release_response_foreign); [eassumption|].
  all: destruct H as (Hd' & Hr' & He'); wp_steps; cbn [w_dev w_reqs w_trace] in *;
    rewrite ?Hr'; cbn [w_reqs];
    rewrite ?lookup_alter_ne by congruence;
    (split; [reflexivity | solve_foreign]).
Qed.

Lemma clean_tosync_loop_foreign rc i todo : forall internal w,
  Forall (fun r => reqc r <> Some i) todo ->
  wp (clean_tosync_loop rc todo internal)
     (fun _ w' => w_reqs w' !! i = w_reqs w !! i /\
                  extends (foreign i) (w_trace w) (w_trace w')) w.
Proof.
  induction todo as [|req rest IH]; intros internal w Hall; cbn [clean_tosync_loop].
  - apply wp_ret. split; [reflexivity | apply extends_refl].
  - inversion Hall as [|? ? Hreq Hrest]; subst.
    wp_steps.
    wp_use (clean_tosync_step_foreign rc req internal i); [exact Hreq|].
    destruct H as [Hr He]. cbn [w_reqs w_trace] in *.
    eapply wp_mono; [apply IH; exact Hrest|]. cbn beta.
    intros _ w'' [Hr'' He'']. split; [congruence|].
    eapply extends_trans; eassumption.
Qed.

Lemma clean_tosync_array_foreign rc i w :
  Forall (fun r => reqc r <> Some i) (tosync_array (ld_sync_params (w_dev w))) ->
  wp (clean_tosync_array rc)
     (fun _ w' => ld_sub_request (w_dev w') = ld_sub_request (w_dev w) /\
                  ld_op_status (w_dev w') = ld_op_status (w_dev w) /\
                  ld_dss_media_info (w_dev w') = ld_dss_media_info (w_dev w) /\
                  w_reqs w' !! i = w_reqs w !! i /\
                  extends (foreign i) (w_trace w) (w_trace w')) w.
Proof.
  intros Hall.
  apply wp_and; [|apply wp_and; [|apply wp_and]];
    try (eapply wp_mono; [apply clean_tosync_array_dev|]; cbn beta;
         intros _ w' ->; reflexivity).
  unfold clean_tosync_array. wp_steps.
  wp_use (clean_tosync_loop_foreign rc i).
  { apply Forall_rev. exact Hall. }
  wp_steps. exact H.
Qed.

Lemma dev_empty_foreign i w :
  Forall (fun r => reqc r <> Some i) (tosync_array (ld_sync_params (w_dev w))) ->
  wp dev_empty
     (fun _ w' => ld_sub_request (w_dev w') = ld_sub_request (w_dev w) /\
                  w_reqs w' !! i = w_reqs w !! i /\
                  extends (foreign i) (w_trace w) (w_trace w')) w.
Proof.
  intros Hall.
  unfold dev_empty, dev_umount, dev_unload, dss_medium_release, wrap_lib_open.
  repeat first
    [ progress wp_steps
    | match goal with
      | |- wp (match ?x with PHO_RSC_DIR => _ | _ => _ end) _ _ => destruct x
      end
    | wp_use (clean_tosync_array_foreign) ];
    try exact Hall.
  all: use_facts; dev_norm.
  all: repeat match goal with |- _ /\ _ => split end;
    try congruence; solve_foreign.
Qed.

Lemma dev_load_foreign i m release free_medium w :
  wp (dev_load m release free_medium)
     (fun lr w' => ld_sub_request (w_dev w') = ld_sub_request (w_dev w) /\
                   w_reqs w' = w_reqs w /\
                   extends (foreign i) (w_trace w) (w_trace w') /\
                   (lr_rc lr = 0 ->
                    ld_op_status (w_dev w') = PHO_DEV_OP_ST_LOADED)) w.
Proof.
  unfold dev_load, dev_load_out_close, fail_release_free_medium,
    dss_set_medium_to_failed, dss_medium_release, wrap_lib_open.
  repeat first
    [ progress wp_steps
    | match goal with
      | |- wp (match ?x with PHO_RSC_DIR => _ | _ => _ end) _ _ => destruct x
      end ].
  all: dev_norm; cbn [lr_rc]; bool_hyps; unfold elvis, EBUSY in *.
  all: repeat match goal with |- _ /\ _ => split end;
    try reflexivity; try solve_foreign.
  all: intros; repeat match goal with
                      | H : context [if ?b then _ else _] |- _ => destruct b eqn:?
                      end; bool_hyps; first [reflexivity | congruence | lia].
Qed.

Lemma occurrences_cons P e t :
  occurrences P (e :: t) = ((if P e then 1 else 0) + occurrences P t)%nat.
Proof. unfold occurrences. cbn [List.filter]. destruct (P e); reflexivity. Qed.

Lemma foreign_occurrences i t t' :
  extends (foreign i) t t' ->
  extends (fun _ => true) t t' /\
  occurrences (is_format_outcome i) t' = occurrences (is_format_outcome i) t /\
  occurrences is_format_removal t' = occurrences is_format_removal t /\
  occurrences is_format_record t' = occurrences is_format_record t /\
  occurrences is_requeue t' = occurrences is_requeue t /\
  occurrences is_format_response t' = occurrences is_format_response t.
Proof.
  intros H. unfold occurrences.
  split; [eapply extends_weaken; [|exact H]; reflexivity|].
  repeat split; f_equal; (eapply extends_filter_out; [|exact H]);
    intros e He; unfold foreign, is_format_outcome in *;
    destruct (is_error_response_for (Some i) e), (is_format_response e),
      (is_requeue e), (is_format_removal e), (is_format_record e);
    simpl in *; congruence.
Qed.

Lemma outcome_error_same i c r :
  is_format_outcome i (EvCall (QueueErrorResponse c (Some i)) r) = true.
Proof.
  unfold is_format_outcome. cbn. rewrite bool_decide_eq_true_2; reflexivity.
Qed.

Ltac solve_any :=
  cbn [w_trace];
  repeat (apply extends_cons; [reflexivity|]);
  first
    [ apply extends_refl
    | match goal with
      | H : extends (fun _ => true) ?t0 ?t1 |- extends _ _ ?t1 =>
          eapply extends_trans; [|exact H]; solve_any
      end ].

Ltac count_facts :=
  repeat match goal with
         | H : _ /\ _ |- _ => destruct H as [? ?]
         end;
  repeat match goal with
         | H : extends (foreign _) _ _ |- _ =>
             apply foreign_occurrences in H;
             destruct H as (? & ? & ? & ? & ? & ?)
         end;
  dev_norm; rewrite ?store_loaded_medium_op in *; dev_norm;
  rewrite ?occurrences_cons in *.

Lemma dev_handle_format_counts w sr i :
  ld_sub_request (w_dev w) = Some sr -> reqc sr = Some i ->
  Forall (fun r => reqc r <> Some i) (tosync_array (ld_sync_params (w_dev w))) ->
  wp dev_handle_format
     (fun rc w' =>
        let t := w_trace w in
        let t' := w_trace w' in
        extends (fun _ => true) t t' /\
        (ld_sub_request (w_dev w') <> None ->
         rc = 0 /\
         occurrences (is_format_outcome i) t' = occurrences (is_format_outcome i) t /\
         occurrences is_format_removal t' = occurrences is_format_removal t) /\
        (ld_sub_request (w_dev w') = None ->
         occurrences (is_format_outcome i) t'
           = S (occurrences (is_format_outcome i) t) /\
         occurrences is_format_removal t' = S (occurrences is_format_removal t)) /\
        (occurrences is_requeue t' <> occurrences is_requeue t -> rc <> 0) /\
        (occurrences is_format_response t' <> occurrences is_format_response t ->
         rc = 0 /\ ld_op_status (w_dev w') = PHO_DEV_OP_ST_LOADED /\
         occurrences is_format_record t' = S (occurrences is_format_record t))) w.
Proof.
  intros Hsr Hreq Hall.
  unfold dev_handle_format, dev_handle_format_out_response,
    dev_handle_format_out, queue_format_response, queue_error_response,
    dev_format, sub_request_free, modify_sub_request, pending_sub_request.
  apply wp_bind, wp_get_dev. rewrite Hsr.
  change (default no_sub_request (Some sr)) with sr. rewrite Hreq.
  repeat first
    [ progress wp_steps
    | wp_use (dev_empty_foreign i); [exact Hall|]
    | wp_use (dev_load_foreign i) ].
  all: count_facts.
  all: rewrite ?outcome_error_same in *;
    cbn [is_format_outcome is_error_response_for is_format_response is_requeue
         is_format_removal is_format_record orb andb] in *.
  all: split; [solve_any|]; bool_hyps.
  all: repeat match goal with
              | H : (if ?b then (_, _) else (_, _)) = (_, _) |- _ =>
                  destruct b; injection H as <- <-
              end.
  all: repeat match goal with
              | |- _ /\ _ => split
              | |- _ -> _ => intro
              end;
    try lia; try congruence.
  all: try (repeat match goal with
                   | H : ld_sub_request (w_dev _) = _ |- _ => rewrite H in *
                   end; discriminate).
  all: try (match goal with
            | H : _ -> ld_op_status _ = _ |- _ => apply H; congruence
            end).
  all: try (rewrite !bool_decide_eq_true_2 by first [reflexivity | set_solver];
            repeat match goal with
                   | H : res_rc ?r = 0 |- context [res_rc ?r =? 0] => rewrite H
                   end; cbn; lia).
Qed.

Lemma occurrences_new P w w' :
  extends (fun _ => true) (w_trace w) (w_trace w') ->
  occurrences P (w_trace w') =
    (occurrences P (new_events w w') + occurrences P (w_trace w))%nat.
Proof.
  intros H. apply extends_app in H as (new & Ht & _).
  rewrite (new_events_app _ _ _ Ht), Ht. unfold occurrences.
  rewrite List.filter_app, length_app. reflexivity.
Qed.

(** X11.  The format handler gives the request it holds exactly one
    outcome, or none yet.  Take a device whose pending sub-request belongs
    to the container [i], with no release of that container in the sync
    list.  If the sub-request is still pending when [dev_handle_format]
    returns, the return code is 0 and the call has brought no outcome for
    the request (no error response for it, no format response, no push back
    to the scheduler) and has not withdrawn the medium from the ongoing
    formats.  Otherwise it has brought exactly one outcome and withdrawn the
    medium exactly once.  A push back to the scheduler comes with a non-zero
    return code.  A format response comes with return code 0 on a LOADED
    device, after the DSS accepted exactly one record of the medium with an
    EMPTY filesystem. *)
Theorem dev_handle_format_outcome (w : world) (sr : sub_request) (i : nat) :
  ld_sub_request (w_dev w) = Some sr ->
  reqc sr = Some i ->
  Forall (fun r => reqc r <> Some i) (tosync_array (ld_sync_params (w_dev w))) ->
  let rc := fst (dev_handle_format w) in
  let w' := snd (dev_handle_format w) in
  let new := new_events w w' in
  (ld_sub_request (w_dev w') <> None ->
   rc = 0 /\
   occurrences (is_format_outcome i) new = 0%nat /\
   occurrences is_format_removal new = 0%nat) /\
  (ld_sub_request (w_dev w') = None ->
   occurrences (is_format_outcome i) new = 1%nat /\
   occurrences is_format_removal new = 1%nat) /\
  (occurrences is_requeue new <> 0%nat -> rc <> 0) /\
  (occurrences is_format_response new <> 0%nat ->
   rc = 0 /\ ld_op_status (w_dev w') = PHO_DEV_OP_ST_LOADED /\
   occurrences is_format_record new = 1%nat).
Proof.
  intros Hsr Hreq Hall rc w' new. subst rc w' new.
  pose proof (wp_run _ _ _ (dev_handle_format_counts w sr i Hsr Hreq Hall)) as H.
  cbv zeta in H. destruct H as (He & Hkept & Hgone & Hrq & Hresp).
  rewrite !(occurrences_new _ _ _ He) in *.
  split; [intros Hk; specialize (Hkept Hk); lia|].
  split; [intros Hg; specialize (Hgone Hg); lia|].
  split; [intros Hn; apply Hrq; lia|].
  intros Hn. destruct Hresp as (? & ? & ?); [lia|].
  split; [assumption|]. split; [assumption | lia].
Qed.

Lemma dev_handle_format_outcome_witness :
  fst (dev_handle_format world_format_pending) = 0 /\
  ld_op_status (w_dev (snd (dev_handle_format world_format_pending)))
    = PHO_DEV_OP_ST_LOADED.
Proof.
  destruct (dev_handle_format_outcome world_format_pending
              (SubRequest (Some 3%nat) 0 false) 3%nat)
    as (_ & _ & _ & H).
  - reflexivity.
  - reflexivity.
  - constructor.
  - destruct H as (H1 & H2 & _); [vm_compute; discriminate|].
    split; [exact H1 | exact H2].
Defined.

(** ** Thread end after an error *)

Ltac stage_leaf :=
  use_facts; unfold end_stage; dev_norm;
  repeat match goal with
         | H : w_dev _ = _ |- _ => rewrite H in *
         end;
  dev_norm;
  repeat match goal with
         | |- _ /\ _ => split
         | |- _ -> _ => intro
         end;
  bool_hyps;
  try solve [reflexivity | congruence | contradiction | solve_extends].

Lemma cancel_pending_format_stage w :
  wp cancel_pending_format
     (fun _ w' => end_stage w w' /\
                  ld_sub_request (w_dev w') = None /\
                  ld_dss_media_info (w_dev w') = ld_dss_media_info (w_dev w)) w.
Proof.
  unfold cancel_pending_format, dss_medium_release, sub_request_free,
    queue_error_response.
  wp_steps; stage_leaf.
Qed.

Lemma dev_thread_end_mounted_medium_stage w :
  th_status (ld_device_thread (w_dev w)) <> 0 ->
  wp dev_thread_end_mounted_medium
     (fun _ w' =>
        end_stage w w' /\
        ld_sub_request (w_dev w') = ld_sub_request (w_dev w) /\
        (ld_op_status (w_dev w) = PHO_DEV_OP_ST_MOUNTED ->
         ld_dss_media_info (w_dev w') = None) /\
        (ld_op_status (w_dev w) <> PHO_DEV_OP_ST_MOUNTED ->
         ld_dss_media_info (w_dev w') = ld_dss_media_info (w_dev w))) w.
Proof.
  intros Hne.
  unfold dev_thread_end_mounted_medium, fail_release_free_medium,
    dss_set_medium_to_failed, dss_medium_release.
  wp_steps; stage_leaf.
Qed.

Lemma dev_thread_end_loaded_medium_stage w :
  th_status (ld_device_thread (w_dev w)) <> 0 ->
  wp dev_thread_end_loaded_medium
     (fun _ w' =>
        end_stage w w' /\
        ld_sub_request (w_dev w') = ld_sub_request (w_dev w) /\
        (ld_op_status (w_dev w) = PHO_DEV_OP_ST_LOADED ->
         ld_dss_media_info (w_dev w') = None) /\
        (ld_op_status (w_dev w) <> PHO_DEV_OP_ST_LOADED ->
         ld_dss_media_info (w_dev w') = ld_dss_media_info (w_dev w))) w.
Proof.
  intros Hne.
  unfold dev_thread_end_loaded_medium, fail_release_free_medium,
    dss_set_medium_to_failed, dss_medium_release.
  wp_steps; stage_leaf.
Qed.

Lemma dev_thread_end_device_stage w :
  th_status (ld_device_thread (w_dev w)) <> 0 ->
  wp dev_thread_end_device
     (fun _ w' =>
        ld_device_thread (w_dev w') = ld_device_thread (w_dev w) /\
        ld_sub_request (w_dev w') = ld_sub_request (w_dev w) /\
        ld_dss_media_info (w_dev w') = ld_dss_media_info (w_dev w) /\
        ld_op_status (w_dev w') = PHO_DEV_OP_ST_FAILED /\
        d_adm_status (ld_dss_dev_info (w_dev w')) = PHO_RSC_ADM_ST_FAILED /\
        tosync_array (ld_sync_params (w_dev w')) = [] /\
        ld_ongoing_io (w_dev w') = false /\
        extends (only [CL_DSS; CL_BOOK; CL_CLOCK; CL_OP]) (w_trace w) (w_trace w') /\
        exists new r, w_trace w' = new ++ w_trace w /\
                      In (EvCall (device_failed_update w) r) new) w.
Proof.
  intros Hne. unfold dev_thread_end_device, dss_device_release, device_failed_update.
  repeat first [ progress wp_steps | wp_use clean_tosync_array_full ].
  all: bool_hyps; try contradiction.
  all: destruct H as [Hd [_ Hb]];
    pose proof (extends_app _ _ _ Hb) as (n & Ht & _);
    dev_norm; rewrite ?Hd; dev_norm.
  all: repeat match goal with |- _ /\ _ => split end;
    try reflexivity; try solve_extends.
  all: rewrite Ht;
    match goal with
    | |- exists new r, ?l = _ /\ _ =>
        match l with
        | ?e1 :: ?e2 :: ?e3 :: ?m ++ _ => exists (e1 :: e2 :: e3 :: m)
        | ?e1 :: ?e2 :: ?m ++ _ => exists (e1 :: e2 :: m)
        end
    end;
    eexists; (split; [reflexivity|]); simpl; auto 6.
Qed.

Lemma dev_thread_end_error_spec w :
  th_status (ld_device_thread (w_dev w)) <> 0 ->
  wp dev_thread_end
     (fun _ w' =>
        let d := w_dev w in
        let d' := w_dev w' in
        th_status (ld_device_thread d') = th_status (ld_device_thread d) /\
        th_state (ld_device_thread d') <> THREAD_RUNNING /\
        (th_state (ld_device_thread d) <> THREAD_RUNNING ->
         th_state (ld_device_thread d') = th_state (ld_device_thread d)) /\
        ld_op_status d' = PHO_DEV_OP_ST_FAILED /\
        d_adm_status (ld_dss_dev_info d') = PHO_RSC_ADM_ST_FAILED /\
        ld_sub_request d' = None /\
        ld_ongoing_io d' = false /\
        tosync_array (ld_sync_params d') = [] /\
        (ld_op_status d = PHO_DEV_OP_ST_MOUNTED \/
         ld_op_status d = PHO_DEV_OP_ST_LOADED ->
         ld_dss_media_info d' = None) /\
        extends (only [CL_DSS; CL_BOOK; CL_CLOCK; CL_OP]) (w_trace w) (w_trace w') /\
        exists new r, w_trace w' = new ++ w_trace w /\
                      In (EvCall (device_failed_update w) r) new) w.
Proof.
  intros Hne. unfold dev_thread_end.
  apply wp_bind, wp_get_dev. apply wp_bind.
  apply (wp_mono _ (fun _ w0 =>
           th_status (ld_device_thread (w_dev w0)) = th_status (ld_device_thread (w_dev w)) /\
           th_state (ld_device_thread (w_dev w0)) <> THREAD_RUNNING /\
           (th_state (ld_device_thread (w_dev w)) <> THREAD_RUNNING ->
            th_state (ld_device_thread (w_dev w0)) = th_state (ld_device_thread (w_dev w))) /\
           ld_op_status (w_dev w0) = ld_op_status (w_dev w) /\
           ld_dss_dev_info (w_dev w0) = ld_dss_dev_info (w_dev w) /\
           w_trace w0 = w_trace w)).
  { unfold thread_is_running. wp_steps; bool_hyps; dev_norm;
      repeat split; try reflexivity; try congruence; try discriminate. }
  cbn beta. intros _ w0 (Hst0 & Hrun0 & Hkeep0 & Hop0 & Hinfo0 & Ht0).
  wp_use cancel_pending_format_stage.
  destruct H as ((Hth1 & Hinfo1 & Hsp1 & Hop1 & He1) & Hsub1 & Hmed1).
  wp_use dev_thread_end_mounted_medium_stage; [rewrite Hth1, Hst0; exact Hne|].
  destruct H as ((Hth2 & Hinfo2 & Hsp2 & Hop2 & He2) & Hsub2 & Hm2 & Hm2').
  wp_use dev_thread_end_loaded_medium_stage;
    [rewrite Hth2, Hth1, Hst0; exact Hne|].
  destruct H as ((Hth3 & Hinfo3 & Hsp3 & Hop3 & He3) & Hsub3 & Hm3 & Hm3').
  eapply wp_mono;
    [apply dev_thread_end_device_stage; rewrite Hth3, Hth2, Hth1, Hst0; exact Hne|].
  cbn beta.
  intros _ w4 (Hth4 & Hsub4 & Hmed4 & Hop4 & Hadm4 & Harr4 & Hio4 & He4 & Hex4).
  cbv zeta.
  assert (He : extends (only [CL_DSS; CL_BOOK; CL_CLOCK; CL_OP])
                 (w_trace w) (w_trace w'1)).
  { rewrite <- Ht0. eapply extends_trans; [exact He1|].
    eapply extends_trans; [exact He2 | exact He3]. }
  split; [rewrite Hth4, Hth3, Hth2, Hth1; exact Hst0|].
  split; [rewrite Hth4, Hth3, Hth2, Hth1; exact Hrun0|].
  split; [intros Hk; rewrite Hth4, Hth3, Hth2, Hth1; exact (Hkeep0 Hk)|].
  split; [exact Hop4|]. split; [exact Hadm4|].
  split; [rewrite Hsub4, Hsub3, Hsub2; exact Hsub1|].
  split; [exact Hio4|]. split; [exact Harr4|].
  split.
  { rewrite Hmed4. intros [Hm | Hl].
    - assert (Hm1 : ld_op_status (w_dev w') = PHO_DEV_OP_ST_MOUNTED) by congruence.
      specialize (Hm2 Hm1). rewrite Hm3' by (rewrite Hop2, Hm1; discriminate).
      exact Hm2.
    - assert (Hl2 : ld_op_status (w_dev w'0) = PHO_DEV_OP_ST_LOADED) by congruence.
      exact (Hm3 Hl2). }
  split; [eapply extends_trans; [exact He | exact He4]|].
  destruct Hex4 as (new4 & r & Hnew4 & Hin4).
  apply extends_app in He as (new & Hnew & _).
  exists (new4 ++ new), r. split.
  - rewrite Hnew4, Hnew, app_assoc. reflexivity.
  - apply in_or_app. left. unfold device_failed_update in *.
    rewrite Hinfo3, Hinfo2, Hinfo1, Hinfo0 in Hin4. exact Hin4.
Qed.

(** X12.  When the thread ends with an error status, [dev_thread_end] keeps
    that status and leaves the device FAILED, with its record marked FAILED,
    no pending sub-request, no ongoing I/O and an empty sync list; a thread
    that was running is no longer so, any other thread state is kept.  The
    medium of a MOUNTED or LOADED device is forgotten.  The drive itself is
    left alone: no filesystem, library or I/O adapter call is made, so a
    mounted medium is not unmounted and a loaded medium is not unloaded;
    only DSS and bookkeeping calls and the write of the status occur. *)
Theorem dev_thread_end_on_error (w : world) :
  th_status (ld_device_thread (w_dev w)) <> 0 ->
  let w' := snd (dev_thread_end w) in
  let d := w_dev w in
  let d' := w_dev w' in
  let new := new_events w w' in
  th_status (ld_device_thread d') = th_status (ld_device_thread d) /\
  th_state (ld_device_thread d') <> THREAD_RUNNING /\
  (th_state (ld_device_thread d) <> THREAD_RUNNING ->
   th_state (ld_device_thread d') = th_state (ld_device_thread d)) /\
  ld_op_status d' = PHO_DEV_OP_ST_FAILED /\
  d_adm_status (ld_dss_dev_info d') = PHO_RSC_ADM_ST_FAILED /\
  ld_sub_request d' = None /\
  ld_ongoing_io d' = false /\
  tosync_array (ld_sync_params d') = [] /\
  (ld_op_status d = PHO_DEV_OP_ST_MOUNTED \/
   ld_op_status d = PHO_DEV_OP_ST_LOADED ->
   ld_dss_media_info d' = None) /\
  calls_of [CL_FS; CL_LIB; CL_IO] new = [] /\
  Forall (fun e => only [CL_DSS; CL_BOOK; CL_CLOCK; CL_OP] e = true) new.
Proof.
  intros Hne w' d d' new. subst w' d d' new.
  pose proof (wp_run _ _ _ (dev_thread_end_error_spec w Hne)) as H.
  cbv zeta in H.
  destruct H as (H1 & H2 & H3 & H4 & H5 & H6 & H7 & H8 & H9 & He & _).
  repeat (split; [assumption|]).
  apply extends_app in He as (new & Hnew & Hall).
  rewrite (new_events_app _ _ _ Hnew). split; [|exact Hall].
  clear Hnew. unfold calls_of. induction Hall as [|e l He Hl IH]; [reflexivity|].
  cbn [List.filter].
  replace (only [CL_FS; CL_LIB; CL_IO] e) with false; [exact IH|].
  unfold only in *. apply bool_decide_eq_true in He.
  symmetry. apply bool_decide_eq_false. intros Hin.
  destruct (class_of e); set_solver.
Qed.

Lemma dev_thread_end_on_error_witness :
  ld_op_status (w_dev (snd (dev_thread_end world_thread_error)))
    = PHO_DEV_OP_ST_FAILED /\
  ld_dss_media_info (w_dev (snd (dev_thread_end world_thread_error))) = None /\
  calls_of [CL_FS; CL_LIB; CL_IO]
    (new_events world_thread_error (snd (dev_thread_end world_thread_error))) = [].
Proof.
  destruct (dev_thread_end_on_error world_thread_error)
    as (_ & _ & _ & H4 & _ & _ & _ & _ & H9 & H10 & _).
  - vm_compute. discriminate.
  - split; [exact H4|]. split; [apply H9; left; reflexivity | exact H10].
Defined.

(** ** The main loop while an I/O is ongoing *)

Lemma bookkeeping_drive w w' :
  bookkeeping w w' ->
  same_drive (w_dev w) (w_dev w') /\
  ld_device_thread (w_dev w') = ld_device_thread (w_dev w).
Proof.
  intros [He _]. unfold same_drive.
  repeat split;
    [ apply (f_equal ld_op_status) in He
    | apply (f_equal ld_dss_media_info) in He
    | apply (f_equal ld_dss_dev_info) in He
    | apply (f_equal ld_mnt_path) in He
    | apply (f_equal ld_ongoing_io) in He
    | apply (f_equal ld_last_client_rc) in He
    | apply (f_equal ld_device_thread) in He ]; exact He.
Qed.

Lemma lrs_dev_thread_body_ongoing w :
  ld_ongoing_io (w_dev w) = true ->
  wp lrs_dev_thread_body
     (fun fatal w' =>
        same_drive (w_dev w) (w_dev w') /\
        th_state (ld_device_thread (w_dev w')) = th_state (ld_device_thread (w_dev w)) /\
        extends (only [CL_BOOK; CL_CLOCK]) (w_trace w) (w_trace w') /\
        (fatal = false ->
         ld_device_thread (w_dev w') = ld_device_thread (w_dev w)) /\
        (fatal = true -> th_status (ld_device_thread (w_dev w')) < 0)) w.
Proof.
  intros Hio. unfold lrs_dev_thread_body.
  apply wp_bind, wp_get_dev. apply wp_bind.
  eapply (wp_mono _ (fun _ w' => bookkeeping w w')).
  { wp_steps; on_leaves ltac:(solve_bookkeeping).
    wp_use cancel_subrequest_on_error_book.
    wp_steps; try (wp_use sub_request_free_book; wp_steps); solve_bookkeeping. }
  cbn beta. intros _ w1 H1.
  wp_use remove_canceled_sync_book.
  apply wp_bind, wp_get_dev. apply wp_bind.
  eapply (wp_mono _ (fun _ w' => bookkeeping w w')).
  { destruct (negb (ld_needs_sync (w_dev w'))).
    - wp_use check_needs_sync_book. solve_bookkeeping.
    - apply wp_ret. solve_bookkeeping. }
  cbn beta. intros _ w3 H3.
  destruct (bookkeeping_drive _ _ H3) as [Hd3 Hth3].
  pose proof Hd3 as (_ & _ & _ & _ & Hio3 & _). rewrite Hio in Hio3.
  apply wp_bind, wp_get_dev. rewrite Hio3. cbn [negb].
  rewrite andb_false_r. cbn [andb].
  apply wp_bind, wp_ret. apply wp_bind, wp_get_dev. rewrite Hio3. cbn [negb].
  apply wp_bind, wp_ret. change (negb (0 =? 0)) with false. cbn iota.
  apply wp_bind, wp_get_dev.
  destruct (negb (thread_is_stopped (ld_device_thread (w_dev w3)))).
  - wp_use dev_wait_for_signal_book.
    assert (Hb : bookkeeping w w'0).
    { eapply bookkeeping_trans; eassumption. }
    destruct (bookkeeping_drive _ _ Hb) as [Hd Hth].
    destruct Hb as [_ He].
    wp_steps; dev_norm.
    + split; [exact Hd|]. split; [rewrite Hth; reflexivity|].
      split; [exact He|]. split; [discriminate|].
      intros _. apply Z.ltb_lt. assumption.
    + split; [exact Hd|]. split; [rewrite Hth; reflexivity|].
      split; [exact He|]. split; [intros _; exact Hth | discriminate].
  - apply wp_ret. destruct H3 as [_ He].
    split; [exact Hd3|]. split; [rewrite Hth3; reflexivity|].
    split; [exact He|]. split; [intros _; exact Hth3 | discriminate].
Qed.

(** X13.  While an I/O is ongoing on the device, a turn of the main loop
    leaves the drive alone: the operational status, the medium, the device
    record, the mount path and the last client code are unchanged, the I/O
    is still ongoing, the thread state is kept (a stopping thread is not
    switched to stopped, even with nothing pending), and the only calls are
    request bookkeeping and clock calls: no sync, no handling of the pending
    sub-request.  The turn is fatal only when waiting for the signal
    failed, and the thread status is then that negative code; otherwise the
    thread record is unchanged. *)
Theorem lrs_dev_thread_body_ongoing_io (w : world) :
  ld_ongoing_io (w_dev w) = true ->
  let fatal := fst (lrs_dev_thread_body w) in
  let w' := snd (lrs_dev_thread_body w) in
  same_drive (w_dev w) (w_dev w') /\
  th_state (ld_device_thread (w_dev w')) = th_state (ld_device_thread (w_dev w)) /\
  Forall (fun e => only [CL_BOOK; CL_CLOCK] e = true) (new_events w w') /\
  (fatal = false -> ld_device_thread (w_dev w') = ld_device_thread (w_dev w)) /\
  (fatal = true -> th_status (ld_device_thread (w_dev w')) < 0).
Proof.
  intros Hio fatal w'. subst fatal w'.
  destruct (wp_run _ _ _ (lrs_dev_thread_body_ongoing w Hio))
    as (Hd & Hst & He & Hok & Hfatal).
  split; [exact Hd|]. split; [exact Hst|]. split; [|split; assumption].
  apply extends_app in He as (new & Hnew & Hall).
  rewrite (new_events_app _ _ _ Hnew). exact Hall.
Qed.

Lemma lrs_dev_thread_body_ongoing_io_witness :
  th_state (ld_device_thread (w_dev (snd (lrs_dev_thread_body world_ongoing_io))))
    = THREAD_STOPPING /\
  ld_op_status (w_dev (snd (lrs_dev_thread_body world_ongoing_io)))
    = PHO_DEV_OP_ST_MOUNTED.
Proof.
  destruct (lrs_dev_thread_body_ongoing_io world_ongoing_io)
    as ((Hop & _) & Hst & _).
  - reflexivity.
  - split; [exact Hst | exact Hop].
Defined.

(** ** The thread record and the stop of the main loop *)

Ltac thread_leaf :=
  repeat match goal with
         | H : _ /\ _ |- _ => destruct H as [? ?]
         end;
  repeat match goal with
         | H : bookkeeping _ _ |- _ => apply bookkeeping_thread in H
         | H : w_dev ?w1 = w_dev ?w2 |- _ =>
             apply (f_equal ld_device_thread) in H
         end;
  dev_norm; rewrite ?store_loaded_medium_thread in *; dev_norm;
  try congruence.

Lemma fail_release_free_medium_dev m free_medium w :
  wp (fail_release_free_medium m free_medium) (fun _ w' => w_dev w' = w_dev w) w.
Proof.
  unfold fail_release_free_medium, dss_set_medium_to_failed, dss_medium_release.
  wp_steps; reflexivity.
Qed.

Lemma dev_load_thread m release free_medium w :
  wp (dev_load m release free_medium)
     (fun _ w' => ld_device_thread (w_dev w') = ld_device_thread (w_dev w)) w.
Proof.
  unfold dev_load, dev_load_out_close, fail_release_free_medium,
    dss_set_medium_to_failed, dss_medium_release, wrap_lib_open.
  repeat first
    [ progress wp_steps
    | match goal with
      | |- wp (match ?x with PHO_RSC_DIR => _ | _ => _ end) _ _ => destruct x
      end ];
    reflexivity.
Qed.

Lemma dev_format_thread unlock w :
  wp (dev_format unlock)
     (fun _ w' => ld_device_thread (w_dev w') = ld_device_thread (w_dev w)) w.
Proof. unfold dev_format. wp_steps; thread_leaf. Qed.

Lemma dev_mount_thread w :
  wp dev_mount
     (fun _ w' => ld_device_thread (w_dev w') = ld_device_thread (w_dev w)) w.
Proof. unfold dev_mount. wp_steps; thread_leaf. Qed.

Lemma dev_handle_read_write_out_free_thread rc io_ended requeued fod w :
  wp (dev_handle_read_write_out_free rc io_ended requeued fod)
     (fun _ w' => ld_device_thread (w_dev w') = ld_device_thread (w_dev w)) w.
Proof.
  unfold dev_handle_read_write_out_free.
  repeat first [ progress wp_steps | wp_use sub_request_free_book ];
    thread_leaf.
Qed.

Lemma dev_handle_read_write_alloc_result_thread rc io_ended fod w :
  wp (dev_handle_read_write_alloc_result rc io_ended fod)
     (fun _ w' => ld_device_thread (w_dev w') = ld_device_thread (w_dev w)) w.
Proof.
  unfold dev_handle_read_write_alloc_result.
  wp_use handle_rwalloc_sub_request_result_book.
  destruct a as [[rc2 requeued] cancel].
  destruct (negb (rc2 =? 0) && negb fod);
    wp_use dev_handle_read_write_out_free_thread; thread_leaf.
Qed.

Ltac thread_call :=
  first
    [ wp_use dev_handle_read_write_alloc_result_thread
    | wp_use dev_handle_read_write_out_free_thread
    | wp_use dev_mount_thread
    | wp_use dev_format_thread
    | wp_use dev_load_thread
    | wp_use dev_empty_calm
    | wp_use fail_release_free_medium_dev
    | wp_use dev_mount_is_writable_plain
    | wp_use queue_format_response_book
    | wp_use cancel_subrequest_on_error_book
    | wp_use sub_request_free_book ].

Ltac thread_auto :=
  repeat first [ progress wp_steps | thread_call ]; thread_leaf.

Lemma dev_handle_read_write_mounted_thread w :
  wp dev_handle_read_write_mounted
     (fun _ w' => ld_device_thread (w_dev w') = ld_device_thread (w_dev w)) w.
Proof. unfold dev_handle_read_write_mounted, modify_sub_request. thread_auto. Qed.

Lemma dev_handle_read_write_mount_thread w :
  wp dev_handle_read_write_mount
     (fun _ w' => ld_device_thread (w_dev w') = ld_device_thread (w_dev w)) w.
Proof.
  unfold dev_handle_read_write_mount, modify_sub_request.
  repeat first
    [ progress wp_steps
    | wp_use dev_handle_read_write_mounted_thread
    | thread_call ];
    thread_leaf.
Qed.

Lemma dev_handle_read_write_thread w :
  wp dev_handle_read_write
     (fun _ w' => ld_device_thread (w_dev w') = ld_device_thread (w_dev w)) w.
Proof.
  unfold dev_handle_read_write, modify_sub_request.
  repeat first
    [ progress wp_steps
    | wp_use dev_handle_read_write_mount_thread
    | thread_call ];
    thread_leaf.
Qed.

Lemma dev_handle_format_thread w :
  wp dev_handle_format
     (fun _ w' => ld_device_thread (w_dev w') = ld_device_thread (w_dev w)) w.
Proof.
  unfold dev_handle_format, dev_handle_format_out_response,
    dev_handle_format_out, queue_error_response, modify_sub_request.
  thread_auto.
Qed.

Lemma dev_sync_drains w :
  wp dev_sync
     (fun _ w' =>
        ld_device_thread (w_dev w') = ld_device_thread (w_dev w) /\
        ld_sub_request (w_dev w') = ld_sub_request (w_dev w) /\
        ld_ongoing_io (w_dev w') = ld_ongoing_io (w_dev w) /\
        tosync_array (ld_sync_params (w_dev w')) = []) w.
Proof.
  unfold dev_sync.
  repeat first
    [ progress wp_steps
    | wp_use medium_sync_exact
    | wp_use lrs_dev_media_update_post
    | wp_use clean_tosync_array_full ].
  all: repeat match goal with
              | H : _ /\ _ |- _ => destruct H as [? ?]
              end;
    repeat match goal with
           | H : w_dev _ = _ |- _ => rewrite H in *; clear H
           end;
    dev_norm;
    unfold store_loaded_medium; destruct (ld_dss_media_info (w_dev w));
    dev_norm; repeat split; reflexivity.
Qed.

Lemma lrs_dev_thread_body_state w :
  wp lrs_dev_thread_body
     (fun _ w' =>
        th_state (ld_device_thread (w_dev w'))
          = th_state (ld_device_thread (w_dev w)) \/
        (th_state (ld_device_thread (w_dev w)) = THREAD_STOPPING /\
         ld_ongoing_io (w_dev w) = false /\ stopped_now w')) w.
Proof.
  unfold lrs_dev_thread_body.
  apply wp_bind, wp_get_dev. apply wp_bind.
  eapply (wp_mono _ (fun _ w' => bookkeeping w w')).
  { wp_steps; on_leaves ltac:(solve_bookkeeping).
    wp_use cancel_subrequest_on_error_book.
    wp_steps; try (wp_use sub_request_free_book; wp_steps); solve_bookkeeping. }
  cbn beta. intros _ w1 H1.
  wp_use remove_canceled_sync_book.
  apply wp_bind, wp_get_dev. apply wp_bind.
  eapply (wp_mono _ (fun _ w' => bookkeeping w w')).
  { destruct (negb (ld_needs_sync (w_dev w'))).
    - wp_use check_needs_sync_book. solve_bookkeeping.
    - apply wp_ret. solve_bookkeeping. }
  cbn beta. intros _ w3 H3.
  destruct (bookkeeping_drive _ _ H3) as [Hd3 Hth3].
  pose proof Hd3 as (_ & _ & _ & _ & Hio3 & _). clear H H1 H3 Hd3.
  unfold thread_is_stopping, thread_is_stopped.
  repeat first
    [ progress wp_steps
    | wp_use dev_sync_drains
    | wp_use dev_handle_format_thread
    | wp_use dev_handle_read_write_thread
    | wp_use dev_wait_for_signal_book ].
  all: repeat match goal with
              | H : _ /\ _ |- _ => destruct H as [? ?]
              | H : bookkeeping _ _ |- _ =>
                  apply bookkeeping_drive in H; unfold same_drive in H
              end;
    bool_hyps; dev_norm.
  all: repeat match goal with
              | H : (_ =? _)%nat = true |- _ => apply Nat.eqb_eq in H
              | H : length _ = 0%nat |- _ => apply length_zero_iff_nil in H
              end.
  all: try solve [left; congruence | exfalso; congruence].
  all: unfold stopped_now; dev_norm;
    repeat match goal with
           | H : ld_device_thread (w_dev _) = _ |- _ => rewrite H in *; clear H
           end;
    dev_norm;
    first
      [ left; congruence
      | right; repeat match goal with |- _ /\ _ => split end; congruence ].
Qed.

Lemma check_needs_sync_frame w :
  wp check_needs_sync
     (fun _ w' => exists b, w_dev w' = dev_with_needs_sync b (w_dev w)) w.
Proof.
  unfold check_needs_sync, is_past, clock_gettime.
  wp_steps; eexists; reflexivity.
Qed.

Lemma lrs_dev_thread_body_stops w :
  th_state (ld_device_thread (w_dev w)) = THREAD_STOPPING ->
  ld_ongoing_io (w_dev w) = false ->
  ld_sub_request (w_dev w) = None ->
  tosync_array (ld_sync_params (w_dev w)) = [] ->
  wp lrs_dev_thread_body (fun _ w' => stopped_now w') w.
Proof.
  intros Hst Hio Hsub Harr. unfold lrs_dev_thread_body.
  apply wp_bind, wp_get_dev. rewrite Hsub. apply wp_bind, wp_ret.
  apply wp_bind. unfold remove_canceled_sync.
  apply wp_bind, wp_get_dev. rewrite Harr. cbn [length remove_canceled_loop].
  apply wp_bind, wp_ret. apply wp_ret.
  apply wp_bind, wp_get_dev. apply wp_bind.
  eapply (wp_mono _ (fun _ w' => exists b, w_dev w' = dev_with_needs_sync b (w_dev w))).
  { destruct (negb (ld_needs_sync (w_dev w))).
    - apply check_needs_sync_frame.
    - apply wp_ret. exists (ld_needs_sync (w_dev w)).
      destruct (w_dev w); reflexivity. }
  cbn beta. intros _ w3 [b Hd3].
  apply wp_bind, wp_get_dev. apply wp_bind.
  replace (thread_is_stopping (ld_device_thread (w_dev w3))
           && negb (ld_ongoing_io (w_dev w3))
           && bool_decide (ld_sub_request (w_dev w3) = None)
           && (length (tosync_array (ld_sync_params (w_dev w3))) =? 0)%nat)
    with true.
  2:{ rewrite Hd3. dev_norm. unfold thread_is_stopping.
      rewrite Hio, Hsub, Harr, Hst. reflexivity. }
  unfold thread_is_stopped.
  repeat first
    [ progress wp_steps
    | wp_use dev_sync_drains
    | wp_use dev_handle_format_thread
    | wp_use dev_handle_read_write_thread
    | wp_use dev_wait_for_signal_book ].
  all: repeat match goal with
              | H : _ /\ _ |- _ => destruct H as [? ?]
              | H : bookkeeping _ _ |- _ =>
                  apply bookkeeping_drive in H; unfold same_drive in H
              end;
    bool_hyps; dev_norm; rewrite ?Hd3 in *; dev_norm.
  all: try solve [exfalso; congruence].
  all: unfold stopped_now; dev_norm;
    repeat match goal with
           | H : ld_device_thread (w_dev _) = _ |- _ => rewrite H in *; clear H
           end;
    rewrite ?Hd3 in *; dev_norm;
    first
      [ exfalso; congruence
      | repeat match goal with |- _ /\ _ => split end; congruence ].
Qed.

(** X14.  The loop body switches the thread to STOPPED only from STOPPING,
    with no I/O ongoing, and then returns with no pending sub-request, an
    empty sync list and still no I/O ongoing; in every other case it leaves
    the thread state as it was, whatever the sync and the handler of the
    pending sub-request did.  Conversely a stopping thread with no ongoing
    I/O, no pending sub-request and an empty sync list is stopped by the
    next turn of the body. *)
Theorem lrs_dev_thread_body_stop (w : world) :
  let w' := snd (lrs_dev_thread_body w) in
  (th_state (ld_device_thread (w_dev w'))
     = th_state (ld_device_thread (w_dev w)) \/
   (th_state (ld_device_thread (w_dev w)) = THREAD_STOPPING /\
    ld_ongoing_io (w_dev w) = false /\
    th_state (ld_device_thread (w_dev w')) = THREAD_STOPPED /\
    ld_sub_request (w_dev w') = None /\
    tosync_array (ld_sync_params (w_dev w')) = [] /\
    ld_ongoing_io (w_dev w') = false)) /\
  (th_state (ld_device_thread (w_dev w)) = THREAD_STOPPING ->
   ld_ongoing_io (w_dev w) = false ->
   ld_sub_request (w_dev w) = None ->
   tosync_array (ld_sync_params (w_dev w)) = [] ->
   th_state (ld_device_thread (w_dev w')) = THREAD_STOPPED).
Proof.
  intros w'. subst w'. split.
  - exact (wp_run _ _ _ (lrs_dev_thread_body_state w)).
  - intros Hst Hio Hsub Harr.
    destruct (wp_run _ _ _ (lrs_dev_thread_body_stops w Hst Hio Hsub Harr))
      as [H _].
    exact H.
Qed.

Lemma lrs_dev_thread_body_stop_witness :
  th_state (ld_device_thread
              (w_dev (snd (lrs_dev_thread_body world_stopping_idle))))
    = THREAD_STOPPED.
Proof.
  destruct (lrs_dev_thread_body_stop world_stopping_idle) as [_ H].
  apply H; reflexivity.
Defined.

(** ** The result of a read or write sub-request *)

Lemma handle_rwalloc_sub_request_result_disposed w sr i rq sub_request_rc :
  ld_sub_request (w_dev w) = Some sr ->
  reqc sr = Some i ->
  w_reqs w !! i = Some rq ->
  wp (handle_rwalloc_sub_request_result sub_request_rc)
     (rwalloc_disposed i rq sub_request_rc w) w.
Proof.
  intros Hsr Hreq Hrq.
  unfold handle_rwalloc_sub_request_result, locked_cancel_rwalloc_on_error,
    fill_rwalloc_resp_container, rwalloc_result_try_send,
    rwalloc_result_out_free, rwalloc_cancel_DONE_devices,
    queue_error_response, modify_sub_request, pending_sub_request.
  apply wp_bind, wp_get_dev. rewrite Hsr.
  change (default no_sub_request (Some sr)) with sr. rewrite Hreq.
  wp_steps.
  all: unfold rwalloc_disposed; new_events_exact.
  all: unfold reqc_deref in *; cbn [w_reqs] in *;
    rewrite ?lookup_alter_eq, ?Hrq in *;
    cbn [fmap option_fmap option_map default from_option id] in *.
  all: unfold occurrences;
    cbn [List.filter is_retry_push is_error_response is_rwalloc_response length
         rw_rc p_rwalloc reqc_with_rwalloc rwalloc_with_medium rwalloc_with_rc
         rwalloc_with_respc];
    bool_hyps.
  all: repeat match goal with
              | |- _ /\ _ => split
              | |- _ <-> _ => split
              | |- _ -> _ => intro
              end;
    try solve [reflexivity | discriminate | congruence | lia
              | eexists; simpl; auto 10 ].
Qed.

Lemma rwalloc_disposed_unfold i rq sub_request_rc w res w' :
  rwalloc_disposed i rq sub_request_rc w res w' ->
  let rc := fst (fst res) in
  let requeued := snd (fst res) in
  let canceled := snd res in
  let new := new_events w w' in
  let rq' := reqc_deref (Some i) w' in
  let retries := occurrences is_retry_push new in
  let errors := occurrences is_error_response new in
  let responses := occurrences is_rwalloc_response new in
  (canceled = true <-> rw_rc (p_rwalloc rq) <> 0) /\
  (retries + errors + responses <= 1)%nat /\
  (canceled = true ->
   rc = 0 /\ requeued = false /\ (retries + errors + responses = 0)%nat /\
   rw_rc (p_rwalloc rq') = rw_rc (p_rwalloc rq)) /\
  (requeued = true <-> retries = 1%nat) /\
  (requeued = true -> rw_rc (p_rwalloc rq') = 0) /\
  (errors = 1%nat <-> rw_rc (p_rwalloc rq) = 0 /\ rw_rc (p_rwalloc rq') <> 0) /\
  (errors = 1%nat ->
   exists r, In (EvCall (QueueErrorResponse (rw_rc (p_rwalloc rq')) (Some i)) r) new) /\
  (responses = 1%nat ->
   rc = 0 /\ sub_request_rc = 0 /\ rw_rc (p_rwalloc rq') = 0).
Proof. destruct res as [[rc requeued] canceled]. intros H. exact H. Qed.

(** X15.  [handle_rwalloc_sub_request_result] disposes of the result of the
    pending sub-request in at most one way: a push on the retry queue, an
    error response or the response of the allocation, never two of them.
    The sub-request is canceled exactly when its request was already in
    error; nothing is then queued, the return code is 0 and the error of
    the request is kept.  The requeued flag is up exactly when the
    sub-request was pushed on the retry queue, and the request is then not
    put in error.  An error response is queued exactly when a request
    without error is put in error, and it carries the code recorded in the
    request.  The response of the allocation is pushed only for a result
    without error, with return code 0 and the request without error. *)
Theorem handle_rwalloc_sub_request_result_outcome
    (w : world) (sr : sub_request) (i : nat) (rq : req_container)
    (sub_request_rc : Z) :
  ld_sub_request (w_dev w) = Some sr ->
  reqc sr = Some i ->
  w_reqs w !! i = Some rq ->
  let res := fst (handle_rwalloc_sub_request_result sub_request_rc w) in
  let w' := snd (handle_rwalloc_sub_request_result sub_request_rc w) in
  let rc := fst (fst res) in
  let requeued := snd (fst res) in
  let canceled := snd res in
  let new := new_events w w' in
  let rq' := reqc_deref (Some i) w' in
  let retries := occurrences is_retry_push new in
  let errors := occurrences is_error_response new in
  let responses := occurrences is_rwalloc_response new in
  (canceled = true <-> rw_rc (p_rwalloc rq) <> 0) /\
  (retries + errors + responses <= 1)%nat /\
  (canceled = true ->
   rc = 0 /\ requeued = false /\ (retries + errors + responses = 0)%nat /\
   rw_rc (p_rwalloc rq') = rw_rc (p_rwalloc rq)) /\
  (requeued = true <-> retries = 1%nat) /\
  (requeued = true -> rw_rc (p_rwalloc rq') = 0) /\
  (errors = 1%nat <-> rw_rc (p_rwalloc rq) = 0 /\ rw_rc (p_rwalloc rq') <> 0) /\
  (errors = 1%nat ->
   exists r, In (EvCall (QueueErrorResponse (rw_rc (p_rwalloc rq')) (Some i)) r) new) /\
  (responses = 1%nat ->
   rc = 0 /\ sub_request_rc = 0 /\ rw_rc (p_rwalloc rq') = 0).
Proof.
  intros Hsr Hreq Hrq.
  apply (rwalloc_disposed_unfold i rq sub_request_rc w).
  exact (wp_run _ _ _
           (handle_rwalloc_sub_request_result_disposed w sr i rq sub_request_rc
              Hsr Hreq Hrq)).
Qed.

Lemma handle_rwalloc_sub_request_result_outcome_witness :
  rw_rc (p_rwalloc (reqc_deref (Some 4%nat)
           (snd (handle_rwalloc_sub_request_result (-5) world_read_pending))))
  <> 0.
Proof.
  destruct (handle_rwalloc_sub_request_result_outcome world_read_pending
              (SubRequest (Some 4%nat) 0 true) 4%nat sample_read (-5)
              eq_refl eq_refl eq_refl)
    as (_ & _ & _ & _ & _ & [H _] & _).
  apply H. reflexivity.
Defined.

(** ** Ongoing I/O *)

(** The fields the device operations leave to the handlers. *)
Lemma dev_empty_handler_fields w :
  wp dev_empty
     (fun _ w' => ld_sub_request (w_dev w') = ld_sub_request (w_dev w) /\
                  ld_ongoing_io (w_dev w') = ld_ongoing_io (w_dev w)) w.
Proof.
  unfold dev_empty, dev_umount, dev_unload, dss_medium_release, wrap_lib_open.
  repeat first
    [ progress wp_steps
    | match goal with
      | |- wp (match ?x with PHO_RSC_DIR => _ | _ => _ end) _ _ => destruct x
      end
    | wp_use clean_tosync_array_full ].
  all: repeat match goal with
              | H : _ /\ _ |- _ => destruct H as [? ?]
              end;
    repeat match goal with
           | H : w_dev _ = _ |- _ => rewrite H in *; clear H
           end;
    dev_norm; split; reflexivity.
Qed.

Lemma dev_load_handler_fields m release free_medium w :
  wp (dev_load m release free_medium)
     (fun lr w' => ld_sub_request (w_dev w') = ld_sub_request (w_dev w) /\
                   ld_ongoing_io (w_dev w') = ld_ongoing_io (w_dev w) /\
                   (lr_rc lr = 0 ->
                    ld_op_status (w_dev w') = PHO_DEV_OP_ST_LOADED)) w.
Proof.
  eapply wp_mono;
    [apply wp_and; [apply (dev_load_foreign 0 m release free_medium w)|]|].
  2:{ cbn beta. intros lr w' [(Hs & _ & _ & Hl) Hio].
      split; [exact Hs|]. split; [exact Hio | exact Hl]. }
  unfold dev_load, dev_load_out_close, fail_release_free_medium,
    dss_set_medium_to_failed, dss_medium_release, wrap_lib_open.
  repeat first
    [ progress wp_steps
    | match goal with
      | |- wp (match ?x with PHO_RSC_DIR => _ | _ => _ end) _ _ => destruct x
      end ];
    reflexivity.
Qed.

Lemma dev_mount_handler_fields w :
  wp dev_mount
     (fun rc w' => ld_sub_request (w_dev w') = ld_sub_request (w_dev w) /\
                   ld_ongoing_io (w_dev w') = ld_ongoing_io (w_dev w) /\
                   (rc = 0 -> ld_op_status (w_dev w') = PHO_DEV_OP_ST_MOUNTED)) w.
Proof.
  unfold dev_mount.
  wp_steps; dev_norm; bool_hyps;
    (split; [reflexivity|]); (split; [reflexivity|]);
    intros; first [reflexivity | congruence | contradiction | discriminate
                  | unfold EINVAL, ENOMEM in *; lia].
Qed.

Lemma sub_request_free_dev sr w :
  wp (sub_request_free sr) (fun _ w' => w_dev w' = w_dev w) w.
Proof. unfold sub_request_free. destruct sr; wp_steps; reflexivity. Qed.

Ltac io_leaf :=
  repeat match goal with
         | H : _ /\ _ |- _ => destruct H as [? ?]
         | H : bookkeeping _ _ |- _ =>
             apply bookkeeping_drive in H; unfold same_drive in H
         end;
  repeat match goal with
         | H : w_dev _ = _ |- _ => rewrite H in *; clear H
         end;
  dev_norm; bool_hyps;
  repeat match goal with
         | H : (_ || _) = false |- _ => apply orb_false_iff in H; destruct H
         end.

Lemma dev_handle_read_write_out_free_io rc io_ended requeued fod w :
  wp (dev_handle_read_write_out_free rc io_ended requeued fod)
     (fun _ w' =>
        ld_op_status (w_dev w') = ld_op_status (w_dev w) /\
        ld_sub_request (w_dev w') = None /\
        (ld_ongoing_io (w_dev w') = ld_ongoing_io (w_dev w) \/
         (io_ended = false /\ ld_ongoing_io (w_dev w') = true))) w.
Proof.
  unfold dev_handle_read_write_out_free.
  repeat first [ progress wp_steps | wp_use sub_request_free_dev ].
  all: io_leaf.
  all: split; [reflexivity|]; split; [reflexivity|].
  all: first [left; reflexivity
             | right; split; first [assumption | reflexivity]].
Qed.

Lemma dev_handle_read_write_alloc_result_io rc io_ended fod w :
  wp (dev_handle_read_write_alloc_result rc io_ended fod)
     (fun _ w' =>
        ld_op_status (w_dev w') = ld_op_status (w_dev w) /\
        ld_sub_request (w_dev w') = None /\
        (ld_ongoing_io (w_dev w') = ld_ongoing_io (w_dev w) \/
         (io_ended = false /\ ld_ongoing_io (w_dev w') = true))) w.
Proof.
  unfold dev_handle_read_write_alloc_result.
  wp_use handle_rwalloc_sub_request_result_book.
  apply bookkeeping_drive in H. destruct H as [(Hop & _ & _ & _ & Hio & _) _].
  destruct a as [[rc2 requeued] cancel].
  destruct (negb (rc2 =? 0) && negb fod);
    wp_use dev_handle_read_write_out_free_io;
    destruct H as (Hop' & Hsub' & Hio');
    (split; [congruence|]); (split; [exact Hsub'|]);
    (destruct Hio' as [Hio' | [Hend Hio']];
     [left; congruence | right; split; [|exact Hio']]);
    apply orb_false_iff in Hend; apply Hend.
Qed.

Ltac io_finish :=
  io_leaf; unfold io_raised_mounted in *; dev_norm;
  rewrite ?store_loaded_medium_op in *;
  repeat match goal with
         | H : _ \/ _ |- _ => destruct H as [H | H]
         | H : _ /\ _ |- _ => destruct H as [? ?]
         end;
  repeat match goal with
         | H : ?x = 0 -> _, H' : ?x = 0 |- _ => specialize (H H')
         end;
  try discriminate;
  first
    [ left; congruence
    | right; repeat match goal with |- _ /\ _ => split end; congruence ].

Lemma store_loaded_medium_fields m d :
  ld_ongoing_io (store_loaded_medium m d) = ld_ongoing_io d /\
  ld_sub_request (store_loaded_medium m d) = ld_sub_request d.
Proof. unfold store_loaded_medium. destruct (ld_dss_media_info d); split; reflexivity. Qed.

Lemma dev_handle_read_write_mounted_io w :
  ld_op_status (w_dev w) = PHO_DEV_OP_ST_MOUNTED ->
  wp dev_handle_read_write_mounted (fun _ w' => io_raised_mounted w w') w.
Proof.
  intros Hop. unfold dev_handle_read_write_mounted, modify_sub_request.
  repeat first
    [ progress wp_steps
    | wp_use dev_mount_is_writable_plain
    | wp_use dev_handle_read_write_alloc_result_io ].
  all: try (destruct (store_loaded_medium_fields
                        (media_with_fs_status PHO_FS_STATUS_FULL
                           (loaded_medium (w_dev w)))
                        (dev_with_sub_request
                           (sub_request_with_fom true <$> ld_sub_request (w_dev w'))
                           (w_dev w'))) as [Hs1 Hs2]).
  all: io_finish.
Qed.

Lemma dev_handle_read_write_mount_io w :
  wp dev_handle_read_write_mount (fun _ w' => io_raised_mounted w w') w.
Proof.
  unfold dev_handle_read_write_mount, modify_sub_request.
  wp_use dev_mount_handler_fields. destruct H as (Hsub & Hio & Hm).
  destruct (negb (a =? 0)) eqn:Ha.
  - repeat first
      [ progress wp_steps
      | wp_use fail_release_free_medium_dev
      | wp_use dev_handle_read_write_alloc_result_io ].
    io_finish.
  - bool_hyps. specialize (Hm Ha).
    wp_use dev_handle_read_write_mounted_io; [exact Hm|].
    io_finish.
Qed.

Lemma cancel_subrequest_on_error_io w :
  wp cancel_subrequest_on_error
     (fun canceled w' =>
        ld_ongoing_io (w_dev w') = ld_ongoing_io (w_dev w) /\
        ld_op_status (w_dev w') = ld_op_status (w_dev w) /\
        (canceled = false -> w' = w)) w.
Proof.
  eapply wp_mono; [apply cancel_subrequest_on_error_kept|]. cbn beta.
  intros canceled w' [Hk Hb].
  apply bookkeeping_drive in Hb. destruct Hb as [(Hop & _ & _ & _ & Hio & _) _].
  auto.
Qed.

Lemma dev_handle_read_write_io w :
  wp dev_handle_read_write (fun _ w' => io_raised_mounted w w') w.
Proof.
  unfold dev_handle_read_write, modify_sub_request.
  wp_use cancel_subrequest_on_error_io. destruct H as (Hio0 & Hop0 & Hk0).
  destruct a.
  - wp_use dev_handle_read_write_out_free_io. io_finish.
  - specialize (Hk0 eq_refl). subst w'.
    repeat first
      [ progress wp_steps
      | wp_use dev_empty_handler_fields
      | wp_use dev_load_handler_fields
      | wp_use dev_handle_read_write_mount_io
      | wp_use dev_handle_read_write_alloc_result_io ].
    all: io_finish.
Qed.

(** X16.  [dev_handle_read_write] never lowers the ongoing-I/O flag, and it
    raises it only on a device that is MOUNTED when the handler returns and
    has no pending sub-request any more.  In particular a handler that
    keeps the sub-request for a later turn, or that fails before the medium
    is mounted, leaves the flag as it was. *)
Theorem dev_handle_read_write_ongoing_io (w : world) :
  let w' := snd (dev_handle_read_write w) in
  (ld_ongoing_io (w_dev w) = true -> ld_ongoing_io (w_dev w') = true) /\
  (ld_ongoing_io (w_dev w) = false -> ld_ongoing_io (w_dev w') = true ->
   ld_op_status (w_dev w') = PHO_DEV_OP_ST_MOUNTED /\
   ld_sub_request (w_dev w') = None) /\
  (ld_sub_request (w_dev w') <> None \/
   ld_op_status (w_dev w') <> PHO_DEV_OP_ST_MOUNTED ->
   ld_ongoing_io (w_dev w') = ld_ongoing_io (w_dev w)).
Proof.
  intros w'. subst w'.
  pose proof (wp_run _ _ _ (dev_handle_read_write_io w)) as H.
  cbv beta in H. unfold io_raised_mounted in H.
  destruct H as [H | (Hio & Hop & Hsub)].
  - rewrite H. split; [auto|]. split; [intros; congruence | reflexivity].
  - split; [auto|]. split; [auto|].
    intros [Hn | Hn]; contradiction.
Qed.

Lemma dev_handle_read_write_ongoing_io_witness :
  ld_ongoing_io (w_dev (snd (dev_handle_read_write world_read_no_memory))) = true /\
  ld_op_status (w_dev (snd (dev_handle_read_write world_read_no_memory)))
    = PHO_DEV_OP_ST_MOUNTED /\
  ld_sub_request (w_dev (snd (dev_handle_read_write world_read_no_memory))) = None.
Proof.
  destruct (dev_handle_read_write_ongoing_io world_read_no_memory)
    as (_ & H & _).
  split; [vm_compute; reflexivity|].
  apply H; vm_compute; reflexivity.
Defined.
